(** * iFunny client: frame dispatch, login and request ids

    A shallow embedding of [ifunny/client/_handler.py] and of the parts of
    [ifunny/client/_client.py] that the handler and the login path run
    through.  Python values that travel through the code are JSON values;
    the interpreter state a method can touch is a [World]; a method is a
    function from worlds to an outcome (a value or a raised exception)
    and the world it leaves behind.  Everything observable a method does
    to its collaborators (hooks called, frames sent, HTTP requests,
    sleeps, cache writes) is appended to the world's log. *)

From Stdlib Require Import ZArith Ascii String Floats.SpecFloat.
From stdpp Require Import gmap strings list fin_maps.

Set Warnings "-register-all".
Local Open Scope string_scope.
Local Open Scope Z_scope.

(** ** Python values *)

(** What [json.loads] can return.  A dict is kept as its items in
    insertion order, with distinct keys. *)
Inductive json : Type :=
| JNull
| JBool (b : bool)
| JInt (z : Z)
| JFloat (f : spec_float)
| JStr (s : string)
| JArr (l : list json)
| JObj (items : list (string * json)).

Fixpoint dict_get (items : list (string * json)) (k : string) : option json :=
  match items with
  | [] => None
  | (k', v) :: rest => if String.eqb k' k then Some v else dict_get rest k
  end.

(** [bool(v)]: what [if v:] tests. *)
Definition py_truthy (v : json) : bool :=
  match v with
  | JNull => false
  | JBool b => b
  | JInt z => negb (z =? 0)
  | JFloat (S754_zero _) => false
  | JFloat _ => true
  | JStr s => negb (String.eqb s "")
  | JArr l => match l with [] => false | _ => true end
  | JObj l => match l with [] => false | _ => true end
  end.

(** Numbers compare by value across [bool], [int] and [float]. *)
Inductive pynum : Type := NInt (z : Z) | NFloat (f : spec_float).

Definition num_of (v : json) : option pynum :=
  match v with
  | JBool b => Some (NInt (Z.b2z b))
  | JInt z => Some (NInt z)
  | JFloat f => Some (NFloat f)
  | _ => None
  end.

Definition float_eq_int (f : spec_float) (z : Z) : bool :=
  match f with
  | S754_zero _ => z =? 0
  | S754_finite s m e =>
      let v := if s then Z.neg m else Z.pos m in
      if 0 <=? e then z =? v * 2 ^ e else v =? z * 2 ^ (- e)
  | _ => false
  end.

Definition num_eqb (a b : pynum) : bool :=
  match a, b with
  | NInt x, NInt y => x =? y
  | NFloat f, NFloat g => SFeqb f g
  | NInt x, NFloat g => float_eq_int g x
  | NFloat f, NInt y => float_eq_int f y
  end.

(** [a == b] on decoded values. *)
Fixpoint py_eq (a b : json) {struct a} : bool :=
  match a, b with
  | JNull, JNull => true
  | JStr s, JStr t => String.eqb s t
  | JArr l, JArr m =>
      (fix go (l m : list json) : bool :=
         match l, m with
         | [], [] => true
         | x :: l', y :: m' => py_eq x y && go l' m'
         | _, _ => false
         end) l m
  | JObj kv, JObj kw =>
      Nat.eqb (length kv) (length kw) &&
      (fix go (kv : list (string * json)) : bool :=
         match kv with
         | [] => true
         | (k, v) :: rest =>
             match dict_get kw k with
             | Some v' => py_eq v v'
             | None => false
             end && go rest
         end) kv
  | _, _ =>
      match num_of a, num_of b with
      | Some x, Some y => num_eqb x y
      | _, _ => false
      end
  end.

(** Lists and dicts cannot be dict keys. *)
Definition hashable (v : json) : bool :=
  match v with
  | JArr _ | JObj _ => false
  | _ => true
  end.

(** [s[:n]] and [s[n:]]. *)
Fixpoint str_take (n : nat) (s : string) : string :=
  match n, s with
  | S n', String c s' => String c (str_take n' s')
  | _, _ => ""
  end.

Fixpoint str_drop (n : nat) (s : string) : string :=
  match n, s with
  | S n', String _ s' => str_drop n' s'
  | _, _ => s
  end.

(** [s.startswith(p)]. *)
Fixpoint startswith (s p : string) : bool :=
  match p, s with
  | "", _ => true
  | String a p', String b s' => Ascii.eqb a b && startswith s' p'
  | _, _ => false
  end.

(** [s.split(" ")]: never empty, empty fields are kept. *)
Fixpoint split_on (sep : Ascii.ascii) (s : string) : list string :=
  match s with
  | "" => [""]
  | String c s' =>
      if Ascii.eqb c sep then "" :: split_on sep s'
      else match split_on sep s' with
           | w :: ws => String c w :: ws
           | [] => [String c ""]
           end
  end.

(** [s.encode('utf-8')] for Latin-1 text. *)
Fixpoint utf8_encode (s : string) : string :=
  match s with
  | "" => ""
  | String c rest =>
      let n := N_of_ascii c in
      if (n <? 128)%N then String c (utf8_encode rest)
      else String (ascii_of_N (192 + n / 64))
             (String (ascii_of_N (128 + n mod 64)) (utf8_encode rest))
  end.

(** ** Exceptions and outcomes *)

Inductive exn : Type :=
| JSONDecodeError
| KeyError (key : string)
| TypeError (what : string)
| AttributeError (what : string)
| NameError (name : string)
| ConnectionError
| BadAPIResponse (msg : string)
| AlreadyAuthenticated (msg : string)
| ChatAlreadyActive (msg : string)
| ChatNotActive (msg : string)
| AppError (tag : string).

Inductive result (A : Type) : Type :=
| Ok (a : A)
| Raise (e : exn).
Arguments Ok {A} a.
Arguments Raise {A} e.

(** [v[k]] with a string key. *)
Definition subscript (v : json) (k : string) : result json :=
  match v with
  | JObj items =>
      match dict_get items k with
      | Some x => Ok x
      | None => Raise (KeyError k)
      end
  | JArr _ => Raise (TypeError "list indices must be integers or slices, not str")
  | JStr _ => Raise (TypeError "string indices must be integers")
  | _ => Raise (TypeError "object is not subscriptable")
  end.

(** [v.get(k, None)]. *)
Definition dict_method_get (v : json) (k : string) : result json :=
  match v with
  | JObj items => Ok (default JNull (dict_get items k))
  | _ => Raise (AttributeError "get")
  end.

(** ** Objects built by the handler

    [ifunny.objects] is not among the sources; its classes are used here
    only as constructors, so each object is the record of the arguments it
    was built from (the client reference, which is always the one client,
    is left out). *)

Record Channel : Type := mkChannel { channel_url : json }.

Record User : Type := mkUser { user_id : json }.

Record ChannelInvite : Type := mkChannelInvite { invite_update : json }.

(** [invoked] is the attribute [_on_message] assigns after construction. *)
Record Message : Type := mkMessage {
  message_id : json;
  message_channel_url : json;
  message_data : json;
  invoked : option json
}.

Definition set_invoked (m : Message) (v : json) : Message :=
  {| message_id := message_id m;
     message_channel_url := message_channel_url m;
     message_data := message_data m;
     invoked := Some v |}.

(** Positional arguments of a call into application code. *)
Inductive arg : Type :=
| AJson (j : json)
| AMessage (m : Message)
| AChannel (c : Channel)
| AUser (u : User)
| AInvite (i : ChannelInvite)
| ATuple (l : list arg).

(** An application function: its [__name__], its [__doc__], and whether a
    call returns (with which value) or raises. *)
Record Method : Type := mkMethod {
  meth_name : string;
  meth_doc : option string;
  meth_run : list arg -> result json
}.

(** [class Event] of [_handler.py]. *)
Record Event : Type := mkEvent {
  ev_method : Method;
  ev_name : string;
  ev_help : option string
}.

Definition Event_init (method : Method) (name : string) : Event :=
  {| ev_method := method; ev_name := name; ev_help := meth_doc method |}.

(** What [Handler.events] holds: [Handler.add] stores the function as it
    is, [Client.event] stores an [Event] around it. *)
Inductive Hook : Type :=
| HFunction (m : Method)
| HEvent (e : Event).

(** What [Client.commands] holds: [Defaults.help] from the class body and
    the [Command] objects stored by [Client.command]. *)
Inductive CommandEntry : Type :=
| DefaultsHelp
| CommandObj (method : Method) (name : string).

Record Response : Type := mkResponse {
  status_code : Z;
  resp_url : string;
  resp_text : string;
  resp_json : option json
}.

(** ** Effects on collaborators *)

Inductive effect : Type :=
| Called (h : Hook) (args : list arg)
| CommandCalled (c : option CommandEntry) (m : Message) (words : list string)
| SocketSend (frame : string)
| HttpGet (url : string) (headers : list (string * string))
| HttpPost (url : string) (headers : list (string * string))
           (data : list (string * string))
| Sleep (seconds : Z)
| ConfigWritten (cfg : gmap string json)
| HttpGetParams (url : string) (params headers : list (string * json))
| HttpPostFiles (url : string) (headers data : list (string * json))
                (files : list (string * string)).

(** ** The state a method can reach

    [events] is [Handler.events]; [socket_connected] is
    [client.socket.connected]; the other fields up to [config] are the
    attributes of [Client], [prefix] being the strings that iterating
    over the [prefix] property gives, in the order it gives them.
    [clock_ms] is what [int(time() * 1000)] reads,
    [responses] the replies the HTTP server will give, in order, and
    [urandom_hex] what [os.urandom(36).hex().upper()] will give. *)
Record World : Type := mkWorld {
  events : gmap string Hook;
  prefix : list string;
  commands : gmap string CommandEntry;
  authenticated : bool;
  token : json;
  client_id : json;
  client_user : option User;
  sendbird_session_key : json;
  sendbird_req_id : Z;
  update_flag : bool;
  account_data_payload : option json;
  config : gmap string json;
  socket_connected : bool;
  clock_ms : Z;
  responses : list Response;
  urandom_hex : string;
  log : list effect
}.

Definition with_events (v : gmap string Hook) (w : World) : World :=
  mkWorld v (prefix w) (commands w) (authenticated w) (token w) (client_id w)
    (client_user w) (sendbird_session_key w) (sendbird_req_id w)
    (update_flag w) (account_data_payload w) (config w) (socket_connected w)
    (clock_ms w) (responses w) (urandom_hex w) (log w).

Definition with_commands (v : gmap string CommandEntry) (w : World) : World :=
  mkWorld (events w) (prefix w) v (authenticated w) (token w) (client_id w)
    (client_user w) (sendbird_session_key w) (sendbird_req_id w)
    (update_flag w) (account_data_payload w) (config w) (socket_connected w)
    (clock_ms w) (responses w) (urandom_hex w) (log w).

Definition with_authenticated (v : bool) (w : World) : World :=
  mkWorld (events w) (prefix w) (commands w) v (token w) (client_id w)
    (client_user w) (sendbird_session_key w) (sendbird_req_id w)
    (update_flag w) (account_data_payload w) (config w) (socket_connected w)
    (clock_ms w) (responses w) (urandom_hex w) (log w).

Definition with_token (v : json) (w : World) : World :=
  mkWorld (events w) (prefix w) (commands w) (authenticated w) v (client_id w)
    (client_user w) (sendbird_session_key w) (sendbird_req_id w)
    (update_flag w) (account_data_payload w) (config w) (socket_connected w)
    (clock_ms w) (responses w) (urandom_hex w) (log w).

Definition with_client_id (v : json) (w : World) : World :=
  mkWorld (events w) (prefix w) (commands w) (authenticated w) (token w) v
    (client_user w) (sendbird_session_key w) (sendbird_req_id w)
    (update_flag w) (account_data_payload w) (config w) (socket_connected w)
    (clock_ms w) (responses w) (urandom_hex w) (log w).

Definition with_client_user (v : option User) (w : World) : World :=
  mkWorld (events w) (prefix w) (commands w) (authenticated w) (token w)
    (client_id w) v (sendbird_session_key w) (sendbird_req_id w)
    (update_flag w) (account_data_payload w) (config w) (socket_connected w)
    (clock_ms w) (responses w) (urandom_hex w) (log w).

Definition with_session_key (v : json) (w : World) : World :=
  mkWorld (events w) (prefix w) (commands w) (authenticated w) (token w)
    (client_id w) (client_user w) v (sendbird_req_id w)
    (update_flag w) (account_data_payload w) (config w) (socket_connected w)
    (clock_ms w) (responses w) (urandom_hex w) (log w).

Definition with_req_id (v : Z) (w : World) : World :=
  mkWorld (events w) (prefix w) (commands w) (authenticated w) (token w)
    (client_id w) (client_user w) (sendbird_session_key w) v
    (update_flag w) (account_data_payload w) (config w) (socket_connected w)
    (clock_ms w) (responses w) (urandom_hex w) (log w).

Definition with_update_flag (v : bool) (w : World) : World :=
  mkWorld (events w) (prefix w) (commands w) (authenticated w) (token w)
    (client_id w) (client_user w) (sendbird_session_key w) (sendbird_req_id w)
    v (account_data_payload w) (config w) (socket_connected w)
    (clock_ms w) (responses w) (urandom_hex w) (log w).

Definition with_account_data (v : option json) (w : World) : World :=
  mkWorld (events w) (prefix w) (commands w) (authenticated w) (token w)
    (client_id w) (client_user w) (sendbird_session_key w) (sendbird_req_id w)
    (update_flag w) v (config w) (socket_connected w)
    (clock_ms w) (responses w) (urandom_hex w) (log w).

Definition with_config (v : gmap string json) (w : World) : World :=
  mkWorld (events w) (prefix w) (commands w) (authenticated w) (token w)
    (client_id w) (client_user w) (sendbird_session_key w) (sendbird_req_id w)
    (update_flag w) (account_data_payload w) v (socket_connected w)
    (clock_ms w) (responses w) (urandom_hex w) (log w).

Definition with_socket_connected (v : bool) (w : World) : World :=
  mkWorld (events w) (prefix w) (commands w) (authenticated w) (token w)
    (client_id w) (client_user w) (sendbird_session_key w) (sendbird_req_id w)
    (update_flag w) (account_data_payload w) (config w) v
    (clock_ms w) (responses w) (urandom_hex w) (log w).

Definition with_responses (v : list Response) (w : World) : World :=
  mkWorld (events w) (prefix w) (commands w) (authenticated w) (token w)
    (client_id w) (client_user w) (sendbird_session_key w) (sendbird_req_id w)
    (update_flag w) (account_data_payload w) (config w) (socket_connected w)
    (clock_ms w) v (urandom_hex w) (log w).

Definition with_log (v : list effect) (w : World) : World :=
  mkWorld (events w) (prefix w) (commands w) (authenticated w) (token w)
    (client_id w) (client_user w) (sendbird_session_key w) (sendbird_req_id w)
    (update_flag w) (account_data_payload w) (config w) (socket_connected w)
    (clock_ms w) (responses w) (urandom_hex w) v.

(** ** Computations *)

Definition M (A : Type) : Type := World -> result A * World.

Definition ret {A} (a : A) : M A := fun w => (Ok a, w).

Definition raise {A} (e : exn) : M A := fun w => (Raise e, w).

Definition bind {A B} (m : M A) (k : A -> M B) : M B :=
  fun w =>
    match m w with
    | (Ok a, w') => k a w'
    | (Raise e, w') => (Raise e, w')
    end.

Declare Scope py_scope.
Delimit Scope py_scope with py.
Notation "x <- m ;; k" := (bind m (fun x => k))
  (at level 100, m at next level, right associativity) : py_scope.
Notation "m ;; k" := (bind m (fun _ => k))
  (at level 100, right associativity) : py_scope.
Local Open Scope py_scope.

Definition gets {A} (f : World -> A) : M A := fun w => (Ok (f w), w).

Definition modify (f : World -> World) : M unit := fun w => (Ok tt, f w).

Definition lift {A} (r : result A) : M A := fun w => (r, w).

Definition emit (e : effect) : M unit :=
  modify (fun w => with_log (log w ++ [e]) w).

(** ** Collaborators

    The standard library functions the code calls and the classes of this
    package that are not among the sources: [json.loads] ([None] when it
    raises), [json.dumps], [str] on a value that is not a string, [sha1]
    with [hexdigest], [b64encode]; the [content] property of [Message];
    the membership test of a user in [ChannelInvite.invitees]; calling a
    [Command] object, [Defaults.help] and [Defaults.default]. *)
Class Externals : Type := {
  json_loads : string -> option json;
  json_dumps : json -> string;
  builtin_str : json -> string;
  sha1_hexdigest : string -> string;
  b64encode : string -> string;
  Message_content : Message -> result string;
  invitees_contain : ChannelInvite -> User -> result bool;
  Command_call : Method -> string -> Message -> list string -> result json;
  Defaults_help : Message -> list string -> result json;
  Defaults_default : Message -> list string -> result json
}.

(** Names bound at module level in [_handler.py] and in [_client.py]: the
    imports and the classes defined there. *)
Definition handler_globals : list string :=
  ["json"; "requests"; "time"; "User"; "Message"; "ChannelInvite"; "Channel";
   "Handler"; "Event"].

Definition client_globals : list string :=
  ["json"; "os"; "threading"; "time"; "requests"; "random"; "sha1";
   "b64encode"; "import_module"; "Path"; "Handler"; "Event"; "Command";
   "Defaults"; "Socket"; "User"; "Channel"; "Notification";
   "paginated_format"; "paginated_data"; "paginated_generator";
   "ChatAlreadyActive"; "BadAPIResponse"; "ChatNotActive"; "Client"].

(** Reading a name that is neither local nor an attribute. *)
Definition load_global (globals : list string) (name : string) : M unit :=
  if bool_decide (name ∈ globals) then ret tt else raise (NameError name).

Definition api : string := "https://api.ifunny.mobi/v4".
Definition client_id_const : string := "MsOIJ39Q28".
Definition client_secret : string := "PTDc3H8a)Vi=UYap".
Definition user_agent : string :=
  "iFunny/5.38.1(1117733) Android/9 (OnePlus; ONEPLUS A6013; OnePlus)".

Section Code.
Context `{Externals}.

(** What an f-string puts for [{v}]. *)
Definition py_str (v : json) : string :=
  match v with
  | JStr s => s
  | _ => builtin_str v
  end.

(** *** Calls into application code *)

(** Calling an entry of [Handler.events]; [Event.__call__] calls the
    wrapped method.  The value returned is dropped by every caller. *)
Definition call_hook (h : Hook) (args : list arg) : M unit :=
  emit (Called h args) ;;
  match h with
  | HFunction m => _ <- lift (meth_run m args) ;; ret tt
  | HEvent e => _ <- lift (meth_run (ev_method e) args) ;; ret tt
  end.

Definition _default_event (args : list arg) : M unit :=
  ev <- gets events ;;
  match ev !! "on_default" with
  | Some exec => call_hook exec [ATuple args]
  | None => ret tt
  end.

Definition get_ev (key : string) : M (list arg -> M unit) :=
  ev <- gets events ;;
  ret (match ev !! key with
       | Some h => call_hook h
       | None => _default_event
       end).

Definition _default_match (key : string) (data : json) : M unit := ret tt.

(** *** HTTP *)

Definition requests_get (url : string) (hs : list (string * string))
  : M Response :=
  emit (HttpGet url hs) ;;
  rs <- gets responses ;;
  match rs with
  | r :: rest => modify (with_responses rest) ;; ret r
  | [] => raise ConnectionError
  end.

Definition requests_post (url : string) (hs data : list (string * string))
  : M Response :=
  emit (HttpPost url hs data) ;;
  rs <- gets responses ;;
  match rs with
  | r :: rest => modify (with_responses rest) ;; ret r
  | [] => raise ConnectionError
  end.

Definition response_json (r : Response) : M json :=
  match resp_json r with
  | Some j => ret j
  | None => raise JSONDecodeError
  end.

(** *** Client properties *)

Definition headers : M (list (string * string)) :=
  t <- gets token ;;
  ret (("User-Agent", user_agent) ::
       (if py_truthy t then [("Authorization", "Bearer " +:+ py_str t)]
        else [])).

Definition __account_data : M json :=
  u <- gets update_flag ;;
  p <- gets account_data_payload ;;
  (if u || (match p with None | Some JNull => true | Some _ => false end) then
     modify (with_update_flag false) ;;
     hs <- headers ;;
     r <- requests_get (api +:+ "/account") hs ;;
     j <- response_json r ;;
     d <- lift (subscript j "data") ;;
     modify (with_account_data (Some d))
   else ret tt) ;;
  p <- gets account_data_payload ;;
  ret (default JNull p).

Definition _get_prop (key : string) (force : bool) : M json :=
  d <- __account_data ;;
  v <- lift (dict_method_get d key) ;;
  (if negb (py_truthy v) || force then modify (with_update_flag true)
   else ret tt) ;;
  d <- __account_data ;;
  lift (dict_method_get d key).

Definition nick : M json := _get_prop "nick" false.

Definition id : M json :=
  i <- gets client_id ;;
  (if negb (py_truthy i) then
     v <- _get_prop "id" false ;; modify (with_client_id v)
   else ret tt) ;;
  gets client_id.

Definition user : M User :=
  u <- gets client_user ;;
  match u with
  | Some usr => ret usr
  | None =>
      i <- id ;;
      modify (with_client_user (Some (mkUser i))) ;;
      ret (mkUser i)
  end.

Definition __update_config : M unit :=
  c <- gets config ;;
  emit (ConfigWritten c).

Definition __login_token : M json :=
  c <- gets config ;;
  if py_truthy (default JNull (c !! "login_token")) then
    ret (default JNull (c !! "login_token"))
  else
    hex_string <- gets urandom_hex ;;
    let hex_id := hex_string +:+ "_" +:+ client_id_const in
    let hash_decoded :=
      hex_string +:+ ":" +:+ client_id_const +:+ ":" +:+ client_secret in
    let hash_encoded := sha1_hexdigest (utf8_encode hash_decoded) in
    let tok :=
      JStr (b64encode (utf8_encode (hex_id +:+ ":" +:+ hash_encoded))) in
    modify (fun w => with_config (<["login_token" := tok]> (config w)) w) ;;
    __update_config ;;
    ret tok.

(** *** Commands *)

Definition call_command (name : string) (message : Message)
  (args : list string) : M json :=
  cmds <- gets commands ;;
  let target := cmds !! name in
  emit (CommandCalled target message args) ;;
  lift (match target with
        | Some DefaultsHelp => Defaults_help message args
        | Some (CommandObj m n) => Command_call m n message args
        | None => Defaults_default message args
        end).

Fixpoint resolve_command_loop (prefixes : list string) (first : string)
  (message : Message) (args : list string) : M json :=
  match prefixes with
  | [] => ret JNull
  | p :: rest =>
      if startswith first p then
        call_command (str_drop (String.length p) first) message args
      else resolve_command_loop rest first message args
  end.

Definition resolve_command (message : Message) : M json :=
  content <- lift (Message_content message) ;;
  let parsed := split_on " "%char content in
  let first := hd "" parsed in
  let args := tl parsed in
  ps <- gets prefix ;;
  resolve_command_loop ps first message args.

(** *** The handler's private hooks *)

Definition _on_disconnect : M unit :=
  f <- get_ev "on_disconnect" ;;
  f [].

Definition _on_message (key : string) (data : json) : M unit :=
  sender <- lift (subscript data "user") ;;
  name <- lift (subscript sender "name") ;;
  own <- nick ;;
  if py_eq name own then ret tt
  else
    msg_id <- lift (subscript data "msg_id") ;;
    url <- lift (subscript data "channel_url") ;;
    let message := mkMessage msg_id url data None in
    inv <- resolve_command message ;;
    let message := set_invoked message inv in
    f <- get_ev "on_message" ;;
    f [AMessage message].

Definition _on_connect (key : string) (data : json) : M unit :=
  k <- lift (subscript data "key") ;;
  modify (with_session_key k) ;;
  modify (with_socket_connected true) ;;
  f <- get_ev "on_connect" ;;
  f [AJson data].

Definition socket_send (frame : string) : M unit := emit (SocketSend frame).

Definition _on_ping (key : string) (data : json) : M unit :=
  f <- get_ev "on_ping" ;;
  f [AJson data] ;;
  timestamp <- gets clock_ms ;;
  ident <- lift (subscript data "id") ;;
  let data :=
    json_dumps (JObj [("id", ident); ("ts", JInt timestamp);
                      ("sts", JInt timestamp)]) in
  load_global handler_globals "client" ;;
  socket_send ("PONG" +:+ data +:+ String "010"%char "").

Definition _on_invite (update : json) : M unit :=
  let invite := mkChannelInvite update in
  me <- user ;;
  invited <- lift (invitees_contain invite me) ;;
  if invited : bool then
    f <- get_ev "on_invite" ;;
    f [AInvite invite]
  else
    f <- get_ev "on_invite_broadcast" ;;
    f [AInvite invite].

Definition _on_user_exit (data : json) : M unit :=
  url <- lift (subscript data "channel_url") ;;
  let channel := mkChannel url in
  d <- lift (subscript data "data") ;;
  uid <- lift (subscript d "user_id") ;;
  let usr := mkUser uid in
  f <- get_ev "on_user_exit" ;;
  f [AUser usr; AChannel channel].

Definition _on_user_join (data : json) : M unit :=
  url <- lift (subscript data "channel_url") ;;
  let channel := mkChannel url in
  d <- lift (subscript data "data") ;;
  uid <- lift (subscript d "user_id") ;;
  let usr := mkUser uid in
  f <- get_ev "on_user_join" ;;
  f [AUser usr; AChannel channel].

Definition channel_update_codes : list (Z * (json -> M unit)) :=
  [(10020, _on_invite); (10001, _on_user_exit); (10000, _on_user_join)].

(** [self.channel_update_codes.get(cat, self._default_event)]: a key
    matches when it hashes and compares equal to [cat]. *)
Definition channel_update_codes_get (cat : json) : M (json -> M unit) :=
  if hashable cat then
    ret (match find (fun e => py_eq cat (JInt (fst e))) channel_update_codes with
         | Some e => snd e
         | None => fun data => _default_event [AJson data]
         end)
  else raise (TypeError "unhashable type").

Definition _on_channel_update (key : string) (data : json) : M unit :=
  url <- lift (subscript data "channel_url") ;;
  let channel := mkChannel url in
  cat <- lift (subscript data "cat") ;;
  sub <- channel_update_codes_get cat ;;
  sub data ;;
  f <- get_ev "on_channel_update" ;;
  f [AChannel channel].

Definition matches : list (string * (string -> json -> M unit)) :=
  [("PING", _on_ping); ("MESG", _on_message); ("LOGI", _on_connect);
   ("SYEV", _on_channel_update)].

Definition matches_get (key : string) : string -> json -> M unit :=
  match find (fun e => String.eqb (fst e) key) matches with
  | Some e => snd e
  | None => _default_match
  end.

Definition resolve (data : string) : M unit :=
  let key := str_take 4 data in
  match json_loads (str_drop 4 data) with
  | None => raise JSONDecodeError
  | Some payload => matches_get key key payload
  end.

(** *** Registration decorators

    Each is the [_inner] closure for a given [name]; what it returns is
    what the decorated name gets bound to. *)

(** A binding in the namespace where a decorator is applied. *)
Inductive binding : Type :=
| BNone
| BFunction (m : Method).

Definition pick_name (name : option string) (method : Method) : string :=
  match name with
  | Some n => if String.eqb n "" then meth_name method else n
  | None => meth_name method
  end.

Definition Handler_add (name : option string) (method : Method) : M binding :=
  let _name := pick_name name method in
  modify (fun w => with_events (<[_name := HFunction method]> (events w)) w) ;;
  ret BNone.

Definition Client_command (name : option string) (method : Method)
  : M binding :=
  let _name := pick_name name method in
  modify (fun w =>
            with_commands (<[_name := CommandObj method _name]> (commands w)) w) ;;
  ret BNone.

Definition Client_event (name : option string) (method : Method) : M binding :=
  let _name := pick_name name method in
  modify (fun w =>
            with_events (<[_name := HEvent (Event_init method _name)]> (events w))
              w) ;;
  ret BNone.

(** [@decorator def f(...): ...] builds the function, calls the decorator
    on it and binds the function's name to what the call returned. *)
Definition decorated (decorator : Method -> M binding) (method : Method)
  (namespace : gmap string binding) : M (gmap string binding) :=
  b <- decorator method ;;
  ret (<[meth_name method := b]> namespace).

(** *** Login *)

Definition time_sleep (seconds : Z) : M unit := emit (Sleep seconds).

(** Lines 245-249 of [_client.py]: the token request and its retry. *)
Definition token_request (hs data : list (string * string)) : M Response :=
  response <- requests_post (api +:+ "/oauth2/token") hs data ;;
  if status_code response =? 403 then
    time_sleep 10 ;;
    requests_post (api +:+ "/oauth2/token") hs data
  else ret response.

(** Lines 251-259: the reply is checked and the token stored. *)
Definition accept_token (email : string) (response : Response) : M unit :=
  if negb (status_code response =? 200) then
    raise (BadAPIResponse (resp_url response +:+ ", " +:+ resp_text response))
  else
    body <- response_json response ;;
    tok <- lift (subscript body "access_token") ;;
    modify (with_token tok) ;;
    modify (with_authenticated true) ;;
    modify (fun w => with_config (<[email +:+ "_token" := token w]> (config w)) w) ;;
    __update_config.

(** Lines 235-259: the password grant. *)
Definition password_grant (email password : string) : M unit :=
  login_token <- __login_token ;;
  let hs := [("Authorization", "Basic " +:+ py_str login_token)] in
  let data := [("grant_type", "password"); ("username", email);
               ("password", password)] in
  response <- token_request hs data ;;
  accept_token email response.

Definition login (email password : string) (force : bool) : M unit :=
  a <- gets authenticated ;;
  if a : bool then
    load_global client_globals "AlreadyAuthenticated" ;;
    n <- nick ;;
    raise (AlreadyAuthenticated
             ("This client instance already authenticated as " +:+ py_str n))
  else
    c <- gets config ;;
    let cached := default JNull (c !! (email +:+ "_token")) in
    if negb force && py_truthy cached then
      modify (with_token cached) ;;
      hs <- headers ;;
      response <- requests_get (api +:+ "/account") hs ;;
      if status_code response =? 200 then modify (with_authenticated true)
      else password_grant email password
    else password_grant email password.

(** *** Request ids, one caller at a time *)

Definition next_req_id : M Z :=
  modify (fun w => with_req_id (sendbird_req_id w + 1) w) ;;
  gets sendbird_req_id.

End Code.

(** ** More of the client *)

Section ClientMore.
Context `{Externals}.

(** The [sendbird_headers] property. *)
Definition sendbird_headers : M (list (string * json)) :=
  k <- gets sendbird_session_key ;;
  ret (("User-Agent", JStr "jand/3.096") ::
       (if py_truthy k then [("Session-Key", k)] else [])).

(** The [fresh] property, which gives the client back. *)
Definition Client_fresh : M unit := modify (with_update_flag true).

(** The [channels] property.  What it returns is a generator that has
    not run yet, so nothing else happens here. *)
Definition channels : M unit :=
  k <- gets sendbird_session_key ;;
  if negb (py_truthy k) then
    raise (ChatNotActive
             "Chat must be started at least once to get a session key")
  else ret tt.

(** *** The other requests of [_client.py] *)

Definition sendbird_api : string := "https://api-us-1.sendbird.com/v3".

(** [requests.get(url, params = params, headers = headers)]. *)
Definition requests_get_params (url : string)
  (params hs : list (string * json)) : M Response :=
  emit (HttpGetParams url params hs) ;;
  rs <- gets responses ;;
  match rs with
  | r :: rest => modify (with_responses rest) ;; ret r
  | [] => raise ConnectionError
  end.

(** [requests.post(url, headers = headers, data = data, files = files)]. *)
Definition requests_post_files (url : string) (hs data : list (string * json))
  (files : list (string * string)) : M Response :=
  emit (HttpPostFiles url hs data files) ;;
  rs <- gets responses ;;
  match rs with
  | r :: rest => modify (with_responses rest) ;; ret r
  | [] => raise ConnectionError
  end.

(** The [unread_notifications_count] property. *)
Definition unread_notifications_count : M json :=
  hs <- headers ;;
  response <- requests_get (api +:+ "/counters") hs ;;
  body <- response_json response ;;
  d <- lift (subscript body "data") ;;
  lift (subscript d "news").

(** [post_image], with [tags] a list of strings as its docstring says. *)
Definition post_image (image_data : string) (tags : list string)
  (visibility : string) : M bool :=
  let data := [("type", JStr "pic");
               ("tags", JStr (json_dumps (JArr (map JStr tags))));
               ("visibility", JStr visibility)] in
  let files := [("image", image_data)] in
  hs <- headers ;;
  response <- requests_post_files (api +:+ "/content")
                (map (fun kv => (fst kv, JStr (snd kv))) hs) data files ;;
  ret (status_code response =? 202).

(** [post_image_url]; the body of the reply is what [content] gives. *)
Definition post_image_url (image_url : string) (tags : list string)
  (visibility : string) : M bool :=
  response <- requests_get image_url [] ;;
  let image_data := resp_text response in
  post_image image_data tags visibility.

Definition sendbird_upload (channel : Channel) (file_data : string) : M json :=
  let files := [("file", file_data)] in
  let data := [("thumbnail1", JStr "780, 780"); ("thumbnail2", JStr "320,320");
               ("channel_url", channel_url channel)] in
  hs <- sendbird_headers ;;
  response <- requests_post_files (sendbird_api +:+ "/storage/file") hs data
                files ;;
  if negb (status_code response =? 200) then
    raise (BadAPIResponse (resp_url response +:+ ", " +:+ resp_text response))
  else
    body <- response_json response ;;
    lift (subscript body "url").

(** What a [for] loop over a decoded JSON value goes through. *)
Definition py_iter (v : json) : result (list json) :=
  match v with
  | JArr l => Ok l
  | JObj items => Ok (map (fun kv => JStr (fst kv)) items)
  | JStr s => Ok (map (fun c => JStr (String c "")) (list_ascii_of_string s))
  | _ => Raise (TypeError "object is not iterable")
  end.

(** The list comprehension of [_channels_paginated]: each channel with
    the [data] it was built from. *)
Fixpoint channel_items (l : list json) : result (list (Channel * json)) :=
  match l with
  | [] => Ok []
  | data :: rest =>
      match subscript data "channel_url" with
      | Raise e => Raise e
      | Ok url =>
          match channel_items rest with
          | Raise e => Raise e
          | Ok items => Ok ((mkChannel url, data) :: items)
          end
      end
  end.

(** [_channels_paginated]; what it returns is the value under
    ["paging"] and the list under ["items"]. *)
Definition _channels_paginated (limit : Z)
  (next prev show_empty show_read_recipt show_member public_mode super_mode
     distinct_mode member_state_filter order : json)
  : M (json * list (Channel * json)) :=
  let limit := Z.min limit 100 in
  let params := [("limit", JInt limit); ("token", next);
                 ("show_empty", show_empty);
                 ("show_read_recipt", show_read_recipt);
                 ("show_member", show_member); ("public_mode", public_mode);
                 ("super_mode", super_mode); ("distinct_mode", distinct_mode);
                 ("member_state_filter", member_state_filter);
                 ("order", order)] in
  i <- id ;;
  let url := sendbird_api +:+ "/users/" +:+ py_str i +:+ "/my_group_channels" in
  hs <- sendbird_headers ;;
  response <- requests_get_params url params hs ;;
  if negb (status_code response =? 200) then
    raise (BadAPIResponse (resp_url response +:+ ", " +:+ resp_text response))
  else
    response <- response_json response ;;
    nxt <- lift (subscript response "next") ;;
    let paging := JObj [("next", nxt)] in
    chans <- lift (subscript response "channels") ;;
    l <- lift (py_iter chans) ;;
    items <- lift (channel_items l) ;;
    ret (paging, items).

(** [next_req_id] read [n] times in a row by one caller. *)
Fixpoint next_req_ids (n : nat) : M (list Z) :=
  match n with
  | O => ret []
  | S n' =>
      i <- next_req_id ;;
      rest <- next_req_ids n' ;;
      ret (i :: rest)
  end.

End ClientMore.

(** ** Request ids under concurrent callers

    [next_req_id] is four steps for a thread: acquire the lock, add one to
    the counter, release the lock, read the counter for the value to
    return.  The scheduler may switch threads between any two steps; a
    thread waiting for the lock cannot step. *)
Module Threads.

Inductive pc : Type :=
| AtAcquire
| AtIncrement
| AtRelease
| AtReturn
| Returned (value : Z).

Record shared : Type := mkShared {
  lock_held : bool;
  req_id : Z
}.

Definition step_thread (p : pc) (s : shared) : option (pc * shared) :=
  match p with
  | AtAcquire =>
      if lock_held s then None
      else Some (AtIncrement, mkShared true (req_id s))
  | AtIncrement => Some (AtRelease, mkShared (lock_held s) (req_id s + 1))
  | AtRelease => Some (AtReturn, mkShared false (req_id s))
  | AtReturn => Some (Returned (req_id s), s)
  | Returned _ => None
  end.

(** Thread [i] takes one step. *)
Definition step (i : nat) (c : list pc * shared) : option (list pc * shared) :=
  match fst c !! i with
  | Some p =>
      match step_thread p (snd c) with
      | Some (p', s') => Some (<[i := p']> (fst c), s')
      | None => None
      end
  | None => None
  end.

Fixpoint run (schedule : list nat) (c : list pc * shared)
  : option (list pc * shared) :=
  match schedule with
  | [] => Some c
  | i :: rest =>
      match step i c with
      | Some c' => run rest c'
      | None => None
      end
  end.

(** [n] callers about to call [next_req_id]. *)
Definition start (n : nat) (seed : Z) : list pc * shared :=
  (replicate n AtAcquire, mkShared false seed).

Definition returned_values (c : list pc * shared) : list Z :=
  omap (fun p => match p with Returned v => Some v | _ => None end) (fst c).

End Threads.

(** ** Request ids, one bytecode at a time

    [self.__sendbird_req_id += 1] is a read of the attribute, an addition
    and a write of the attribute, and the scheduler may switch threads
    between the read and the write as well: [AtLoad] reads the counter
    into the thread, [AtStore] writes what was read plus one. *)
Module Bytecode.

Inductive pc : Type :=
| AtAcquire
| AtLoad
| AtStore (loaded : Z)
| AtRelease
| AtReturn
| Returned (value : Z).

Record shared : Type := mkShared {
  lock_held : bool;
  req_id : Z
}.

Definition step_thread (p : pc) (s : shared) : option (pc * shared) :=
  match p with
  | AtAcquire =>
      if lock_held s then None
      else Some (AtLoad, mkShared true (req_id s))
  | AtLoad => Some (AtStore (req_id s), s)
  | AtStore loaded => Some (AtRelease, mkShared (lock_held s) (loaded + 1))
  | AtRelease => Some (AtReturn, mkShared false (req_id s))
  | AtReturn => Some (Returned (req_id s), s)
  | Returned _ => None
  end.

(** Thread [i] takes one step. *)
Definition step (i : nat) (c : list pc * shared) : option (list pc * shared) :=
  match fst c !! i with
  | Some p =>
      match step_thread p (snd c) with
      | Some (p', s') => Some (<[i := p']> (fst c), s')
      | None => None
      end
  | None => None
  end.

Fixpoint run (schedule : list nat) (c : list pc * shared)
  : option (list pc * shared) :=
  match schedule with
  | [] => Some c
  | i :: rest =>
      match step i c with
      | Some c' => run rest c'
      | None => None
      end
  end.

(** [n] callers about to call [next_req_id]. *)
Definition start (n : nat) (seed : Z) : list pc * shared :=
  (replicate n AtAcquire, mkShared false seed).

Fixpoint total (f : pc -> Z) (ps : list pc) : Z :=
  match ps with
  | [] => 0
  | p :: rest => f p + total f rest
  end.

(** Whether a thread is between its acquire and its release, and
    whether it has written the counter, as counts. *)
Definition holding (p : pc) : Z :=
  match p with
  | AtLoad | AtStore _ | AtRelease => 1
  | _ => 0
  end.

Definition written (p : pc) : Z :=
  match p with
  | AtRelease | AtReturn | Returned _ => 1
  | _ => 0
  end.

Definition holders (c : list pc * shared) : Z := total holding (fst c).

Definition writes (c : list pc * shared) : Z := total written (fst c).

(** What holds at every point of every schedule: the lock is held
    exactly when one thread is between acquire and release, the counter
    is the seed plus the number of writes, and a thread about to write
    has read the counter as it is now. *)
Definition consistent (seed : Z) (c : list pc * shared) : Prop :=
  holders c = Z.b2z (lock_held (snd c)) /\
  req_id (snd c) = seed + writes c /\
  forall i loaded, fst c !! i = Some (AtStore loaded) -> loaded = req_id (snd c).

End Bytecode.

(** ** A JSON codec

    A decoder and an encoder in the manner of Python's [json] module with
    its default settings, used to run the code on concrete frames.  Text is
    Latin-1: a character is one [ascii]; an escape for a code point above
    255 is outside what the decoder reads. *)
Module Json.

Definition code (c : ascii) : Z := Z.of_N (N_of_ascii c).

Definition chr (n : Z) : ascii := ascii_of_N (Z.to_N n).

Definition is_ws (c : ascii) : bool :=
  let n := code c in (n =? 32) || (n =? 9) || (n =? 10) || (n =? 13).

Fixpoint skip_ws (s : string) : string :=
  match s with
  | String c rest => if is_ws c then skip_ws rest else s
  | "" => ""
  end.

Definition digit_of (c : ascii) : option Z :=
  let n := code c in
  if (48 <=? n) && (n <=? 57) then Some (n - 48) else None.

Definition hex_of (c : ascii) : option Z :=
  let n := code c in
  if (48 <=? n) && (n <=? 57) then Some (n - 48)
  else if (97 <=? n) && (n <=? 102) then Some (n - 87)
  else if (65 <=? n) && (n <=? 70) then Some (n - 55)
  else None.

(** The longest run of digits at the head of [s]: its value, its length
    and what follows. *)
Fixpoint read_digits (s : string) (acc : Z) (count : Z) : Z * Z * string :=
  match s with
  | String c rest =>
      match digit_of c with
      | Some d => read_digits rest (10 * acc + d) (count + 1)
      | None => (acc, count, s)
      end
  | "" => (acc, count, s)
  end.

(** *** Decimal to binary64, correctly rounded *)

Definition round_half_even (a b : Z) : Z :=
  let q := a / b in
  let r := a mod b in
  if 2 * r <? b then q
  else if b <? 2 * r then q + 1
  else if Z.even q then q else q + 1.

(** The double nearest to [p / q], for [0 < p] and [0 < q]. *)
Definition float_of_ratio (neg : bool) (p q : Z) : spec_float :=
  let scaled (e : Z) : Z * Z :=
    if 0 <=? e then (p, q * 2 ^ e) else (p * 2 ^ (- e), q) in
  let e0 := Z.log2 p - Z.log2 q - 52 in
  let e1 := if fst (scaled e0) / snd (scaled e0) <? 2 ^ 52 then e0 - 1 else e0 in
  let e2 := Z.max e1 (-1074) in
  let m := round_half_even (fst (scaled e2)) (snd (scaled e2)) in
  let '(m, e) := if m =? 2 ^ 53 then (2 ^ 52, e2 + 1) else (m, e2) in
  if m =? 0 then S754_zero neg
  else if 971 <? e then S754_infinity neg
  else S754_finite neg (Z.to_pos m) e.

Definition digits_count (m : Z) : Z :=
  if m =? 0 then 1 else Z.log2 m * 30103 / 100000 + 1.

(** The double nearest to [m * 10 ^ e10], for [0 <= m]. *)
Definition float_of_decimal (neg : bool) (m e10 : Z) : spec_float :=
  if m =? 0 then S754_zero neg
  else if 400 <? e10 + digits_count m then S754_infinity neg
  else if e10 + digits_count m <? -400 then S754_zero neg
  else if 0 <=? e10 then float_of_ratio neg (m * 10 ^ e10) 1
  else float_of_ratio neg m (10 ^ (- e10)).

(** *** Decoding *)

(** A number at the head of [s]: an optional minus sign, then a zero or
    a run of digits that does not start with zero, then optionally a dot
    with at least one digit, then optionally [e] or [E] with an optional
    sign and at least one digit.  With a fraction or an exponent the
    number is a float, without it is an int. *)
Definition parse_number (s : string) : option (json * string) :=
  let '(neg, s1) :=
    match s with
    | String "-"%char rest => (true, rest)
    | _ => (false, s)
    end in
  let int_part :=
    match s1 with
    | String "0"%char rest => Some (0, 1, rest)
    | _ => let '(v, n, rest) := read_digits s1 0 0 in
           if n =? 0 then None else Some (v, n, rest)
    end in
  match int_part with
  | None => None
  | Some (iv, _, s2) =>
      let '(fv, fn, s3) :=
        match s2 with
        | String "."%char rest =>
            let '(v, n, rest') := read_digits rest 0 0 in
            if n =? 0 then (0, 0, s2) else (v, n, rest')
        | _ => (0, 0, s2)
        end in
      let exp_part :=
        match s3 with
        | String c rest =>
            if (code c =? 101) || (code c =? 69) then
              let '(eneg, rest1) :=
                match rest with
                | String "-"%char r => (true, r)
                | String "+"%char r => (false, r)
                | _ => (false, rest)
                end in
              let '(v, n, rest2) := read_digits rest1 0 0 in
              if n =? 0 then None
              else Some (if eneg : bool then - v else v, rest2)
            else None
        | "" => None
        end in
      match exp_part with
      | Some (ev, s4) =>
          Some (JFloat (float_of_decimal neg (iv * 10 ^ fn + fv) (ev - fn)), s4)
      | None =>
          if fn =? 0 then Some (JInt (if neg then - iv else iv), s3)
          else Some (JFloat (float_of_decimal neg (iv * 10 ^ fn + fv) (- fn)), s3)
      end
  end.

(** The body of a string, after the opening quote. *)
Fixpoint parse_string (s : string) : option (string * string) :=
  match s with
  | "" => None
  | String c rest =>
      if code c =? 34 then Some ("", rest)
      else if code c <? 32 then None
      else if code c =? 92 then
        match rest with
        | String e rest' =>
            let plain (ch : Z) :=
              match parse_string rest' with
              | Some (body, tail) => Some (String (chr ch) body, tail)
              | None => None
              end in
            let k := code e in
            if k =? 34 then plain 34
            else if k =? 92 then plain 92
            else if k =? 47 then plain 47
            else if k =? 98 then plain 8
            else if k =? 102 then plain 12
            else if k =? 110 then plain 10
            else if k =? 114 then plain 13
            else if k =? 116 then plain 9
            else if k =? 117 then
              match rest' with
              | String h1 (String h2 (String h3 (String h4 rest''))) =>
                  match hex_of h1, hex_of h2, hex_of h3, hex_of h4 with
                  | Some a, Some b, Some c', Some d =>
                      let n := ((a * 16 + b) * 16 + c') * 16 + d in
                      if n <? 256 then
                        match parse_string rest'' with
                        | Some (body, tail) => Some (String (chr n) body, tail)
                        | None => None
                        end
                      else None
                  | _, _, _, _ => None
                  end
              | _ => None
              end
            else None
        | "" => None
        end
      else
        match parse_string rest with
        | Some (body, tail) => Some (String c body, tail)
        | None => None
        end
  end.

(** [d[k] = v] on a dict kept as its items: a key already there keeps
    its place. *)
Fixpoint dict_set (items : list (string * json)) (k : string) (v : json)
  : list (string * json) :=
  match items with
  | [] => [(k, v)]
  | (k', v') :: rest =>
      if String.eqb k' k then (k', v) :: rest
      else (k', v') :: dict_set rest k v
  end.

Definition strip_prefix (p s : string) : option string :=
  if startswith s p then Some (str_drop (String.length p) s) else None.

Fixpoint parse_value (fuel : nat) (s : string) : option (json * string) :=
  match fuel with
  | O => None
  | S fuel' =>
      match s with
      | String c rest =>
          if code c =? 34 then
            match parse_string rest with
            | Some (body, tail) => Some (JStr body, tail)
            | None => None
            end
          else if code c =? 123 then
            match skip_ws rest with
            | String c' rest' =>
                if code c' =? 125 then Some (JObj [], rest')
                else parse_members fuel' (skip_ws rest) []
            | "" => None
            end
          else if code c =? 91 then
            match skip_ws rest with
            | String c' rest' =>
                if code c' =? 93 then Some (JArr [], rest')
                else parse_elements fuel' (skip_ws rest) []
            | "" => None
            end
          else
            match strip_prefix "null" s, strip_prefix "true" s,
                  strip_prefix "false" s with
            | Some tail, _, _ => Some (JNull, tail)
            | _, Some tail, _ => Some (JBool true, tail)
            | _, _, Some tail => Some (JBool false, tail)
            | _, _, _ =>
                match parse_number s with
                | Some r => Some r
                | None =>
                    match strip_prefix "NaN" s, strip_prefix "Infinity" s,
                          strip_prefix "-Infinity" s with
                    | Some tail, _, _ => Some (JFloat S754_nan, tail)
                    | _, Some tail, _ => Some (JFloat (S754_infinity false), tail)
                    | _, _, Some tail => Some (JFloat (S754_infinity true), tail)
                    | _, _, _ => None
                    end
                end
            end
      | "" => None
      end
  end
with parse_elements (fuel : nat) (s : string) (acc : list json)
  : option (json * string) :=
  match fuel with
  | O => None
  | S fuel' =>
      match parse_value fuel' s with
      | Some (v, tail) =>
          match skip_ws tail with
          | String c rest =>
              if code c =? 93 then Some (JArr (acc ++ [v]), rest)
              else if code c =? 44 then
                parse_elements fuel' (skip_ws rest) (acc ++ [v])
              else None
          | "" => None
          end
      | None => None
      end
  end
with parse_members (fuel : nat) (s : string) (acc : list (string * json))
  : option (json * string) :=
  match fuel with
  | O => None
  | S fuel' =>
      match s with
      | String q rest =>
          if code q =? 34 then
            match parse_string rest with
            | Some (key, tail) =>
                match skip_ws tail with
                | String c rest1 =>
                    if code c =? 58 then
                      match parse_value fuel' (skip_ws rest1) with
                      | Some (v, tail1) =>
                          match skip_ws tail1 with
                          | String c' rest2 =>
                              if code c' =? 125 then
                                Some (JObj (dict_set acc key v), rest2)
                              else if code c' =? 44 then
                                parse_members fuel' (skip_ws rest2)
                                  (dict_set acc key v)
                              else None
                          | "" => None
                          end
                      | None => None
                      end
                    else None
                | "" => None
                end
            | None => None
            end
          else None
      | "" => None
      end
  end.

(** [json.loads]: one value between optional white space, nothing else. *)
Definition loads (s : string) : option json :=
  match parse_value (2 * String.length s + 2) (skip_ws s) with
  | Some (v, tail) =>
      match skip_ws tail with
      | "" => Some v
      | _ => None
      end
  | None => None
  end.

(** *** Encoding *)

Definition quote_char : string := String (chr 34) "".
Definition backslash : string := String (chr 92) "".

Fixpoint show_digits (fuel : nat) (n : Z) (acc : string) : string :=
  match fuel with
  | O => acc
  | S fuel' =>
      let acc' := String (chr (48 + n mod 10)) acc in
      if n <? 10 then acc' else show_digits fuel' (n / 10) acc'
  end.

(** Decimal digits of [0 <= n]. *)
Definition show_nat (n : Z) : string :=
  show_digits (S (Z.to_nat (Z.log2 n))) n "".

Definition show_int (z : Z) : string :=
  if z <? 0 then "-" +:+ show_nat (- z) else show_nat z.

Definition hex_digit (n : Z) : ascii :=
  chr (if n <? 10 then 48 + n else 87 + n).

Definition hex2 (n : Z) : string :=
  String (hex_digit (n / 16)) (String (hex_digit (n mod 16)) "").

(** One character of a string under [ensure_ascii]. *)
Definition escape_char (c : ascii) : string :=
  let n := code c in
  if n =? 34 then backslash +:+ quote_char
  else if n =? 92 then backslash +:+ backslash
  else if n =? 10 then backslash +:+ "n"
  else if n =? 13 then backslash +:+ "r"
  else if n =? 9 then backslash +:+ "t"
  else if n =? 8 then backslash +:+ "b"
  else if n =? 12 then backslash +:+ "f"
  else if (32 <=? n) && (n <=? 126) then String c ""
  else backslash +:+ "u00" +:+ hex2 n.

Fixpoint escape (s : string) : string :=
  match s with
  | "" => ""
  | String c rest => escape_char c +:+ escape rest
  end.

Definition quoted (s : string) : string := quote_char +:+ escape s +:+ quote_char.

(** [10 ^ d <= p / q]. *)
Definition pow10_le (d p q : Z) : bool :=
  if 0 <=? d then 10 ^ d * q <=? p else q <=? p * 10 ^ (- d).

(** The largest [d] with [10 ^ d <= p / q]. *)
Definition floor_log10 (p q : Z) : Z :=
  let est := (Z.log2 p - Z.log2 q) * 30103 / 100000 in
  default (est - 3)
    (find (fun d => pow10_le d p q)
          [est + 2; est + 1; est; est - 1; est - 2]).

Definition same_float (f g : spec_float) : bool :=
  match f, g with
  | S754_finite s m e, S754_finite s' m' e' =>
      Bool.eqb s s' && (Z.pos m =? Z.pos m') && (e =? e')
  | _, _ => false
  end.

(** The shortest decimal [m * 10 ^ s] that reads back as [f], nearest to
    [p / q], the value of [f], when two of a length do; [d10] is
    [floor_log10 p q] and [n] the number of digits tried first. *)
Fixpoint shortest (fuel : nat) (n : Z) (f : spec_float) (p q d10 : Z) : Z * Z :=
  match fuel with
  | O => (0, 0)
  | S fuel' =>
      let s := d10 - n + 1 in
      let num := if 0 <=? s then p else p * 10 ^ (- s) in
      let den := if 0 <=? s then q * 10 ^ s else q in
      let lo := num / den in
      let hi := lo + 1 in
      let ok_lo := same_float (float_of_decimal false lo s) f in
      let ok_hi := same_float (float_of_decimal false hi s) f in
      if ok_lo && ok_hi then
        if 2 * num <? (lo + hi) * den then (lo, s)
        else if (lo + hi) * den <? 2 * num then (hi, s)
        else if Z.even lo then (lo, s) else (hi, s)
      else if ok_lo then (lo, s)
      else if ok_hi then (hi, s)
      else shortest fuel' (n + 1) f p q d10
  end.

Fixpoint strip_zeros (fuel : nat) (m s : Z) : Z * Z :=
  match fuel with
  | O => (m, s)
  | S fuel' =>
      if (m mod 10 =? 0) && negb (m =? 0) then strip_zeros fuel' (m / 10) (s + 1)
      else (m, s)
  end.

Fixpoint zeros (n : nat) : string :=
  match n with
  | O => ""
  | S n' => String "0"%char (zeros n')
  end.

(** [repr] of a positive finite float with digits [ds] and the decimal
    point after [decpt] of them. *)
Definition layout (ds : string) (decpt : Z) : string :=
  let nd := Z.of_nat (String.length ds) in
  if (decpt <=? -4) || (16 <? decpt) then
    let e := decpt - 1 in
    let mantissa :=
      match ds with
      | String d "" => String d ""
      | String d rest => String d ("." +:+ rest)
      | "" => ""
      end in
    let digits := show_nat (Z.abs e) in
    mantissa +:+ "e" +:+ (if e <? 0 then "-" else "+") +:+
    (if Z.abs e <? 10 then "0" +:+ digits else digits)
  else if decpt <=? 0 then "0." +:+ zeros (Z.to_nat (- decpt)) +:+ ds
  else if nd <=? decpt then ds +:+ zeros (Z.to_nat (decpt - nd)) +:+ ".0"
  else str_take (Z.to_nat decpt) ds +:+ "." +:+ str_drop (Z.to_nat decpt) ds.

(** [float.__repr__], with the names [json.dumps] gives the values that
    are not finite. *)
Definition show_float (f : spec_float) : string :=
  match f with
  | S754_nan => "NaN"
  | S754_infinity false => "Infinity"
  | S754_infinity true => "-Infinity"
  | S754_zero false => "0.0"
  | S754_zero true => "-0.0"
  | S754_finite neg m e =>
      let p := if 0 <=? e then Z.pos m * 2 ^ e else Z.pos m in
      let q := if 0 <=? e then 1 else 2 ^ (- e) in
      let '(d, s) := shortest 17 1 (S754_finite false m e) p q (floor_log10 p q) in
      let '(d, s) := strip_zeros 20 d s in
      let ds := show_nat d in
      (if neg then "-" else "") +:+ layout ds (Z.of_nat (String.length ds) + s)
  end.

(** [json.dumps] with the default separators. *)
Fixpoint dumps (v : json) : string :=
  match v with
  | JNull => "null"
  | JBool true => "true"
  | JBool false => "false"
  | JInt z => show_int z
  | JFloat f => show_float f
  | JStr s => quoted s
  | JArr l =>
      "[" +:+
      (fix go (l : list json) : string :=
         match l with
         | [] => ""
         | x :: rest =>
             match rest with
             | [] => dumps x
             | _ => dumps x +:+ ", " +:+ go rest
             end
         end) l +:+ "]"
  | JObj items =>
      "{" +:+
      (fix go (items : list (string * json)) : string :=
         match items with
         | [] => ""
         | (k, x) :: rest =>
             match rest with
             | [] => quoted k +:+ ": " +:+ dumps x
             | _ => quoted k +:+ ": " +:+ dumps x +:+ ", " +:+ go rest
             end
         end) items +:+ "}"
  end.

End Json.

(** ** Library functions

    [str] on decoded values, [hashlib.sha1] and [base64.b64encode], over
    byte strings. *)
Module PyLib.

Import Json.

(** Whether [repr] shows a Latin-1 character as it is. *)
Definition printable (n : Z) : bool :=
  ((32 <=? n) && (n <=? 126)) || ((161 <=? n) && negb (n =? 173)).

Fixpoint contains_code (n : Z) (s : string) : bool :=
  match s with
  | "" => false
  | String c rest => (code c =? n) || contains_code n rest
  end.

Definition repr_char (q : Z) (c : ascii) : string :=
  let n := code c in
  if (n =? q) || (n =? 92) then backslash +:+ String c ""
  else if n =? 9 then backslash +:+ "t"
  else if n =? 10 then backslash +:+ "n"
  else if n =? 13 then backslash +:+ "r"
  else if printable n then String c ""
  else backslash +:+ "x" +:+ hex2 n.

Fixpoint repr_body (q : Z) (s : string) : string :=
  match s with
  | "" => ""
  | String c rest => repr_char q c +:+ repr_body q rest
  end.

(** [repr] of a string: single quotes, unless it holds a single quote
    and no double quote. *)
Definition repr_str (s : string) : string :=
  let q := if contains_code 39 s && negb (contains_code 34 s) then 34 else 39 in
  String (chr q) "" +:+ repr_body q s +:+ String (chr q) "".

Definition repr_float (f : spec_float) : string :=
  match f with
  | S754_nan => "nan"
  | S754_infinity false => "inf"
  | S754_infinity true => "-inf"
  | _ => show_float f
  end.

Fixpoint repr (v : json) : string :=
  match v with
  | JNull => "None"
  | JBool true => "True"
  | JBool false => "False"
  | JInt z => show_int z
  | JFloat f => repr_float f
  | JStr s => repr_str s
  | JArr l =>
      "[" +:+
      (fix go (l : list json) : string :=
         match l with
         | [] => ""
         | x :: rest =>
             match rest with
             | [] => repr x
             | _ => repr x +:+ ", " +:+ go rest
             end
         end) l +:+ "]"
  | JObj items =>
      "{" +:+
      (fix go (items : list (string * json)) : string :=
         match items with
         | [] => ""
         | (k, x) :: rest =>
             match rest with
             | [] => repr_str k +:+ ": " +:+ repr x
             | _ => repr_str k +:+ ": " +:+ repr x +:+ ", " +:+ go rest
             end
         end) items +:+ "}"
  end.

(** [str(v)]. *)
Definition str (v : json) : string :=
  match v with
  | JStr s => s
  | _ => repr v
  end.

(** *** SHA-1 *)

Definition bytes_of (s : string) : list Z := map code (list_ascii_of_string s).

Definition w32 (x : Z) : Z := x mod 2 ^ 32.

Definition rotl (n x : Z) : Z :=
  w32 (Z.lor (Z.shiftl x n) (Z.shiftr x (32 - n))).

Definition be_bytes (count : nat) (x : Z) : list Z :=
  map (fun i => Z.shiftr x (8 * Z.of_nat i) mod 256) (rev (seq 0 count)).

Definition sha1_pad (msg : list Z) : list Z :=
  let len := Z.of_nat (length msg) in
  let fill := Z.to_nat ((55 - len) mod 64) in
  msg ++ [128] ++ replicate fill 0 ++ be_bytes 8 (8 * len).

Fixpoint words_of (bs : list Z) : list Z :=
  match bs with
  | a :: b :: c :: d :: rest =>
      (((a * 256 + b) * 256 + c) * 256 + d) :: words_of rest
  | _ => []
  end.

(** The message schedule, latest word first. *)
Fixpoint extend (count : nat) (ws : list Z) : list Z :=
  match count with
  | O => ws
  | S count' =>
      let w k := nth k ws 0 in
      extend count'
        (rotl 1 (Z.lxor (Z.lxor (w 2%nat) (w 7%nat))
                        (Z.lxor (w 13%nat) (w 15%nat))) :: ws)
  end.

Definition sha1_round (st : Z * Z * Z * Z * Z) (iw : Z * Z)
  : Z * Z * Z * Z * Z :=
  let '(a, b, c, d, e) := st in
  let '(i, w) := iw in
  let '(f, k) :=
    if i <? 20 then
      (Z.lor (Z.land b c) (Z.land (Z.lxor b 4294967295) d), 1518500249)
    else if i <? 40 then (Z.lxor (Z.lxor b c) d, 1859775393)
    else if i <? 60 then
      (Z.lor (Z.lor (Z.land b c) (Z.land b d)) (Z.land c d), 2400959708)
    else (Z.lxor (Z.lxor b c) d, 3395469782) in
  (w32 (rotl 5 a + f + e + k + w), a, rotl 30 b, c, d).

Definition sha1_block (h : Z * Z * Z * Z * Z) (block : list Z)
  : Z * Z * Z * Z * Z :=
  let ws := rev (extend 64 (rev (words_of block))) in
  let '(a, b, c, d, e) :=
    fold_left sha1_round (combine (map Z.of_nat (seq 0 80)) ws) h in
  let '(h0, h1, h2, h3, h4) := h in
  (w32 (h0 + a), w32 (h1 + b), w32 (h2 + c), w32 (h3 + d), w32 (h4 + e)).

Fixpoint sha1_blocks (count : nat) (h : Z * Z * Z * Z * Z) (bs : list Z)
  : Z * Z * Z * Z * Z :=
  match count with
  | O => h
  | S count' => sha1_blocks count' (sha1_block h (take 64 bs)) (drop 64 bs)
  end.

Definition hex8 (x : Z) : string :=
  fold_right (fun b acc => hex2 b +:+ acc) "" (be_bytes 4 x).

(** [sha1(data).hexdigest()]. *)
Definition sha1_hexdigest (data : string) : string :=
  let padded := sha1_pad (bytes_of data) in
  let '(h0, h1, h2, h3, h4) :=
    sha1_blocks (length padded / 64)
      (1732584193, 4023233417, 2562383102, 271733878, 3285377520) padded in
  hex8 h0 +:+ hex8 h1 +:+ hex8 h2 +:+ hex8 h3 +:+ hex8 h4.

(** *** Base64 *)

Definition b64_char (n : Z) : ascii :=
  chr (if n <? 26 then 65 + n
       else if n <? 52 then 71 + n
       else if n <? 62 then n - 4
       else if n =? 62 then 43 else 47).

Fixpoint b64_groups (bs : list Z) : string :=
  match bs with
  | [] => ""
  | [a] =>
      String (b64_char (a / 4))
        (String (b64_char (a mod 4 * 16)) "==")
  | [a; b] =>
      String (b64_char (a / 4))
        (String (b64_char (a mod 4 * 16 + b / 16))
           (String (b64_char (b mod 16 * 4)) "="))
  | a :: b :: c :: rest =>
      String (b64_char (a / 4))
        (String (b64_char (a mod 4 * 16 + b / 16))
           (String (b64_char (b mod 16 * 4 + c / 64))
              (String (b64_char (c mod 64)) (b64_groups rest))))
  end.

(** [b64encode(data).decode()]. *)
Definition b64encode (data : string) : string := b64_groups (bytes_of data).

End PyLib.

(** ** An instance of the collaborators

    The library functions are the ones above.  Modelled from the spec:
    [ifunny.objects] and [ifunny.ext.commands] are not among the sources.
    A message's content is the [message] field of its payload; the
    invitee set of an invite is the [user_id]s under [data.invitees] of
    the raw event; a [Command] calls its method with the message and the
    words; the default commands do nothing. *)
Module Fixture.

Definition content_of (m : Message) : result string :=
  match subscript (message_data m) "message" with
  | Ok (JStr s) => Ok s
  | Ok _ => Raise (AttributeError "split")
  | Raise e => Raise e
  end.

Definition invitee_is (u : User) (entry : json) : bool :=
  match subscript entry "user_id" with
  | Ok i => py_eq (user_id u) i
  | Raise _ => false
  end.

Definition invited (invite : ChannelInvite) (u : User) : result bool :=
  match subscript (invite_update invite) "data" with
  | Ok d =>
      match subscript d "invitees" with
      | Ok (JArr l) => Ok (existsb (invitee_is u) l)
      | Ok _ => Raise (TypeError "invitees")
      | Raise e => Raise e
      end
  | Raise e => Raise e
  end.

Definition run_command (method : Method) (name : string) (m : Message)
  (words : list string) : result json :=
  meth_run method [AMessage m; AJson (JArr (map JStr words))].

Definition Defaults_none (m : Message) (words : list string) : result json :=
  Ok JNull.

#[global] Instance python : Externals := {|
  json_loads := Json.loads;
  json_dumps := Json.dumps;
  builtin_str := PyLib.str;
  sha1_hexdigest := PyLib.sha1_hexdigest;
  b64encode := PyLib.b64encode;
  Message_content := content_of;
  invitees_contain := invited;
  Command_call := run_command;
  Defaults_help := Defaults_none;
  Defaults_default := Defaults_none
|}.

(** A function that returns [None]. *)
Definition quiet (name : string) : Method :=
  {| meth_name := name; meth_doc := None; meth_run := fun _ => Ok JNull |}.

(** A client just constructed: nothing registered but [help], not logged
    in, no session; [acct] is the account payload the server would give
    and [replies] the replies to come. *)
Definition fresh (acct : option json) (replies : list Response) : World :=
  {| events := ∅;
     prefix := [""];
     commands := {["help" := DefaultsHelp]};
     authenticated := false;
     token := JNull;
     client_id := JNull;
     client_user := None;
     sendbird_session_key := JNull;
     sendbird_req_id := 1700000000000;
     update_flag := false;
     account_data_payload := acct;
     config := ∅;
     socket_connected := false;
     clock_ms := 1700000000123;
     responses := replies;
     urandom_hex := "00112233445566778899AABBCCDDEEFF00112233445566778899AABBCCDDEEFF01234567";
     log := [] |}.

Definition account : json :=
  JObj [("id", JStr "u1"); ("nick", JStr "robot"); ("email", JStr "r@x.io");
        ("messenger_token", JStr "mt")].

(** *** Frames and clients of the examples *)

Definition ping_payload : json := JObj [("id", JStr "x"); ("ts", JInt 1)].

Definition pinged : Hook := HFunction (quiet "pinged").

Definition ping_client : World :=
  with_events {["on_ping" := pinged]} (fresh (Some account) []).

Definition logged_in : World := with_authenticated true (fresh (Some account) []).

(** A message from someone else, and one the client sent itself. *)
Definition mesg_payload (sender : string) : json :=
  JObj [("user", JObj [("name", JStr sender)]); ("msg_id", JInt 5);
        ("channel_url", JStr "chan"); ("message", JStr "hello there")].

Definition got_message : Hook := HFunction (quiet "got_message").

Definition mesg_client : World :=
  with_events {["on_message" := got_message]} (fresh (Some account) []).

(** Channel updates: an invite for the client's own user, an invite for
    somebody else, and an update of a category outside the table. *)
Definition syev_payload (cat : Z) (invitee : string) : json :=
  JObj [("cat", JInt cat); ("channel_url", JStr "chan");
        ("data", JObj [("invitees", JArr [JObj [("user_id", JStr invitee)]])])].

Definition invited_hook : Hook := HFunction (quiet "invited").
Definition broadcast_hook : Hook := HEvent (Event_init (quiet "seen") "on_invite_broadcast").
Definition updated_hook : Hook := HFunction (quiet "updated").
Definition default_hook : Hook := HFunction (quiet "unhandled").

Definition syev_events : gmap string Hook :=
  <["on_invite" := invited_hook]>
    (<["on_invite_broadcast" := broadcast_hook]>
       (<["on_channel_update" := updated_hook]>
          (<["on_default" := default_hook]> ∅))).

Definition syev_client : World :=
  with_client_user (Some (mkUser (JStr "u1")))
    (with_events syev_events (fresh (Some account) [])).

(** Login: the Basic token is cached; the server answers 403, then 500. *)
Definition forbidden : Response := mkResponse 403 "/oauth2/token" "forbidden" None.
Definition failed : Response := mkResponse 500 "/oauth2/token" "error" None.

Definition retry_client : World :=
  with_config {["login_token" := JStr "dG9rZW4="]}
    (fresh None [forbidden; failed]).

End Fixture.

(** ** More frames and clients for the examples *)
Module Cases.

Import Fixture.

(** A user joining or leaving a channel. *)
Definition member_payload (cat : Z) : json :=
  JObj [("cat", JInt cat); ("channel_url", JStr "chan");
        ("data", JObj [("user_id", JStr "u7")])].

Definition joined_hook : Hook := HFunction (quiet "joined").

Definition member_events : gmap string Hook :=
  <["on_user_join" := joined_hook]>
    (<["on_channel_update" := updated_hook]> ∅).

Definition member_client : World :=
  with_events member_events (fresh (Some account) []).

(** A hook that raises. *)
Definition failing : Method :=
  {| meth_name := "failing"; meth_doc := None;
     meth_run := fun _ => Raise (AppError "boom") |}.

Definition connect_client : World :=
  with_events {["on_connect" := HFunction failing]} (fresh None []).

(** Only the default is registered. *)
Definition default_client : World :=
  with_events {["on_default" := default_hook]} (fresh None []).

(** Account data: what is cached, and a reply with newer data. *)
Definition account_items : list (string * json) :=
  [("id", JStr "u1"); ("nick", JStr "robot"); ("email", JStr "r@x.io");
   ("messenger_token", JStr "mt")].

Definition newer_items : list (string * json) :=
  [("id", JStr "u1"); ("nick", JStr "robot2"); ("bio", JStr "beep")].

Definition account_reply : Response :=
  mkResponse 200 "/account" "" (Some (JObj [("data", JObj newer_items)])).

Definition error_reply : Response :=
  mkResponse 401 "/account" "" (Some (JObj [("error", JStr "unauthorized")])).

(** Login: replies to the token request, and caches. *)
Definition granted : Response :=
  mkResponse 200 "/oauth2/token" "" (Some (JObj [("access_token", JStr "t0")])).

Definition grant_client (replies : list Response) : World :=
  with_config {["login_token" := JStr "dG9rZW4="]} (fresh None replies).

Definition returning_client (replies : list Response) : World :=
  with_config
    (<["a@b.c_token" := JStr "old"]> {["login_token" := JStr "dG9rZW4="]})
    (fresh None replies).

(** A client whose prefixes are [ps], in that order. *)
Definition prefixed (ps : list string) (w : World) : World :=
  mkWorld (events w) ps (commands w) (authenticated w) (token w) (client_id w)
    (client_user w) (sendbird_session_key w) (sendbird_req_id w)
    (update_flag w) (account_data_payload w) (config w) (socket_connected w)
    (clock_ms w) (responses w) (urandom_hex w) (log w).

Definition said (content : string) : Message :=
  mkMessage (JInt 5) (JStr "chan") (JObj [("message", JStr content)]) None.

End Cases.

(** ** Vocabulary of the statements *)

Local Open Scope list_scope.

(** What calling an entry of [Handler.events] gives back to the handler. *)
Definition hook_runs (h : Hook) (args : list arg) : result unit :=
  match match h with
        | HFunction m => meth_run m args
        | HEvent e => meth_run (ev_method e) args
        end with
  | Ok _ => Ok tt
  | Raise e => Raise e
  end.

(** The calls made, and the outcome, when the handler hands [args] to
    the registry default. *)
Definition default_calls (ev : gmap string Hook) (args : list arg) : list effect :=
  match ev !! "on_default" with
  | Some d => [Called d [ATuple args]]
  | None => []
  end.

Definition default_result (ev : gmap string Hook) (args : list arg) : result unit :=
  match ev !! "on_default" with
  | Some d => hook_runs d [ATuple args]
  | None => Ok tt
  end.

(** The calls made, and the outcome, when the handler invokes the hook
    registered under [name], or the default when there is none. *)
Definition hook_calls (ev : gmap string Hook) (name : string) (args : list arg)
  : list effect :=
  match ev !! name with
  | Some h => [Called h args]
  | None => default_calls ev args
  end.

Definition hook_result (ev : gmap string Hook) (name : string) (args : list arg)
  : result unit :=
  match ev !! name with
  | Some h => hook_runs h args
  | None => default_result ev args
  end.

(** Every registered hook returns, whatever it is given. *)
Definition hooks_return (ev : gmap string Hook) : Prop :=
  forall name h args, ev !! name = Some h -> hook_runs h args = Ok tt.

(** A method leaves [w] and [snd (m w)] related by [R], however it ends. *)
Definition preserves {A} (R : World -> World -> Prop) (m : M A) : Prop :=
  forall w, R w (snd (m w)).

(** The log only grows, by effects that satisfy [Q]. *)
Definition log_grows (Q : effect -> Prop) (w w' : World) : Prop :=
  exists l, log w' = log w ++ l /\ Forall Q l.

Definition same_session (w w' : World) : Prop :=
  sendbird_session_key w' = sendbird_session_key w /\
  socket_connected w' = socket_connected w.

(** Session fields and registered hooks untouched, log grown by effects
    that satisfy [Q]. *)
Definition steady (Q : effect -> Prop) (w w' : World) : Prop :=
  (same_session w w' /\ events w' = events w) /\ log_grows Q w w'.

(** A method that always ends by raising. *)
Definition never_returns {A} (m : M A) : Prop :=
  forall w, exists e, fst (m w) = Raise e.

Definition is_send (e : effect) : Prop :=
  match e with SocketSend _ => True | _ => False end.

Definition is_sleep (e : effect) : Prop :=
  match e with Sleep _ => True | _ => False end.

Definition is_post (e : effect) : Prop :=
  match e with HttpPost _ _ _ => True | _ => False end.

Definition is_call (e : effect) : Prop :=
  match e with Called _ _ | CommandCalled _ _ _ => True | _ => False end.

Definition is_get (e : effect) : Prop :=
  match e with HttpGet _ _ => True | _ => False end.

(** [connected] implies that a session key is there. *)
Definition session_invariant (w : World) : Prop :=
  socket_connected w = true -> sendbird_session_key w <> JNull.

(** A wire frame: the opcode, then the payload as [json.dumps] writes it. *)
Definition frame (opcode : string) (payload : json) : string :=
  opcode +:+ Json.dumps payload.

(** Where a SYEV frame goes for a given [cat]. *)
Definition route `{Externals} (cat : json) : json -> M unit :=
  if py_eq cat (JInt 10020) then _on_invite
  else if py_eq cat (JInt 10001) then _on_user_exit
  else if py_eq cat (JInt 10000) then _on_user_join
  else fun data => _default_event [AJson data].

(** The headers of a request to the API for a client whose token is [t]. *)
Definition headers_of `{Externals} (t : json) : list (string * string) :=
  ("User-Agent", user_agent) ::
  (if py_truthy t then [("Authorization", "Bearer " +:+ py_str t)] else []).

(** The Basic token made from the random string [hex_string]. *)
Definition generated_login_token `{Externals} (hex_string : string) : json :=
  let hex_id := hex_string +:+ "_" +:+ client_id_const in
  let hash_decoded :=
    hex_string +:+ ":" +:+ client_id_const +:+ ":" +:+ client_secret in
  let hash_encoded := sha1_hexdigest (utf8_encode hash_decoded) in
  JStr (b64encode (utf8_encode (hex_id +:+ ":" +:+ hash_encoded))).

(** What running the entry found for a command name gives. *)
Definition command_result `{Externals} (target : option CommandEntry)
  (message : Message) (args : list string) : result json :=
  match target with
  | Some DefaultsHelp => Defaults_help message args
  | Some (CommandObj m n) => Command_call m n message args
  | None => Defaults_default message args
  end.

(** The state after the account data was fetched anew: the flag is down,
    the request is logged, the reply is consumed and its [data] kept. *)
Definition refreshed `{Externals} (d : json) (rest : list Response) (w : World)
  : World :=
  with_account_data (Some d)
    (with_responses rest
       (with_log (log w ++ [HttpGet (api +:+ "/account") (headers_of (token w))])
          (with_update_flag false w))).

(** A request or a sleep. *)
Definition is_traffic (e : effect) : bool :=
  match e with
  | HttpGet _ _ | HttpPost _ _ _ | HttpGetParams _ _ _
  | HttpPostFiles _ _ _ _ | Sleep _ => true
  | _ => false
  end.

(** The requests and sleeps of a log, in order. *)
Definition traffic (l : list effect) : list effect := List.filter is_traffic l.

(** A reply with its status code blanked, and a state with the status
    code of every reply to come blanked. *)
Definition forget_status (r : Response) : Response :=
  mkResponse 0 (resp_url r) (resp_text r) (resp_json r).

Definition blur (w : World) : World :=
  with_responses (map forget_status (responses w)) w.

(** [m] runs the same way with the status codes blanked. *)
Definition ignores_status {A} (m : M A) : Prop :=
  forall w, m (blur w) = (fst (m w), blur (snd (m w))).

(** [m] does not depend on a status code: from two states that differ
    only in the status codes of the replies to come it gives the same
    result and the same effects, and consumes the same replies. *)
Definition status_blind {A} (m : M A) : Prop :=
  forall w w', blur w = blur w' ->
    fst (m w) = fst (m w') /\ log (snd (m w)) = log (snd (m w')) /\
    blur (snd (m w)) = blur (snd (m w')).

(** The request to the account endpoint by a client whose token is [t],
    and the token request of the password grant. *)
Definition account_get `{Externals} (t : json) : effect :=
  HttpGet (api +:+ "/account") (headers_of t).

Definition token_post `{Externals} (lt : json) (email password : string)
  : effect :=
  HttpPost (api +:+ "/oauth2/token")
    [("Authorization", "Basic " +:+ py_str lt)]
    [("grant_type", "password"); ("username", email); ("password", password)].

(** The headers of a request to the chat service for a client whose
    session key is [k]. *)
Definition sendbird_headers_of (k : json) : list (string * json) :=
  ("User-Agent", JStr "jand/3.096") ::
  (if py_truthy k then [("Session-Key", k)] else []).

(** The other requests of the client, for a client whose token is [t],
    whose session key is [k] and whose id is [i]. *)
Definition counters_get `{Externals} (t : json) : effect :=
  HttpGet (api +:+ "/counters") (headers_of t).

Definition content_post `{Externals} (t : json) (image_data : string)
  (tags : list string) (visibility : string) : effect :=
  HttpPostFiles (api +:+ "/content")
    (map (fun kv => (fst kv, JStr (snd kv))) (headers_of t))
    [("type", JStr "pic"); ("tags", JStr (json_dumps (JArr (map JStr tags))));
     ("visibility", JStr visibility)]
    [("image", image_data)].

Definition upload_post (k : json) (channel : Channel) (file_data : string)
  : effect :=
  HttpPostFiles (sendbird_api +:+ "/storage/file") (sendbird_headers_of k)
    [("thumbnail1", JStr "780, 780"); ("thumbnail2", JStr "320,320");
     ("channel_url", channel_url channel)]
    [("file", file_data)].

Definition is_channels_get (limit : Z) (e : effect) : Prop :=
  match e with
  | HttpGetParams _ params _ => dict_get params "limit" = Some (JInt limit)
  | _ => False
  end.

(** No request, one request or two requests to the account endpoint. *)
Definition account_gets `{Externals} (t : json) (l : list effect) : Prop :=
  l = [] \/ l = [account_get t] \/ l = [account_get t; account_get t].

(** From [w] to [w'] the token and the session key are kept and the log
    grows by at most two requests to the account endpoint. *)
Definition account_read `{Externals} (w w' : World) : Prop :=
  token w' = token w /\ sendbird_session_key w' = sendbird_session_key w /\
  exists l, log w' = log w ++ l /\ account_gets (token w) l.

(** From [w] to [w'] the log grows, and the requests and sleeps among
    what is added are at most two requests to the account endpoint. *)
Definition reads_account_only `{Externals} (w w' : World) : Prop :=
  exists l, log w' = log w ++ l /\ account_gets (token w) (traffic l).

(** ** Theorems *)

Section Facts.
Context `{Externals}.

Lemma call_hook_eq h args w :
  call_hook h args w =
  (hook_runs h args, with_log (log w ++ [Called h args]) w).
Proof.
  unfold call_hook, hook_runs, bind, emit, modify, lift, ret; simpl.
  destruct h; simpl.
  - destruct (meth_run m args); reflexivity.
  - destruct (meth_run (ev_method e) args); reflexivity.
Qed.

Lemma with_log_same w : with_log (log w ++ []) w = w.
Proof. destruct w; unfold with_log; simpl. by rewrite app_nil_r. Qed.

Lemma default_event_eq args w :
  _default_event args w =
  (default_result (events w) args,
   with_log (log w ++ default_calls (events w) args) w).
Proof.
  unfold _default_event, default_result, default_calls, bind, gets; simpl.
  destruct (events w !! "on_default").
  - apply call_hook_eq.
  - by rewrite with_log_same.
Qed.

(** [self.get_ev(key)(args)] followed by [k]. *)
Lemma get_ev_bind {A} key (k : (list arg -> M unit) -> M A) w :
  bind (get_ev key) k w =
  k (match events w !! key with
     | Some h => call_hook h
     | None => _default_event
     end) w.
Proof. reflexivity. Qed.

Lemma invoke_eq key args w :
  bind (get_ev key) (fun f => f args) w =
  (hook_result (events w) key args,
   with_log (log w ++ hook_calls (events w) key args) w).
Proof.
  rewrite get_ev_bind. unfold hook_result, hook_calls.
  destruct (events w !! key).
  - apply call_hook_eq.
  - apply default_event_eq.
Qed.

(** What [channel_update_codes.get] can give. *)
Lemma codes_get_cases {A} cat (k : (json -> M unit) -> M A) w :
  (exists e, bind (channel_update_codes_get cat) k w = (Raise e, w)) \/
  (exists sub, bind (channel_update_codes_get cat) k w = k sub w /\
     (sub = _on_invite \/ sub = _on_user_exit \/ sub = _on_user_join \/
      sub = fun data => _default_event [AJson data])).
Proof.
  unfold bind, channel_update_codes_get.
  destruct (hashable cat); [right | left; eexists; reflexivity].
  unfold ret, channel_update_codes. cbn [find fst snd].
  destruct (py_eq cat (JInt 10020)); [eexists; split; [reflexivity | auto] |].
  destruct (py_eq cat (JInt 10001)); [eexists; split; [reflexivity | auto] |].
  destruct (py_eq cat (JInt 10000)); eexists; (split; [reflexivity | auto]).
Qed.

Lemma client_is_not_global w :
  load_global handler_globals "client" w = (Raise (NameError "client"), w).
Proof. reflexivity. Qed.

Lemma AlreadyAuthenticated_is_not_global w :
  load_global client_globals "AlreadyAuthenticated" w =
  (Raise (NameError "AlreadyAuthenticated"), w).
Proof. reflexivity. Qed.

End Facts.

(** *** What the methods leave alone *)

Section Steady.
Context `{Externals}.
Variable Q : effect -> Prop.

Lemma steady_refl w : steady Q w w.
Proof.
  split; [repeat split; reflexivity |].
  exists []. by rewrite app_nil_r.
Qed.

Lemma steady_trans a b c : steady Q a b -> steady Q b c -> steady Q a c.
Proof.
  intros [[[K1 C1] E1] (l1 & L1 & F1)] [[[K2 C2] E2] (l2 & L2 & F2)].
  split; [repeat split; congruence |].
  exists (l1 ++ l2). split.
  - by rewrite L2, L1, app_assoc.
  - by apply Forall_app.
Qed.

Lemma preserves_ret {A} (a : A) : preserves (steady Q) (ret a).
Proof. intros w. apply steady_refl. Qed.

Lemma preserves_raise {A} e : preserves (steady Q) (@raise A e).
Proof. intros w. apply steady_refl. Qed.

Lemma preserves_gets {A} (f : World -> A) : preserves (steady Q) (gets f).
Proof. intros w. apply steady_refl. Qed.

Lemma preserves_lift {A} (r : result A) : preserves (steady Q) (lift r).
Proof. intros w. apply steady_refl. Qed.

Lemma preserves_load_global globals name :
  preserves (steady Q) (load_global globals name).
Proof.
  intros w. unfold load_global. case_match; apply steady_refl.
Qed.

Lemma preserves_bind {A B} (m : M A) (k : A -> M B) :
  preserves (steady Q) m -> (forall a, preserves (steady Q) (k a)) ->
  preserves (steady Q) (bind m k).
Proof.
  intros Hm Hk w. unfold bind. specialize (Hm w).
  destruct (m w) as [[a | e] w1]; simpl in *; [| exact Hm].
  eapply steady_trans; [exact Hm | apply Hk].
Qed.

Lemma preserves_modify (f : World -> World) :
  (forall w, steady Q w (f w)) -> preserves (steady Q) (modify f).
Proof. intros Hf w. apply Hf. Qed.

Lemma preserves_emit e : Q e -> preserves (steady Q) (emit e).
Proof.
  intros He w. split; [repeat split; reflexivity |].
  exists [e]. split; [reflexivity | by constructor].
Qed.

End Steady.

(** One step of a proof that a method is [steady]. *)
Ltac steady_field :=
  let w := fresh "w" in
  intros w; split; [repeat split; reflexivity |];
  exists []; split; [by rewrite app_nil_r | constructor].

Ltac steady_step :=
  first
    [ apply preserves_ret
    | apply preserves_raise
    | apply preserves_gets
    | apply preserves_lift
    | apply preserves_load_global
    | apply preserves_emit; solve [auto]
    | apply preserves_modify; steady_field
    | apply preserves_bind; [| intros ?]
    | case_match ].

Section SteadyCode.
Context `{Externals}.
Variable Q : effect -> Prop.
Hypothesis Q_call : forall h args, Q (Called h args).
Hypothesis Q_command : forall c m words, Q (CommandCalled c m words).
Hypothesis Q_get : forall url hs, Q (HttpGet url hs).

Lemma call_hook_steady h args : preserves (steady Q) (call_hook h args).
Proof. unfold call_hook. repeat steady_step. Qed.

Lemma default_event_steady args : preserves (steady Q) (_default_event args).
Proof.
  unfold _default_event.
  repeat first [apply call_hook_steady | steady_step].
Qed.

(** [self.get_ev(key)] gives either a registered hook or the default. *)
Lemma get_ev_steady {A} key (k : (list arg -> M unit) -> M A) :
  (forall h, preserves (steady Q) (k (call_hook h))) ->
  preserves (steady Q) (k _default_event) ->
  preserves (steady Q) (bind (get_ev key) k).
Proof.
  intros Hh Hd w. rewrite get_ev_bind.
  destruct (events w !! key); [apply Hh | apply Hd].
Qed.

Lemma invoke_steady key args :
  preserves (steady Q) (bind (get_ev key) (fun f => f args)).
Proof.
  apply get_ev_steady; intros; [apply call_hook_steady | apply default_event_steady].
Qed.

Lemma requests_get_steady url hs : preserves (steady Q) (requests_get url hs).
Proof. unfold requests_get. repeat steady_step. Qed.

Lemma headers_steady : preserves (steady Q) headers.
Proof. unfold headers. repeat steady_step. Qed.

Lemma account_data_steady : preserves (steady Q) __account_data.
Proof.
  unfold __account_data, response_json.
  repeat first [apply headers_steady | apply requests_get_steady | steady_step].
Qed.

Lemma get_prop_steady key force : preserves (steady Q) (_get_prop key force).
Proof.
  unfold _get_prop. repeat first [apply account_data_steady | steady_step].
Qed.

Lemma nick_steady : preserves (steady Q) nick.
Proof. apply get_prop_steady. Qed.

Lemma id_steady : preserves (steady Q) id.
Proof. unfold id. repeat first [apply get_prop_steady | steady_step]. Qed.

Lemma user_steady : preserves (steady Q) user.
Proof. unfold user. repeat first [apply id_steady | steady_step]. Qed.

Lemma call_command_steady name message args :
  preserves (steady Q) (call_command name message args).
Proof. unfold call_command. repeat steady_step. Qed.

Lemma resolve_command_steady message :
  preserves (steady Q) (resolve_command message).
Proof.
  unfold resolve_command. repeat steady_step.
  match goal with |- preserves _ (resolve_command_loop ?ps _ _ _) =>
    induction ps as [| p ps IH] end; simpl.
  - steady_step.
  - case_match; [apply call_command_steady | apply IH].
Qed.

Lemma on_message_steady key data :
  preserves (steady Q) (_on_message key data).
Proof.
  unfold _on_message.
  repeat first [apply nick_steady | apply resolve_command_steady
               | apply invoke_steady | steady_step].
Qed.

Lemma on_ping_steady key data : preserves (steady Q) (_on_ping key data).
Proof.
  unfold _on_ping. apply get_ev_steady; intros.
  - apply preserves_bind; [apply call_hook_steady | intros ?].
    do 2 (apply preserves_bind; [steady_step | intros ?]).
    intros w. unfold bind. rewrite client_is_not_global. apply steady_refl.
  - apply preserves_bind; [apply default_event_steady | intros ?].
    do 2 (apply preserves_bind; [steady_step | intros ?]).
    intros w. unfold bind. rewrite client_is_not_global. apply steady_refl.
Qed.

Lemma on_invite_steady update : preserves (steady Q) (_on_invite update).
Proof.
  unfold _on_invite.
  repeat first [apply user_steady | apply invoke_steady | steady_step].
Qed.

Lemma on_user_exit_steady data : preserves (steady Q) (_on_user_exit data).
Proof. unfold _on_user_exit. repeat first [apply invoke_steady | steady_step]. Qed.

Lemma on_user_join_steady data : preserves (steady Q) (_on_user_join data).
Proof. unfold _on_user_join. repeat first [apply invoke_steady | steady_step]. Qed.

Lemma codes_get_steady {A} cat (k : (json -> M unit) -> M A) :
  (forall sub, (forall data, preserves (steady Q) (sub data)) ->
               preserves (steady Q) (k sub)) ->
  preserves (steady Q) (bind (channel_update_codes_get cat) k).
Proof.
  intros Hk w.
  destruct (codes_get_cases cat k w) as [[e He] | (sub & He & Hsub)]; rewrite He.
  - apply steady_refl.
  - apply Hk. intros data.
    destruct Hsub as [-> | [-> | [-> | ->]]];
      first [apply on_invite_steady | apply on_user_exit_steady
            | apply on_user_join_steady | apply default_event_steady].
Qed.

Lemma on_channel_update_steady key data :
  preserves (steady Q) (_on_channel_update key data).
Proof.
  unfold _on_channel_update.
  do 2 (apply preserves_bind; [steady_step | intros ?]).
  apply codes_get_steady. intros sub Hsub.
  apply preserves_bind; [apply Hsub | intros ?; apply invoke_steady].
Qed.

Hypothesis Q_post : forall url hs data, Q (HttpPost url hs data).
Hypothesis Q_sleep : forall seconds, Q (Sleep seconds).
Hypothesis Q_config : forall cfg, Q (ConfigWritten cfg).

Lemma update_config_steady : preserves (steady Q) __update_config.
Proof. unfold __update_config. repeat steady_step. Qed.

Lemma login_token_steady : preserves (steady Q) __login_token.
Proof.
  unfold __login_token. repeat first [apply update_config_steady | steady_step].
Qed.

Lemma requests_post_steady url hs data :
  preserves (steady Q) (requests_post url hs data).
Proof. unfold requests_post. repeat steady_step. Qed.

Lemma password_grant_steady email password :
  preserves (steady Q) (password_grant email password).
Proof.
  unfold password_grant, token_request, accept_token, response_json, time_sleep.
  repeat first [apply login_token_steady | apply requests_post_steady
               | apply update_config_steady | steady_step].
Qed.

Lemma login_steady email password force :
  preserves (steady Q) (login email password force).
Proof.
  unfold login.
  repeat first [apply nick_steady | apply headers_steady
               | apply requests_get_steady | apply password_grant_steady
               | steady_step].
Qed.

End SteadyCode.

Section NeverReturns.
Context `{Externals}.

Lemma never_returns_bind {A B} (m : M A) (k : A -> M B) :
  (forall a, never_returns (k a)) -> never_returns (bind m k).
Proof.
  intros Hk w. unfold bind. destruct (m w) as [[a | e] w1]; [apply Hk | eauto].
Qed.

Lemma on_ping_never_returns key data w :
  exists e, fst (_on_ping key data w) = Raise e.
Proof.
  unfold _on_ping. rewrite get_ev_bind.
  apply never_returns_bind. intros _.
  do 2 (apply never_returns_bind; intros ?).
  intros w0. unfold bind. rewrite client_is_not_global. eauto.
Qed.

End NeverReturns.

(** *** Registration decorators *)

Section Decorators.
Context `{Externals}.

(** C10.  Each of the three registration decorators stores the handler
    in its table under the chosen name and returns [None]: after
    decoration the function's name is bound to [None] in the namespace
    where the decorator was applied, not to the function. *)
Theorem decorated_name_is_None (name : option string) (method : Method)
  (namespace : gmap string binding) (w : World) :
  decorated (Handler_add name) method namespace w =
    (Ok (<[meth_name method := BNone]> namespace),
     with_events (<[pick_name name method := HFunction method]> (events w)) w)
  /\ decorated (Client_command name) method namespace w =
    (Ok (<[meth_name method := BNone]> namespace),
     with_commands
       (<[pick_name name method := CommandObj method (pick_name name method)]>
          (commands w)) w)
  /\ decorated (Client_event name) method namespace w =
    (Ok (<[meth_name method := BNone]> namespace),
     with_events
       (<[pick_name name method :=
            HEvent (Event_init method (pick_name name method))]> (events w)) w).
Proof. repeat split. Qed.

End Decorators.

(** *** Request ids *)

Lemma total_insert f ps i p p' :
  ps !! i = Some p ->
  Bytecode.total f (<[i := p']> ps) = Bytecode.total f ps - f p + f p'.
Proof.
  revert i. induction ps as [| q ps IH]; intros [| i] Hp; simpl in *;
    try discriminate.
  - injection Hp as ->. lia.
  - rewrite (IH _ Hp). lia.
Qed.

Lemma total_nonneg f ps : (forall x, 0 <= f x) -> 0 <= Bytecode.total f ps.
Proof.
  intros Hf. induction ps as [| q ps IH]; simpl; [lia |].
  specialize (Hf q). lia.
Qed.

Lemma total_lookup f ps i p :
  (forall x, 0 <= f x) -> ps !! i = Some p -> f p <= Bytecode.total f ps.
Proof.
  intros Hf. revert i. induction ps as [| q ps IH]; intros [| i] Hp;
    simpl in *; try discriminate.
  - injection Hp as ->. pose proof (total_nonneg f ps Hf). lia.
  - specialize (IH _ Hp). specialize (Hf q). lia.
Qed.

Lemma total_lookup2 f ps i j p q :
  (forall x, 0 <= f x) -> i <> j -> ps !! i = Some p -> ps !! j = Some q ->
  f p + f q <= Bytecode.total f ps.
Proof.
  intros Hf. revert i j. induction ps as [| r ps IH]; intros [| i] [| j] Hij Hp Hq;
    simpl in *; try discriminate; try congruence.
  - injection Hp as ->. pose proof (total_lookup f ps j q Hf Hq). lia.
  - injection Hq as ->. pose proof (total_lookup f ps i p Hf Hp). lia.
  - assert (Hne : i <> j) by congruence.
    specialize (IH i j Hne Hp Hq). specialize (Hf r). lia.
Qed.

Lemma holding_nonneg p : 0 <= Bytecode.holding p.
Proof. destruct p; simpl; lia. Qed.

Lemma start_consistent n seed :
  Bytecode.consistent seed (Bytecode.start n seed).
Proof.
  unfold Bytecode.consistent, Bytecode.holders, Bytecode.writes, Bytecode.start.
  simpl.
  assert (Hz : forall f, f Bytecode.AtAcquire = 0 ->
                 Bytecode.total f (replicate n Bytecode.AtAcquire) = 0).
  { intros f Hf. induction n as [| n IH]; simpl; [reflexivity | lia]. }
  rewrite !Hz by reflexivity. repeat split; [lia |].
  intros i loaded Hi. apply lookup_replicate in Hi as [Hi _]. discriminate.
Qed.

(** With the lock held by thread [i], no other thread is about to write. *)
Lemma lone_holder seed ps s i j p loaded :
  Bytecode.consistent seed (ps, s) ->
  ps !! i = Some p -> Bytecode.holding p = 1 ->
  ps !! j = Some (Bytecode.AtStore loaded) -> i = j.
Proof.
  intros (Hh & _ & _) Hi Hp Hj.
  destruct (decide (i = j)) as [| Hne]; [done | exfalso].
  pose proof (total_lookup2 Bytecode.holding ps i j _ _ holding_nonneg Hne Hi Hj)
    as Hle.
  unfold Bytecode.holders in Hh. simpl in Hh, Hle.
  destruct (Bytecode.lock_held s); simpl in Hh; lia.
Qed.

Lemma step_consistent seed i c c' :
  Bytecode.consistent seed c -> Bytecode.step i c = Some c' ->
  Bytecode.consistent seed c'.
Proof.
  destruct c as [ps s]. intros Hc. pose proof Hc as (Hh & Hw & Hl).
  unfold Bytecode.step. simpl.
  destruct (ps !! i) as [p |] eqn:Hp; [| discriminate].
  destruct (Bytecode.step_thread p s) as [[p' s'] |] eqn:Hs; [| discriminate].
  intros [= <-].
  unfold Bytecode.consistent, Bytecode.holders, Bytecode.writes in *.
  simpl in *. rewrite !(total_insert _ _ _ _ _ Hp).
  assert (Hother : forall j q, j <> i -> <[i := p']> ps !! j = Some q ->
                               ps !! j = Some q).
  { intros j q Hne. by rewrite list_lookup_insert_ne. }
  assert (Hself : forall q, <[i := p']> ps !! i = Some q -> q = p').
  { intros q. rewrite list_lookup_insert_eq by (by eapply lookup_lt_Some).
    congruence. }
  destruct p; simpl in Hs; try discriminate.
  - destruct (Bytecode.lock_held s) eqn:Hlock; [discriminate |].
    injection Hs as <- <-. simpl in *. repeat split; [lia | lia |].
    intros j loaded Hj. destruct (decide (j = i)) as [-> | Hne].
    + apply Hself in Hj. discriminate.
    + eauto.
  - injection Hs as <- <-. simpl in *. repeat split; [lia | lia |].
    intros j loaded' Hj. destruct (decide (j = i)) as [-> | Hne].
    + apply Hself in Hj. congruence.
    + eauto.
  - injection Hs as <- <-. simpl in *.
    assert (loaded = Bytecode.req_id s) as -> by eauto.
    repeat split; [lia | lia |].
    intros j loaded' Hj. destruct (decide (j = i)) as [-> | Hne].
    + apply Hself in Hj. discriminate.
    + apply Hother in Hj; [| done]. exfalso. apply Hne. symmetry.
      by apply (lone_holder seed ps s i j _ loaded' Hc Hp).
  - injection Hs as <- <-. simpl in *.
    pose proof (total_lookup Bytecode.holding ps i _ holding_nonneg Hp) as Hle.
    simpl in Hle.
    repeat split; [destruct (Bytecode.lock_held s); simpl in *; lia | lia |].
    intros j loaded Hj. destruct (decide (j = i)) as [-> | Hne].
    + apply Hself in Hj. discriminate.
    + eauto.
  - injection Hs as <- <-. simpl in *. repeat split; [lia | lia |].
    intros j loaded Hj. destruct (decide (j = i)) as [-> | Hne].
    + apply Hself in Hj. discriminate.
    + eauto.
Qed.

Lemma run_consistent seed schedule c c' :
  Bytecode.consistent seed c -> Bytecode.run schedule c = Some c' ->
  Bytecode.consistent seed c'.
Proof.
  revert c. induction schedule as [| i rest IH]; intros c Hc; simpl.
  - by intros [= <-].
  - destruct (Bytecode.step i c) as [c1 |] eqn:Hstep; [| discriminate].
    apply IH. by apply (step_consistent seed i c).
Qed.

(** X26.  The lock protects the increment, which is a read and a write
    with a possible thread switch in between.  For any number of callers,
    at every point of every schedule at most one caller is between its
    acquire and its release, and the counter is the seed plus the number
    of callers that have written it: no write is lost. *)
Theorem lock_protects_counter schedule n seed c :
  Bytecode.run schedule (Bytecode.start n seed) = Some c ->
  Bytecode.holders c <= 1 /\
  Bytecode.req_id (snd c) = seed + Bytecode.writes c.
Proof.
  intros Hrun.
  destruct (run_consistent seed schedule _ _ (start_consistent n seed) Hrun)
    as (Hh & Hw & _).
  split; [| exact Hw]. rewrite Hh. destruct (Bytecode.lock_held (snd c)); simpl; lia.
Qed.

(** C9.  Two threads call [next_req_id] on a counter at [seed]; each
    takes the lock, adds one and releases it, and only then does either
    read the counter.  Both read [seed + 2]: the read is outside the lock
    and the two calls return the same value. *)
Theorem next_req_id_race (seed : Z) :
  let final := Threads.run [0; 0; 0; 1; 1; 1; 0; 1]%nat (Threads.start 2 seed) in
  final = Some ([Threads.Returned (seed + 2); Threads.Returned (seed + 2)],
                Threads.mkShared false (seed + 2))
  /\ forall c, final = Some c -> ~ NoDup (Threads.returned_values c).
Proof.
  assert (E : Threads.run [0; 0; 0; 1; 1; 1; 0; 1]%nat (Threads.start 2 seed) =
              Some ([Threads.Returned (seed + 2); Threads.Returned (seed + 2)],
                    Threads.mkShared false (seed + 2))).
  { cbn. replace (seed + 1 + 1) with (seed + 2) by lia. reflexivity. }
  cbv zeta. rewrite E. split; [reflexivity |].
  intros c [= <-]. cbn. intros Hnd.
  apply NoDup_cons in Hnd as [Hin _]. apply Hin. left.
Qed.

(** *** Login *)

Section Login.
Context `{Externals}.

(** C7.  On a client whose [authenticated] flag is set, [login] fails
    before anything else happens and leaves the whole state as it was;
    the exception is the [NameError] for [AlreadyAuthenticated], a name
    [_client.py] never imports, not the [AlreadyAuthenticated] error. *)
Theorem login_when_authenticated (email password : string) (force : bool)
  (w : World) :
  login email password force (with_authenticated true w) =
  (Raise (NameError "AlreadyAuthenticated"), with_authenticated true w).
Proof. reflexivity. Qed.

End Login.

(** *** Dispatch *)

Section Dispatch.
Context `{Externals}.

Lemma short_frame_payload (raw : string) :
  (String.length raw < 4)%nat -> str_drop 4 raw = "".
Proof.
  destruct raw as [|a [|b [|c [|d raw]]]]; simpl; try reflexivity; lia.
Qed.

(** X9.  However a PING is handled, the handler does not return normally and
    nothing is sent. *)
Lemma on_ping_never_sends (key : string) (data : json) (w : World) :
  (exists e, fst (_on_ping key data w) = Raise e)
  /\ log_grows (fun e => ~ is_send e) w (snd (_on_ping key data w)).
Proof.
  split; [apply on_ping_never_returns |].
  apply (on_ping_steady (fun e => ~ is_send e)); simpl; auto.
Qed.

(** C2, as amended.  When what follows the first four characters is not
    valid JSON, which is the case of every frame shorter than four
    characters since nothing follows, [resolve] raises the decoder's
    error; no opcode handler and no hook has run and the state is as it
    was. *)
Theorem resolve_malformed_raises (raw : string) (w : World) :
  ((String.length raw < 4)%nat /\ json_loads "" = None) \/
  json_loads (str_drop 4 raw) = None ->
  resolve raw w = (Raise JSONDecodeError, w).
Proof.
  intros Hbad.
  assert (Hnone : json_loads (str_drop 4 raw) = None).
  { destruct Hbad as [[Hlen Hempty] | Hrest]; [| exact Hrest].
    by rewrite short_frame_payload. }
  unfold resolve. by rewrite Hnone.
Qed.

End Dispatch.

(** C1.  On the frame [PING{"id": "x", "ts": 1}], with an [on_ping] hook
    registered, the handler calls the hook with the payload and then
    fails with the [NameError] for [client] (line 70 reads [client], not
    [self.client]): no PONG frame is sent. *)
Theorem ping_is_not_answered :
  resolve (frame "PING" Fixture.ping_payload) Fixture.ping_client =
  (Raise (NameError "client"),
   with_log [Called Fixture.pinged [AJson Fixture.ping_payload]]
     Fixture.ping_client).
Proof. vm_compute. reflexivity. Qed.

(** C2, counterexample.  The three-character frame [PIN] is malformed and
    [resolve] raises on it. *)
Lemma resolve_raises_on_short_frame :
  (String.length "PIN" < 4)%nat
  /\ fst (resolve "PIN" (Fixture.fresh None [])) = Raise JSONDecodeError.
Proof. split; [simpl; lia | reflexivity]. Qed.

Lemma resolve_malformed_raises_witness :
  resolve "PIN" (Fixture.fresh None []) =
  (Raise JSONDecodeError, Fixture.fresh None []).
Proof.
  apply (resolve_malformed_raises "PIN" (Fixture.fresh None [])).
  left. split; [simpl; lia | reflexivity].
Defined.

(** *** Chat messages *)

Section Messages.
Context `{Externals}.

Lemma bind_lift {A B} (r : result A) (a : A) (k : A -> M B) w :
  r = Ok a -> bind (lift r) k w = k a w.
Proof. by intros ->. Qed.

Lemma bind_ok {A B} (m : M A) (a : A) (k : A -> M B) w w' :
  m w = (Ok a, w') -> bind m k w = k a w'.
Proof. unfold bind. by intros ->. Qed.

Lemma on_message_own key data sender name own w w0 :
  subscript data "user" = Ok sender ->
  subscript sender "name" = Ok name ->
  nick w = (Ok own, w0) ->
  py_eq name own = true ->
  _on_message key data w = (Ok tt, w0).
Proof.
  intros Hs Hn Hnick Heq. unfold _on_message.
  rewrite (bind_lift _ _ _ _ Hs), (bind_lift _ _ _ _ Hn), (bind_ok _ _ _ _ _ Hnick).
  by rewrite Heq.
Qed.

Lemma on_message_other key data sender name own msg_id url inv w w0 w1 :
  subscript data "user" = Ok sender ->
  subscript sender "name" = Ok name ->
  subscript data "msg_id" = Ok msg_id ->
  subscript data "channel_url" = Ok url ->
  nick w = (Ok own, w0) ->
  py_eq name own = false ->
  resolve_command (mkMessage msg_id url data None) w0 = (Ok inv, w1) ->
  _on_message key data w =
  (hook_result (events w1) "on_message"
     [AMessage (set_invoked (mkMessage msg_id url data None) inv)],
   with_log
     (log w1 ++
      hook_calls (events w1) "on_message"
        [AMessage (set_invoked (mkMessage msg_id url data None) inv)]) w1).
Proof.
  intros Hs Hn Hm Hu Hnick Heq Hcmd. unfold _on_message.
  rewrite (bind_lift _ _ _ _ Hs), (bind_lift _ _ _ _ Hn), (bind_ok _ _ _ _ _ Hnick).
  rewrite Heq.
  rewrite (bind_lift _ _ _ _ Hm), (bind_lift _ _ _ _ Hu), (bind_ok _ _ _ _ _ Hcmd).
  apply invoke_eq.
Qed.

(** C3.  A MESG frame whose payload carries [user.name], [msg_id] and
    [channel_url].  When the sender's name equals the client's own nick
    the frame is dropped: nothing is called, neither hook nor command.
    Otherwise a message is built from the payload and handed to command
    resolution, and whatever that returns, matched command or not,
    [on_message] is then invoked with the message, with [invoked] set to
    what command resolution returned. *)
Theorem mesg_dispatch (raw : string)
  (data sender name own msg_id url : json) (w w0 : World) :
  str_take 4 raw = "MESG" ->
  json_loads (str_drop 4 raw) = Some data ->
  subscript data "user" = Ok sender ->
  subscript sender "name" = Ok name ->
  subscript data "msg_id" = Ok msg_id ->
  subscript data "channel_url" = Ok url ->
  nick w = (Ok own, w0) ->
  (py_eq name own = true ->
     resolve raw w = (Ok tt, w0) /\ log_grows (fun e => ~ is_call e) w w0)
  /\ (py_eq name own = false ->
      forall inv w1,
        resolve_command (mkMessage msg_id url data None) w0 = (Ok inv, w1) ->
        let message := set_invoked (mkMessage msg_id url data None) inv in
        resolve raw w =
        (hook_result (events w1) "on_message" [AMessage message],
         with_log
           (log w1 ++ hook_calls (events w1) "on_message" [AMessage message])
           w1)).
Proof.
  intros Hop Hload Hs Hn Hm Hu Hnick.
  assert (Hres : resolve raw w = _on_message "MESG" data w).
  { unfold resolve. by rewrite Hload, Hop. }
  rewrite Hres. split.
  - intros Heq. split; [by eapply on_message_own |].
    pose proof (nick_steady (fun e => ~ is_call e)) as Hst.
    specialize (Hst ltac:(simpl; auto) w). rewrite Hnick in Hst. apply Hst.
  - intros Heq inv w1 Hcmd. by eapply on_message_other.
Qed.

End Messages.

(** *** Channel updates *)

Section ChannelUpdates.
Context `{Externals}.

Lemma py_eq_int_hashable cat z : py_eq cat (JInt z) = true -> hashable cat = true.
Proof. destruct cat; simpl; intros; congruence. Qed.

Lemma codes_get_route {A} cat (k : (json -> M unit) -> M A) w :
  hashable cat = true ->
  bind (channel_update_codes_get cat) k w = k (route cat) w.
Proof.
  intros Hh. unfold bind, channel_update_codes_get, route. rewrite Hh.
  unfold ret, channel_update_codes. cbn [find fst snd].
  destruct (py_eq cat (JInt 10020)); [reflexivity |].
  destruct (py_eq cat (JInt 10001)); [reflexivity |].
  by destruct (py_eq cat (JInt 10000)).
Qed.

Lemma with_log_twice l1 l2 w :
  with_log (log (with_log (log w ++ l1) w) ++ l2) (with_log (log w ++ l1) w) =
  with_log (log w ++ l1 ++ l2) w.
Proof. unfold with_log; simpl. by rewrite app_assoc. Qed.

Lemma on_channel_update_eq key data url cat w :
  subscript data "channel_url" = Ok url ->
  subscript data "cat" = Ok cat ->
  hashable cat = true ->
  _on_channel_update key data w =
  bind (route cat data)
    (fun _ => bind (get_ev "on_channel_update")
                (fun f => f [AChannel (mkChannel url)])) w.
Proof.
  intros Hu Hc Hh. unfold _on_channel_update.
  rewrite (bind_lift _ _ _ _ Hu), (bind_lift _ _ _ _ Hc).
  by rewrite codes_get_route.
Qed.

Lemma resolve_syev raw data w :
  str_take 4 raw = "SYEV" ->
  json_loads (str_drop 4 raw) = Some data ->
  resolve raw w = _on_channel_update "SYEV" data w.
Proof. intros Hop Hload. unfold resolve. by rewrite Hload, Hop. Qed.

(** C4.  A SYEV frame whose payload carries [channel_url] and a [cat]
    that can be a dict key.  The frame goes to the invite handler for
    10020, to the user-exit handler for 10001, to the user-join handler
    for 10000 and to the registry default for any other [cat] ([route]);
    once that has returned, [on_channel_update] is invoked with the
    channel of [channel_url].  For a [cat] outside the table, with hooks that
    return, the only calls are the default's and [on_channel_update]'s
    and nothing is raised. *)
Theorem syev_dispatch (raw : string) (data url cat : json) (w : World) :
  str_take 4 raw = "SYEV" ->
  json_loads (str_drop 4 raw) = Some data ->
  subscript data "channel_url" = Ok url ->
  subscript data "cat" = Ok cat ->
  hashable cat = true ->
  let channel := mkChannel url in
  (route (JInt 10020) = _on_invite /\ route (JInt 10000) = _on_user_join /\
   route (JInt 10001) = _on_user_exit)
  /\ resolve raw w =
     bind (route cat data)
       (fun _ => bind (get_ev "on_channel_update")
                   (fun f => f [AChannel channel])) w
  /\ (forall w1, route cat data w = (Ok tt, w1) ->
       resolve raw w =
       (hook_result (events w1) "on_channel_update" [AChannel channel],
        with_log
          (log w1 ++ hook_calls (events w1) "on_channel_update" [AChannel channel])
          w1))
  /\ (py_eq cat (JInt 10020) = false -> py_eq cat (JInt 10001) = false ->
      py_eq cat (JInt 10000) = false -> hooks_return (events w) ->
      resolve raw w =
      (Ok tt,
       with_log
         (log w ++ default_calls (events w) [AJson data] ++
          hook_calls (events w) "on_channel_update" [AChannel channel]) w)).
Proof.
  intros Hop Hload Hu Hc Hh channel. subst channel.
  rewrite (resolve_syev _ _ _ Hop Hload), (on_channel_update_eq _ _ _ _ _ Hu Hc Hh).
  split; [by repeat split | split; [reflexivity | split]].
  - intros w1 Hsub. rewrite (bind_ok _ _ _ _ _ Hsub). apply invoke_eq.
  - intros N1 N2 N3 Hret. unfold route. rewrite N1, N2, N3.
    assert (Hdef : default_result (events w) [AJson data] = Ok tt).
    { unfold default_result. destruct (events w !! "on_default") eqn:E; eauto. }
    assert (Hupd : hook_result (events w) "on_channel_update"
                     [AChannel (mkChannel url)] = Ok tt).
    { unfold hook_result, default_result.
      destruct (events w !! "on_channel_update") eqn:E1; [eauto |].
      destruct (events w !! "on_default") eqn:E2; eauto. }
    erewrite bind_ok; [| rewrite default_event_eq, Hdef; reflexivity].
    rewrite invoke_eq. cbn [events with_log]. rewrite Hupd.
    by rewrite with_log_twice.
Qed.

Lemma on_invite_eq update me invited w w0 :
  user w = (Ok me, w0) ->
  invitees_contain (mkChannelInvite update) me = Ok invited ->
  let name := if invited : bool then "on_invite" else "on_invite_broadcast" in
  _on_invite update w =
  (hook_result (events w0) name [AInvite (mkChannelInvite update)],
   with_log
     (log w0 ++ hook_calls (events w0) name [AInvite (mkChannelInvite update)])
     w0).
Proof.
  intros Hme Hin name. unfold _on_invite.
  rewrite (bind_ok _ _ _ _ _ Hme), (bind_lift _ _ _ _ Hin).
  destruct invited; apply invoke_eq.
Qed.

Lemma user_keeps_events me w w0 : user w = (Ok me, w0) -> events w0 = events w.
Proof.
  intros Hme.
  assert (Hst : preserves (steady (fun _ => True)) user)
    by (apply user_steady; auto).
  specialize (Hst w). rewrite Hme in Hst. apply Hst.
Qed.

(** C5.  A SYEV frame with [cat] 10020, on a client with hooks under
    [on_invite] and [on_invite_broadcast].  An invite is built from the
    raw event and exactly one call is made for it: to the [on_invite]
    hook when the client's user is among the invitees, to the
    [on_invite_broadcast] hook when it is not.  When that hook returns,
    [on_channel_update] follows. *)
Theorem invite_dispatch (raw : string) (data url cat : json) (me : User)
  (invited : bool) (h_invite h_broadcast : Hook) (w w0 : World) :
  str_take 4 raw = "SYEV" ->
  json_loads (str_drop 4 raw) = Some data ->
  subscript data "channel_url" = Ok url ->
  subscript data "cat" = Ok cat ->
  py_eq cat (JInt 10020) = true ->
  user w = (Ok me, w0) ->
  invitees_contain (mkChannelInvite data) me = Ok invited ->
  events w !! "on_invite" = Some h_invite ->
  events w !! "on_invite_broadcast" = Some h_broadcast ->
  let invite := mkChannelInvite data in
  let chosen := if invited then h_invite else h_broadcast in
  hook_runs chosen [AInvite invite] = Ok tt ->
  resolve raw w =
  (hook_result (events w) "on_channel_update" [AChannel (mkChannel url)],
   with_log
     (log w0 ++ [Called chosen [AInvite invite]] ++
      hook_calls (events w) "on_channel_update" [AChannel (mkChannel url)]) w0).
Proof.
  intros Hop Hload Hu Hc Hcat Hme Hin H1 H2 invite chosen Hrun.
  subst invite chosen.
  pose proof (user_keeps_events _ _ _ Hme) as Hev.
  rewrite (resolve_syev _ _ _ Hop Hload).
  rewrite (on_channel_update_eq _ _ _ _ _ Hu Hc (py_eq_int_hashable _ _ Hcat)).
  unfold route. rewrite Hcat.
  assert (Hsub : _on_invite data w =
                 (Ok tt,
                  with_log
                    (log w0 ++
                     [Called (if invited then h_invite else h_broadcast)
                        [AInvite (mkChannelInvite data)]]) w0)).
  { rewrite (on_invite_eq _ _ _ _ _ Hme Hin). unfold hook_result, hook_calls.
    rewrite Hev. destruct invited.
    - rewrite H1. by rewrite Hrun.
    - rewrite H2. by rewrite Hrun. }
  rewrite (bind_ok _ _ _ _ _ Hsub), invoke_eq. cbn [events with_log].
  by rewrite with_log_twice, Hev.
Qed.

End ChannelUpdates.

(** *** The session *)

Section Session.
Context `{Externals}.

Lemma matches_get_cases key :
  matches_get key = _on_ping \/ matches_get key = _on_message \/
  (key = "LOGI" /\ matches_get key = _on_connect) \/
  matches_get key = _on_channel_update \/ matches_get key = _default_match.
Proof.
  unfold matches_get, matches. cbn [find fst snd].
  destruct (String.eqb "PING" key); [auto |].
  destruct (String.eqb "MESG" key); [auto |].
  destruct (String.eqb_spec "LOGI" key) as [<- |]; [auto |].
  destruct (String.eqb "SYEV" key); auto 10.
Qed.

Lemma on_connect_eq key data k w :
  subscript data "key" = Ok k ->
  _on_connect key data w =
  (hook_result (events w) "on_connect" [AJson data],
   with_log (log w ++ hook_calls (events w) "on_connect" [AJson data])
     (with_socket_connected true (with_session_key k w))).
Proof.
  intros Hk. unfold _on_connect. rewrite (bind_lift _ _ _ _ Hk).
  do 2 (erewrite bind_ok by reflexivity).
  rewrite invoke_eq. reflexivity.
Qed.

Lemma on_connect_no_key key data e w :
  subscript data "key" = Raise e -> _on_connect key data w = (Raise e, w).
Proof. intros Hk. unfold _on_connect, bind, lift. by rewrite Hk. Qed.

Lemma steady_keeps_invariant Q w w' :
  steady Q w w' -> session_invariant w -> session_invariant w'.
Proof.
  intros [[[K C] _] _] Hinv Hc. rewrite K. apply Hinv. by rewrite <- C.
Qed.

(** Dispatching a frame keeps the invariant, unless the frame is a LOGI
    whose [key] is null. *)
Lemma resolve_keeps_invariant raw w :
  session_invariant w ->
  (forall data, str_take 4 raw = "LOGI" ->
                json_loads (str_drop 4 raw) = Some data ->
                subscript data "key" <> Ok JNull) ->
  session_invariant (snd (resolve raw w)).
Proof.
  intros Hinv Hkey. unfold resolve.
  destruct (json_loads (str_drop 4 raw)) as [data |] eqn:Hload; [| exact Hinv].
  destruct (matches_get_cases (str_take 4 raw))
    as [E | [E | [[Hop E] | [E | E]]]]; rewrite E.
  - eapply steady_keeps_invariant; [| exact Hinv].
    apply (on_ping_steady (fun _ => True)); auto.
  - eapply steady_keeps_invariant; [| exact Hinv].
    apply (on_message_steady (fun _ => True)); auto.
  - destruct (subscript data "key") as [k | e] eqn:Hk.
    + rewrite (on_connect_eq _ _ _ _ Hk). intros _. cbn. intros ->.
      by eapply Hkey.
    + by rewrite (on_connect_no_key _ _ _ _ Hk).
  - eapply steady_keeps_invariant; [| exact Hinv].
    apply (on_channel_update_steady (fun _ => True)); auto.
  - exact Hinv.
Qed.

(** C6, as amended.  The LOGI handler takes [key] from the payload
    before it changes anything (a payload without [key] leaves the state
    as it was), stores it as the session key, sets [connected] and then
    invokes [on_connect] with the payload.  From a state where
    [connected] implies a session key, the implication holds again after
    any frame is dispatched, provided that a LOGI payload's [key] is not
    null, and after [login], [next_req_id] and each registration
    decorator. *)
Theorem session_key_when_connected (raw : string) (w : World) :
  (forall data k,
     str_take 4 raw = "LOGI" -> json_loads (str_drop 4 raw) = Some data ->
     subscript data "key" = Ok k ->
     resolve raw w =
     (hook_result (events w) "on_connect" [AJson data],
      with_log (log w ++ hook_calls (events w) "on_connect" [AJson data])
        (with_socket_connected true (with_session_key k w))))
  /\ (forall data e,
        str_take 4 raw = "LOGI" -> json_loads (str_drop 4 raw) = Some data ->
        subscript data "key" = Raise e -> resolve raw w = (Raise e, w))
  /\ (session_invariant w ->
      ((forall data, str_take 4 raw = "LOGI" ->
                     json_loads (str_drop 4 raw) = Some data ->
                     subscript data "key" <> Ok JNull) ->
       session_invariant (snd (resolve raw w)))
      /\ (forall email password force,
            session_invariant (snd (login email password force w)))
      /\ session_invariant (snd (next_req_id w))
      /\ (forall name method,
            session_invariant (snd (Handler_add name method w)) /\
            session_invariant (snd (Client_command name method w)) /\
            session_invariant (snd (Client_event name method w)))).
Proof.
  split; [| split].
  - intros data k Hop Hload Hk. unfold resolve. rewrite Hload, Hop.
    apply (on_connect_eq _ _ _ _ Hk).
  - intros data e Hop Hload Hk. unfold resolve. rewrite Hload, Hop.
    apply (on_connect_no_key _ _ _ _ Hk).
  - intros Hinv. split; [by apply resolve_keeps_invariant |].
    split; [| split; [exact Hinv | intros; repeat split; exact Hinv]].
    intros email password force.
    eapply steady_keeps_invariant; [| exact Hinv].
    apply (login_steady (fun _ => True)); auto.
Qed.

End Session.

(** *** The retry in [login] *)

Section Retry.
Context `{Externals}.

Lemma bind_raise {A B} (m : M A) (e : exn) (k : A -> M B) w w' :
  m w = (Raise e, w') -> bind m k w = (Raise e, w').
Proof. unfold bind. by intros ->. Qed.

Lemma headers_eq w : headers w = (Ok (headers_of (token w)), w).
Proof. reflexivity. Qed.

Lemma requests_get_eq url hs r rest w :
  responses w = r :: rest ->
  requests_get url hs w =
  (Ok r, with_responses rest (with_log (log w ++ [HttpGet url hs]) w)).
Proof.
  intros Hr. unfold requests_get, bind, emit, modify, gets, ret; simpl.
  by rewrite Hr.
Qed.

Lemma requests_get_empty url hs w :
  responses w = [] ->
  requests_get url hs w =
  (Raise ConnectionError, with_log (log w ++ [HttpGet url hs]) w).
Proof.
  intros Hr. unfold requests_get, bind, emit, modify, gets, raise; simpl.
  by rewrite Hr.
Qed.

Lemma requests_post_eq url hs data r rest w :
  responses w = r :: rest ->
  requests_post url hs data w =
  (Ok r, with_responses rest (with_log (log w ++ [HttpPost url hs data]) w)).
Proof.
  intros Hr. unfold requests_post, bind, emit, modify, gets, ret; simpl.
  by rewrite Hr.
Qed.

Lemma requests_post_empty url hs data w :
  responses w = [] ->
  requests_post url hs data w =
  (Raise ConnectionError, with_log (log w ++ [HttpPost url hs data]) w).
Proof.
  intros Hr. unfold requests_post, bind, emit, modify, gets, raise; simpl.
  by rewrite Hr.
Qed.

Lemma time_sleep_eq seconds w :
  time_sleep seconds w = (Ok tt, with_log (log w ++ [Sleep seconds]) w).
Proof. reflexivity. Qed.

Lemma token_request_retry_eq hs data r1 r2 rest w :
  responses w = r1 :: r2 :: rest ->
  status_code r1 = 403 ->
  token_request hs data w =
  (Ok r2,
   with_log
     (log w ++ [HttpPost (api +:+ "/oauth2/token") hs data; Sleep 10;
                HttpPost (api +:+ "/oauth2/token") hs data])
     (with_responses rest w)).
Proof.
  intros Hr E1. apply Z.eqb_eq in E1. unfold token_request.
  generalize (api +:+ "/oauth2/token"). intros url.
  rewrite (bind_ok _ _ _ _ _ (requests_post_eq _ _ _ _ _ _ Hr)), E1.
  rewrite (bind_ok _ _ _ _ _ (time_sleep_eq _ _)).
  rewrite (requests_post_eq _ _ _ r2 rest) by reflexivity.
  unfold with_log, with_responses.
  cbn [events prefix commands authenticated token client_id client_user
       sendbird_session_key sendbird_req_id update_flag account_data_payload
       config socket_connected clock_ms responses urandom_hex log].
  by rewrite <- !app_assoc.
Qed.

Lemma token_request_once_eq hs data r1 rest w :
  responses w = r1 :: rest ->
  status_code r1 <> 403 ->
  token_request hs data w =
  (Ok r1,
   with_responses rest
     (with_log (log w ++ [HttpPost (api +:+ "/oauth2/token") hs data]) w)).
Proof.
  intros Hr E1. apply Z.eqb_neq in E1. unfold token_request.
  by rewrite (bind_ok _ _ _ _ _ (requests_post_eq _ _ _ _ _ _ Hr)), E1.
Qed.

Lemma accept_token_rejects email response w :
  status_code response <> 200 ->
  accept_token email response w =
  (Raise (BadAPIResponse (resp_url response +:+ ", " +:+ resp_text response)), w).
Proof.
  intros E. apply Z.eqb_neq in E. unfold accept_token. by rewrite E.
Qed.

(** The token request asks once, or asks, sleeps 10 and asks again. *)
Lemma token_request_log hs data w :
  let post := HttpPost (api +:+ "/oauth2/token") hs data in
  exists mid,
    log (snd (token_request hs data w)) = log w ++ mid /\
    (mid = [post] \/ mid = [post; Sleep 10; post]).
Proof.
  intros post. unfold token_request.
  destruct (responses w) as [| r1 rest] eqn:Hr.
  { rewrite (bind_raise _ _ _ _ _ (requests_post_empty _ _ _ _ Hr)).
    exists [post]. auto. }
  rewrite (bind_ok _ _ _ _ _ (requests_post_eq _ _ _ _ _ _ Hr)).
  destruct (status_code r1 =? 403); [| exists [post]; auto].
  rewrite (bind_ok _ _ _ _ _ (time_sleep_eq _ _)).
  exists [post; Sleep 10; post]. split; [| auto].
  destruct rest as [| r2 rest'].
  - rewrite requests_post_empty by reflexivity. cbn. by rewrite <- !app_assoc.
  - rewrite (requests_post_eq _ _ _ r2 rest') by reflexivity. cbn.
    by rewrite <- !app_assoc.
Qed.

Lemma accept_token_steady Q email response :
  (forall cfg, Q (ConfigWritten cfg)) ->
  preserves (steady Q) (accept_token email response).
Proof.
  intros Qc. unfold accept_token, response_json.
  repeat first [apply update_config_steady; exact Qc | steady_step].
Qed.

Lemma resolve_log_grows Q raw w :
  (forall h args, Q (Called h args)) ->
  (forall c m words, Q (CommandCalled c m words)) ->
  (forall url hs, Q (HttpGet url hs)) ->
  log_grows Q w (snd (resolve raw w)).
Proof.
  intros Qc Qm Qg. unfold resolve.
  destruct (json_loads (str_drop 4 raw)) as [data |];
    [| exists []; by rewrite app_nil_r].
  destruct (matches_get_cases (str_take 4 raw))
    as [E | [E | [[Hop E] | [E | E]]]]; rewrite E.
  - by apply on_ping_steady.
  - by apply on_message_steady.
  - destruct (subscript data "key") as [k | e] eqn:Hk.
    + rewrite (on_connect_eq _ _ _ _ Hk). cbn.
      eexists. split; [reflexivity |].
      unfold hook_calls, default_calls. repeat case_match; repeat constructor; auto.
    + rewrite (on_connect_no_key _ _ _ _ Hk). exists []. by rewrite app_nil_r.
  - by apply on_channel_update_steady.
  - exists []. by rewrite app_nil_r.
Qed.

(** *** Which requests depend on a status code *)

Lemma ignores_status_blind {A} (m : M A) : ignores_status m -> status_blind m.
Proof.
  intros Hm w w' Hb.
  pose proof (Hm w) as E. pose proof (Hm w') as E'. rewrite Hb in E.
  rewrite E in E'.
  assert (E2 : blur (snd (m w)) = blur (snd (m w'))) by exact (f_equal snd E').
  repeat split; [exact (f_equal fst E') | | exact E2].
  change (log (blur (snd (m w))) = log (blur (snd (m w')))). by rewrite E2.
Qed.

Lemma blind_ret {A} (a : A) : ignores_status (ret a).
Proof. intros w. reflexivity. Qed.

Lemma blind_raise {A} e : ignores_status (@raise A e).
Proof. intros w. reflexivity. Qed.

Lemma blind_lift {A} (r : result A) : ignores_status (lift r).
Proof. intros w. reflexivity. Qed.

Lemma blind_load_global globals name : ignores_status (load_global globals name).
Proof. intros w. unfold load_global. by case_match. Qed.

Lemma blind_gets {A} (f : World -> A) :
  (forall w, f (blur w) = f w) -> ignores_status (gets f).
Proof. intros Hf w. unfold gets. by rewrite Hf. Qed.

Lemma blind_modify (f : World -> World) :
  (forall w, f (blur w) = blur (f w)) -> ignores_status (modify f).
Proof. intros Hf w. unfold modify. by rewrite Hf. Qed.

Lemma blind_emit e : ignores_status (emit e).
Proof. intros w. reflexivity. Qed.

Lemma blind_bind {A B} (m : M A) (k : A -> M B) :
  ignores_status m -> (forall a, ignores_status (k a)) ->
  ignores_status (bind m k).
Proof.
  intros Hm Hk w. unfold bind. rewrite Hm.
  destruct (m w) as [[a | e] w1]; simpl; [apply Hk | reflexivity].
Qed.

(** A request whose reply is used for something else than its status. *)
Lemma blind_requests_get {A} url hs (k : Response -> M A) :
  (forall r, k (forget_status r) = k r) -> (forall r, ignores_status (k r)) ->
  ignores_status (bind (requests_get url hs) k).
Proof.
  intros Hf Hk w.
  destruct (responses w) as [| r rest] eqn:Hr.
  - rewrite (bind_raise _ _ _ _ _ (requests_get_empty url hs w Hr)).
    rewrite (bind_raise _ _ _ _ _ (requests_get_empty url hs (blur w)
               ltac:(by cbn; rewrite Hr))).
    reflexivity.
  - rewrite (bind_ok _ _ _ _ _ (requests_get_eq url hs r rest w Hr)).
    rewrite (bind_ok _ _ _ _ _ (requests_get_eq url hs (forget_status r)
               (map forget_status rest) (blur w) ltac:(by cbn; rewrite Hr))).
    rewrite Hf.
    apply (Hk r (with_responses rest (with_log (log w ++ [HttpGet url hs]) w))).
Qed.

(** One step of a proof that a method ignores the status codes. *)
Ltac blind_step :=
  first
    [ apply blind_ret
    | apply blind_raise
    | apply blind_lift
    | apply blind_load_global
    | apply blind_emit
    | apply blind_gets; intros ?; reflexivity
    | apply blind_modify; intros ?; reflexivity
    | apply blind_requests_get; [intros ?; reflexivity | intros ?]
    | apply blind_bind; [| intros ?]
    | case_match ].

Lemma call_hook_blind h args : ignores_status (call_hook h args).
Proof. unfold call_hook. repeat blind_step. Qed.

Lemma default_event_blind args : ignores_status (_default_event args).
Proof.
  unfold _default_event. repeat first [apply call_hook_blind | blind_step].
Qed.

Lemma get_ev_blind {A} key (k : (list arg -> M unit) -> M A) :
  (forall h, ignores_status (k (call_hook h))) ->
  ignores_status (k _default_event) ->
  ignores_status (bind (get_ev key) k).
Proof.
  intros Hh Hd w. rewrite !get_ev_bind.
  change (events (blur w)) with (events w).
  destruct (events w !! key); [apply Hh | apply Hd].
Qed.

Lemma invoke_blind key args :
  ignores_status (bind (get_ev key) (fun f => f args)).
Proof.
  apply get_ev_blind; intros; [apply call_hook_blind | apply default_event_blind].
Qed.

Lemma headers_blind : ignores_status headers.
Proof. unfold headers. repeat blind_step. Qed.

Lemma account_data_blind : ignores_status __account_data.
Proof.
  unfold __account_data, response_json.
  repeat first [apply headers_blind | blind_step].
Qed.

Lemma get_prop_blind key force : ignores_status (_get_prop key force).
Proof.
  unfold _get_prop. repeat first [apply account_data_blind | blind_step].
Qed.

Lemma id_blind : ignores_status id.
Proof. unfold id. repeat first [apply get_prop_blind | blind_step]. Qed.

Lemma user_blind : ignores_status user.
Proof. unfold user. repeat first [apply id_blind | blind_step]. Qed.

Lemma call_command_blind name message args :
  ignores_status (call_command name message args).
Proof. unfold call_command. repeat blind_step. Qed.

Lemma resolve_command_blind message : ignores_status (resolve_command message).
Proof.
  unfold resolve_command. repeat blind_step.
  match goal with |- ignores_status (resolve_command_loop ?ps _ _ _) =>
    induction ps as [| p ps IH] end; simpl.
  - blind_step.
  - case_match; [apply call_command_blind | apply IH].
Qed.

Lemma on_message_blind key data : ignores_status (_on_message key data).
Proof.
  unfold _on_message, nick.
  repeat first [apply get_prop_blind | apply resolve_command_blind
               | apply invoke_blind | blind_step].
Qed.

Lemma on_ping_blind key data : ignores_status (_on_ping key data).
Proof.
  unfold _on_ping, socket_send.
  apply get_ev_blind; intros;
    repeat first [apply call_hook_blind | apply default_event_blind | blind_step].
Qed.

Lemma on_connect_blind key data : ignores_status (_on_connect key data).
Proof. unfold _on_connect. repeat first [apply invoke_blind | blind_step]. Qed.

Lemma on_invite_blind update : ignores_status (_on_invite update).
Proof.
  unfold _on_invite.
  repeat first [apply user_blind | apply invoke_blind | blind_step].
Qed.

Lemma on_user_exit_blind data : ignores_status (_on_user_exit data).
Proof. unfold _on_user_exit. repeat first [apply invoke_blind | blind_step]. Qed.

Lemma on_user_join_blind data : ignores_status (_on_user_join data).
Proof. unfold _on_user_join. repeat first [apply invoke_blind | blind_step]. Qed.

Lemma route_blind cat data : ignores_status (route cat data).
Proof.
  unfold route.
  repeat first [apply on_invite_blind | apply on_user_exit_blind
               | apply on_user_join_blind | apply default_event_blind
               | case_match].
Qed.

Lemma on_channel_update_blind key data :
  ignores_status (_on_channel_update key data).
Proof.
  unfold _on_channel_update.
  do 2 (apply blind_bind; [blind_step | intros ?]).
  intros w. destruct (hashable a0) eqn:Hh.
  - rewrite !codes_get_route by exact Hh.
    revert w. apply blind_bind; [apply route_blind | intros ?; apply invoke_blind].
  - unfold bind at 1 3 4, channel_update_codes_get. rewrite Hh. reflexivity.
Qed.

Lemma resolve_blind raw : ignores_status (resolve raw).
Proof.
  unfold resolve.
  destruct (json_loads (str_drop 4 raw)) as [data |]; [| apply blind_raise].
  destruct (matches_get_cases (str_take 4 raw))
    as [E | [E | [[Hop E] | [E | E]]]]; rewrite E.
  - apply on_ping_blind.
  - apply on_message_blind.
  - apply on_connect_blind.
  - apply on_channel_update_blind.
  - unfold _default_match. blind_step.
Qed.

Lemma unread_notifications_count_blind :
  ignores_status unread_notifications_count.
Proof.
  unfold unread_notifications_count, response_json.
  repeat first [apply headers_blind | blind_step].
Qed.

(** *** How many requests each method makes *)

Lemma requests_post_files_eq url hs data files r rest w :
  responses w = r :: rest ->
  requests_post_files url hs data files w =
  (Ok r,
   with_responses rest (with_log (log w ++ [HttpPostFiles url hs data files]) w)).
Proof.
  intros Hr. unfold requests_post_files, bind, emit, modify, gets, ret; simpl.
  by rewrite Hr.
Qed.

Lemma requests_post_files_empty url hs data files w :
  responses w = [] ->
  requests_post_files url hs data files w =
  (Raise ConnectionError, with_log (log w ++ [HttpPostFiles url hs data files]) w).
Proof.
  intros Hr. unfold requests_post_files, bind, emit, modify, gets, raise; simpl.
  by rewrite Hr.
Qed.

Lemma requests_get_params_eq url params hs r rest w :
  responses w = r :: rest ->
  requests_get_params url params hs w =
  (Ok r,
   with_responses rest (with_log (log w ++ [HttpGetParams url params hs]) w)).
Proof.
  intros Hr. unfold requests_get_params, bind, emit, modify, gets, ret; simpl.
  by rewrite Hr.
Qed.

Lemma requests_get_params_empty url params hs w :
  responses w = [] ->
  requests_get_params url params hs w =
  (Raise ConnectionError, with_log (log w ++ [HttpGetParams url params hs]) w).
Proof.
  intros Hr. unfold requests_get_params, bind, emit, modify, gets, raise; simpl.
  by rewrite Hr.
Qed.

Lemma sendbird_headers_eq w :
  sendbird_headers w = (Ok (sendbird_headers_of (sendbird_session_key w)), w).
Proof. reflexivity. Qed.

(** [post_image]: one request, whatever the reply. *)
Lemma post_image_eq image_data tags visibility w :
  post_image image_data tags visibility w =
  match responses w with
  | r :: rest =>
      (Ok (status_code r =? 202),
       with_responses rest
         (with_log (log w ++ [content_post (token w) image_data tags visibility])
            w))
  | [] =>
      (Raise ConnectionError,
       with_log (log w ++ [content_post (token w) image_data tags visibility]) w)
  end.
Proof.
  unfold post_image. rewrite (bind_ok _ _ _ _ _ (headers_eq w)).
  destruct (responses w) as [| r rest] eqn:Hr.
  - by rewrite (bind_raise _ _ _ _ _ (requests_post_files_empty _ _ _ _ _ Hr)).
  - by rewrite (bind_ok _ _ _ _ _ (requests_post_files_eq _ _ _ _ _ _ _ Hr)).
Qed.

Lemma post_image_log image_data tags visibility w :
  log (snd (post_image image_data tags visibility w)) =
  log w ++ [content_post (token w) image_data tags visibility].
Proof. rewrite post_image_eq. by destruct (responses w). Qed.

Lemma post_image_url_log image_url tags visibility w :
  exists tail,
    log (snd (post_image_url image_url tags visibility w)) =
    log w ++ HttpGet image_url [] :: tail /\
    (tail = [] \/
     exists image_data,
       tail = [content_post (token w) image_data tags visibility]).
Proof.
  unfold post_image_url.
  destruct (responses w) as [| r rest] eqn:Hr.
  - rewrite (bind_raise _ _ _ _ _ (requests_get_empty _ _ _ Hr)).
    exists []. auto.
  - rewrite (bind_ok _ _ _ _ _ (requests_get_eq _ _ _ _ _ Hr)).
    eexists. split; [| right; eexists; reflexivity].
    rewrite post_image_log. cbn. by rewrite <- app_assoc.
Qed.

Lemma sendbird_upload_log channel file_data w :
  log (snd (sendbird_upload channel file_data w)) =
  log w ++ [upload_post (sendbird_session_key w) channel file_data].
Proof.
  unfold sendbird_upload. rewrite (bind_ok _ _ _ _ _ (sendbird_headers_eq w)).
  destruct (responses w) as [| r rest] eqn:Hr.
  - by rewrite (bind_raise _ _ _ _ _ (requests_post_files_empty _ _ _ _ _ Hr)).
  - rewrite (bind_ok _ _ _ _ _ (requests_post_files_eq _ _ _ _ _ _ _ Hr)).
    destruct (negb (status_code r =? 200)); [reflexivity |].
    unfold response_json, bind, lift, ret, raise.
    destruct (resp_json r) as [body |]; [| reflexivity].
    by destruct (subscript body "url").
Qed.

Lemma unread_notifications_count_log w :
  log (snd (unread_notifications_count w)) = log w ++ [counters_get (token w)].
Proof.
  unfold unread_notifications_count. rewrite (bind_ok _ _ _ _ _ (headers_eq w)).
  destruct (responses w) as [| r rest] eqn:Hr.
  - by rewrite (bind_raise _ _ _ _ _ (requests_get_empty _ _ _ Hr)).
  - rewrite (bind_ok _ _ _ _ _ (requests_get_eq _ _ _ _ _ Hr)).
    unfold response_json, bind, lift, ret, raise.
    destruct (resp_json r) as [body |]; [| reflexivity].
    destruct (subscript body "data") as [d |]; [| reflexivity].
    by destruct (subscript d "news").
Qed.

(** Reading the account data asks at most once. *)
Lemma account_data_log w :
  token (snd (__account_data w)) = token w /\
  sendbird_session_key (snd (__account_data w)) = sendbird_session_key w /\
  (log (snd (__account_data w)) = log w \/
   log (snd (__account_data w)) = log w ++ [account_get (token w)]).
Proof.
  unfold __account_data. do 2 (erewrite bind_ok by reflexivity).
  destruct (update_flag w || _); [| by auto].
  match goal with |- context [bind ?m _ w] => set (inner := m) end.
  assert (Hin : token (snd (inner w)) = token w /\
                sendbird_session_key (snd (inner w)) = sendbird_session_key w /\
                log (snd (inner w)) = log w ++ [account_get (token w)]).
  { subst inner. erewrite bind_ok by reflexivity.
    rewrite (bind_ok _ _ _ _ _ (headers_eq _)).
    destruct (responses w) as [| r rest] eqn:Hr.
    - erewrite bind_raise by (apply requests_get_empty; exact Hr). cbn. auto.
    - erewrite bind_ok by (apply requests_get_eq; exact Hr).
      unfold response_json, bind, lift, ret, raise, modify, gets.
      destruct (resp_json r) as [body |]; [| cbn; auto].
      destruct (subscript body "data") as [d |]; cbn; auto. }
  clearbody inner. unfold bind, gets, ret.
  destruct (inner w) as [[[] | e] w1]; cbn in *; tauto.
Qed.

Lemma account_gets_twice t (w w1 w2 : World) :
  (log w1 = log w \/ log w1 = log w ++ [account_get t]) ->
  (log w2 = log w1 \/ log w2 = log w1 ++ [account_get t]) ->
  exists l, log w2 = log w ++ l /\ account_gets t l.
Proof.
  unfold account_gets. intros [L1 | L1] [L2 | L2]; rewrite L2, L1.
  - exists []. rewrite app_nil_r. auto.
  - eexists. split; [reflexivity | auto].
  - eexists. split; [reflexivity | auto].
  - rewrite <- app_assoc. eexists. split; [reflexivity | auto].
Qed.

(** [_get_prop] asks at most twice, with the same request. *)
Lemma get_prop_log key force w : account_read w (snd (_get_prop key force w)).
Proof.
  unfold _get_prop.
  destruct (account_data_log w) as (T1 & K1 & L1).
  assert (Hstop : account_read w (snd (__account_data w))).
  { split; [done | split; [done |]].
    apply (account_gets_twice _ w (snd (__account_data w))); auto. }
  unfold bind at 1. destruct (__account_data w) as [[d | e] w1]; cbn [snd] in *;
    [| exact Hstop].
  unfold bind at 1, lift at 1.
  destruct (dict_method_get d key) as [v | e]; cbn [snd]; [| exact Hstop].
  unfold bind at 1.
  assert (Hflag : exists w1',
            (if negb (py_truthy v) || force then modify (with_update_flag true)
             else ret tt) w1 = (Ok tt, w1') /\
            token w1' = token w1 /\
            sendbird_session_key w1' = sendbird_session_key w1 /\
            log w1' = log w1).
  { destruct (negb (py_truthy v) || force); eexists; split; try reflexivity;
      auto. }
  destruct Hflag as (w1' & -> & T' & K' & L').
  destruct (account_data_log w1') as (T2 & K2 & L2).
  rewrite T', L' in *. rewrite T1 in *.
  assert (Hend : account_read w (snd (__account_data w1'))).
  { split; [congruence | split; [congruence |]].
    apply (account_gets_twice _ w w1); auto. }
  unfold bind, lift.
  destruct (__account_data w1') as [[d2 | e2] w2]; cbn [snd] in *;
    [| exact Hend].
  by destruct (dict_method_get d2 key).
Qed.

Lemma account_read_refl w : account_read w w.
Proof.
  split; [done | split; [done |]].
  exists []. rewrite app_nil_r. split; [done | by left].
Qed.

Lemma id_log w : account_read w (snd (id w)).
Proof.
  unfold id. erewrite bind_ok by reflexivity.
  destruct (negb (py_truthy (client_id w))).
  - pose proof (get_prop_log "id" false w) as Hp.
    unfold bind, modify, gets.
    destruct (_get_prop "id" false w) as [[v | e] w1]; exact Hp.
  - apply account_read_refl.
Qed.

(** [_channels_paginated]: the account data may be read for the id, then
    one request with [limit] at most 100, whatever the reply. *)
Lemma channels_paginated_log limit next prev show_empty show_read_recipt
  show_member public_mode super_mode distinct_mode member_state_filter order w :
  exists l tail,
    log (snd (_channels_paginated limit next prev show_empty show_read_recipt
                show_member public_mode super_mode distinct_mode
                member_state_filter order w)) = log w ++ l ++ tail /\
    account_gets (token w) l /\
    (tail = [] \/
     exists e, tail = [e] /\ is_channels_get (Z.min limit 100) e).
Proof.
  unfold _channels_paginated.
  destruct (id_log w) as (T & K & l & L & Hl).
  exists l. unfold bind at 1.
  destruct (id w) as [[i | e] w1]; cbn [snd] in *.
  2: { exists []. rewrite app_nil_r. auto. }
  rewrite (bind_ok _ _ _ _ _ (sendbird_headers_eq w1)).
  match goal with
  | |- context [requests_get_params ?u ?p ?h] => set (req := HttpGetParams u p h)
  end.
  exists [req].
  split; [| split; [exact Hl | right; exists req; split; reflexivity]].
  destruct (responses w1) as [| r rest] eqn:Hr.
  - erewrite bind_raise by (apply requests_get_params_empty; exact Hr).
    cbn. by rewrite L, <- app_assoc.
  - erewrite bind_ok by (apply requests_get_params_eq; exact Hr).
    destruct (negb (status_code r =? 200)); [cbn; by rewrite L, <- app_assoc |].
    unfold response_json, bind, lift, ret, raise.
    destruct (resp_json r) as [body |]; [| cbn; by rewrite L, <- app_assoc].
    destruct (subscript body "next"); [| cbn; by rewrite L, <- app_assoc].
    destruct (subscript body "channels") as [chans |];
      [| cbn; by rewrite L, <- app_assoc].
    destruct (py_iter chans) as [items |]; [| cbn; by rewrite L, <- app_assoc].
    destruct (channel_items items); cbn; by rewrite L, <- app_assoc.
Qed.

(** *** The requests and sleeps of [login] *)

Lemma traffic_app l1 l2 : traffic (l1 ++ l2) = traffic l1 ++ traffic l2.
Proof. apply List.filter_app. Qed.

Lemma traffic_silent l :
  Forall (fun e => is_traffic e = false) l -> traffic l = [].
Proof.
  induction 1 as [| e l He _ IH]; [reflexivity |].
  unfold traffic in *. simpl. by rewrite He.
Qed.

Lemma login_token_returns w : exists lt w0, __login_token w = (Ok lt, w0).
Proof.
  unfold __login_token. erewrite bind_ok by reflexivity.
  destruct (py_truthy _); eexists _, _; reflexivity.
Qed.

Lemma password_grant_traffic email password w :
  exists lt l,
    log (snd (password_grant email password w)) = log w ++ l /\
    (traffic l = [token_post lt email password] \/
     traffic l = [token_post lt email password; Sleep 10;
                  token_post lt email password]).
Proof.
  destruct (login_token_returns w) as (lt & w0 & Hlt).
  assert (Hq : forall cfg, is_traffic (ConfigWritten cfg) = false) by done.
  pose proof (login_token_steady (fun e => is_traffic e = false) Hq w)
    as [_ (l0 & L0 & Q0)].
  rewrite Hlt in L0. cbn [snd] in L0.
  unfold password_grant. rewrite (bind_ok _ _ _ _ _ Hlt).
  destruct (token_request_log
              [("Authorization", "Basic " +:+ py_str lt)]
              [("grant_type", "password"); ("username", email);
               ("password", password)] w0) as (mid & Hmid & Hshape).
  exists lt. unfold bind.
  destruct (token_request _ _ w0) as [[response | e] w1]; cbn [snd] in *.
  - pose proof (accept_token_steady (fun e => is_traffic e = false) email
                  response Hq w1) as [_ (tail & Htl & Qt)].
    exists (l0 ++ mid ++ tail). split.
    + by rewrite Htl, Hmid, L0, <- !app_assoc.
    + rewrite !traffic_app, (traffic_silent _ Q0), (traffic_silent _ Qt).
      rewrite app_nil_r. destruct Hshape as [-> | ->]; auto.
  - exists (l0 ++ mid). split.
    + by rewrite Hmid, L0, <- !app_assoc.
    + rewrite traffic_app, (traffic_silent _ Q0).
      destruct Hshape as [-> | ->]; auto.
Qed.

(** [login] asks the account endpoint at most once, and the token
    endpoint once, or twice with a sleep of 10 in between. *)
Lemma login_traffic email password force w :
  exists l lt,
    log (snd (login email password force w)) = log w ++ l /\
    let get := account_get (default JNull (config w !! (email +:+ "_token"))) in
    let post := token_post lt email password in
    In (traffic l)
       [[]; [get]; [get; post]; [get; post; Sleep 10; post];
        [post]; [post; Sleep 10; post]].
Proof.
  unfold login. erewrite bind_ok by reflexivity.
  destruct (authenticated w) eqn:Ha.
  { unfold bind at 1. rewrite AlreadyAuthenticated_is_not_global.
    exists [], JNull. rewrite app_nil_r. split; [reflexivity | by left]. }
  erewrite bind_ok by reflexivity.
  set (cached := default JNull (config w !! (email +:+ "_token"))).
  destruct (negb force && py_truthy cached).
  2: { destruct (password_grant_traffic email password w) as (lt & l & L & Hs).
       exists l, lt. split; [exact L |].
       destruct Hs as [-> | ->]; simpl; auto 10. }
  erewrite bind_ok by reflexivity.
  rewrite (bind_ok _ _ _ _ _ (headers_eq _)).
  change (token (with_token cached w)) with cached.
  destruct (responses w) as [| r rest] eqn:Hr.
  { erewrite bind_raise by (apply requests_get_empty; exact Hr).
    exists [account_get cached], JNull. split; [reflexivity | simpl; auto]. }
  erewrite bind_ok by (apply requests_get_eq; exact Hr).
  destruct (status_code r =? 200).
  { exists [account_get cached], JNull. split; [reflexivity | simpl; auto]. }
  match goal with
  | |- context [password_grant _ _ ?w2] =>
      destruct (password_grant_traffic email password w2) as (lt & l & L & Hs)
  end.
  exists (account_get cached :: l), lt. split.
  - rewrite L. cbn. by rewrite <- app_assoc.
  - change (account_get cached :: l) with ([account_get cached] ++ l).
    rewrite traffic_app. destruct Hs as [-> | ->]; simpl; auto 10.
Qed.

(** *** The requests of a dispatch *)

Lemma silent_reads w w' :
  steady (fun e => is_traffic e = false) w w' -> reads_account_only w w'.
Proof.
  intros [_ (l & L & Hl)]. exists l. split; [exact L |].
  rewrite (traffic_silent _ Hl). by left.
Qed.

Lemma account_read_reads w w' : account_read w w' -> reads_account_only w w'.
Proof.
  intros (_ & _ & l & L & Hl). exists l. split; [exact L |].
  destruct Hl as [-> | [-> | ->]]; [by left | right; by left | right; by right].
Qed.

Lemma reads_bind_silent {A B} (m : M A) (k : A -> M B) w :
  reads_account_only w (snd (m w)) ->
  (forall a, preserves (steady (fun e => is_traffic e = false)) (k a)) ->
  reads_account_only w (snd (bind m k w)).
Proof.
  intros Hm Hk. unfold bind.
  destruct (m w) as [[a | e] w1]; cbn [snd] in *; [| exact Hm].
  destruct Hm as (l & L & Hl). destruct (Hk a w1) as [_ (l2 & L2 & H2)].
  exists (l ++ l2). split; [by rewrite L2, L, app_assoc |].
  by rewrite traffic_app, (traffic_silent _ H2), app_nil_r.
Qed.

Lemma user_log w : account_read w (snd (user w)).
Proof.
  unfold user. erewrite bind_ok by reflexivity.
  destruct (client_user w); [apply account_read_refl |].
  pose proof (id_log w) as Hi. unfold bind, modify, ret.
  destruct (id w) as [[i | e] w1]; exact Hi.
Qed.

Lemma on_message_traffic key data w :
  reads_account_only w (snd (_on_message key data w)).
Proof.
  unfold _on_message.
  destruct (subscript data "user") as [sender | e];
    [| apply account_read_reads, account_read_refl].
  rewrite (bind_lift _ _ _ _ eq_refl).
  destruct (subscript sender "name") as [name | e];
    [| apply account_read_reads, account_read_refl].
  rewrite (bind_lift _ _ _ _ eq_refl).
  apply reads_bind_silent; [apply account_read_reads, get_prop_log |].
  intros own.
  repeat first [apply resolve_command_steady; done | apply invoke_steady; done
               | steady_step].
Qed.

Lemma on_invite_traffic update w :
  reads_account_only w (snd (_on_invite update w)).
Proof.
  unfold _on_invite.
  apply reads_bind_silent; [apply account_read_reads, user_log |].
  intros me. repeat first [apply invoke_steady; done | steady_step].
Qed.

Lemma route_traffic cat data w :
  reads_account_only w (snd (route cat data w)).
Proof.
  unfold route.
  destruct (py_eq cat (JInt 10020)); [apply on_invite_traffic |].
  destruct (py_eq cat (JInt 10001));
    [apply silent_reads; by apply on_user_exit_steady |].
  destruct (py_eq cat (JInt 10000));
    [apply silent_reads; by apply on_user_join_steady |].
  apply silent_reads. by apply default_event_steady.
Qed.

Lemma on_channel_update_traffic key data w :
  reads_account_only w (snd (_on_channel_update key data w)).
Proof.
  unfold _on_channel_update.
  destruct (subscript data "channel_url") as [url | e];
    [| apply account_read_reads, account_read_refl].
  rewrite (bind_lift _ _ _ _ eq_refl).
  destruct (subscript data "cat") as [cat | e];
    [| apply account_read_reads, account_read_refl].
  rewrite (bind_lift _ _ _ _ eq_refl).
  destruct (hashable cat) eqn:Hh.
  - rewrite codes_get_route by exact Hh.
    apply reads_bind_silent; [apply route_traffic |].
    intros _. by apply invoke_steady.
  - unfold bind at 1, channel_update_codes_get. rewrite Hh.
    apply account_read_reads, account_read_refl.
Qed.

(** Dispatching a frame makes at most two requests, both to the account
    endpoint. *)
Lemma resolve_traffic raw w : reads_account_only w (snd (resolve raw w)).
Proof.
  unfold resolve.
  destruct (json_loads (str_drop 4 raw)) as [data |];
    [| apply account_read_reads, account_read_refl].
  destruct (matches_get_cases (str_take 4 raw))
    as [E | [E | [[Hop E] | [E | E]]]]; rewrite E.
  - apply silent_reads. by apply on_ping_steady.
  - apply on_message_traffic.
  - destruct (subscript data "key") as [k | e] eqn:Hk.
    + rewrite (on_connect_eq _ _ _ _ Hk). cbn [snd].
      exists (hook_calls (events w) "on_connect" [AJson data]).
      split; [reflexivity |].
      unfold hook_calls, default_calls. repeat case_match; by left.
    + rewrite (on_connect_no_key _ _ _ _ Hk).
      apply account_read_reads, account_read_refl.
  - apply on_channel_update_traffic.
  - apply account_read_reads, account_read_refl.
Qed.

Lemma login_reaches_grant email password force w :
  authenticated w = false ->
  force = true \/
  py_truthy (default JNull (config w !! (email +:+ "_token"))) = false ->
  login email password force w = password_grant email password w.
Proof.
  intros Ha Hwhy. unfold login. erewrite bind_ok by reflexivity. rewrite Ha.
  erewrite bind_ok by reflexivity.
  destruct Hwhy as [-> | ->]; [reflexivity | by rewrite andb_false_r].
Qed.

(** [login] with a cached token that the account endpoint refuses. *)
Lemma login_refused_reaches_grant email password r rest w :
  authenticated w = false ->
  py_truthy (default JNull (config w !! (email +:+ "_token"))) = true ->
  responses w = r :: rest ->
  status_code r <> 200 ->
  login email password false w =
  password_grant email password
    (with_responses rest
       (with_log
          (log w ++
           [account_get (default JNull (config w !! (email +:+ "_token")))])
          (with_token (default JNull (config w !! (email +:+ "_token"))) w))).
Proof.
  intros Ha Hc Hr Hs. apply Z.eqb_neq in Hs.
  unfold login. erewrite bind_ok by reflexivity. rewrite Ha.
  erewrite bind_ok by reflexivity. rewrite Hc. cbn [negb andb].
  erewrite bind_ok by reflexivity.
  rewrite (bind_ok _ _ _ _ _ (headers_eq _)).
  erewrite bind_ok by (apply requests_get_eq; exact Hr).
  by rewrite Hs.
Qed.

(** C8.  The password grant of [login], once the Basic token is at hand.
    A first reply of 403 is followed by a sleep of 10 and one more
    request, and whatever the second reply is, there is no third
    request: a second reply other than 200 raises [BadAPIResponse].  A
    first reply that is neither 403 nor 200 raises [BadAPIResponse] at
    once, without sleep or second request.  In every run the requests
    and sleeps of the grant are one POST, or one POST, a sleep of 10 and
    one POST.  [login] on a client that is not authenticated is the
    grant when [force] is set or no token is cached for the address, and
    with a cached token that the account endpoint refuses it is the
    grant from the state after that one request; dispatching a frame
    never sleeps.

    No other request of [_handler.py] and [_client.py] is retried.
    Whatever its arguments and the replies, [login] makes at most one
    request to the account endpoint, followed by nothing, by one token
    request, or by a token request, a sleep of 10 and the same token
    request once more.  Dispatching a frame makes no request but at
    most two to the account endpoint, and what it does is the same
    whatever the status codes of the replies.  Reading the account data
    does not depend on the status codes either and asks at most once;
    nor does [_get_prop], which reads the account data twice and so asks
    at most twice, nor [unread_notifications_count], which asks once.
    [post_image] and [sendbird_upload] make one request whatever the
    reply, [post_image_url] one GET and then at most the request of
    [post_image], and [_channels_paginated] at most two requests for the
    account data, then at most one request for the channels. *)
Theorem password_grant_retries_once (email password : string) (lt : json)
  (w w0 : World) :
  __login_token w = (Ok lt, w0) ->
  let post :=
    HttpPost (api +:+ "/oauth2/token")
      [("Authorization", "Basic " +:+ py_str lt)]
      [("grant_type", "password"); ("username", email); ("password", password)] in
  let quiet := fun e => ~ is_sleep e /\ ~ is_post e in
  (forall r1 r2 rest,
     responses w0 = r1 :: r2 :: rest ->
     status_code r1 = 403 -> status_code r2 <> 200 ->
     password_grant email password w =
     (Raise (BadAPIResponse (resp_url r2 +:+ ", " +:+ resp_text r2)),
      with_log (log w0 ++ [post; Sleep 10; post]) (with_responses rest w0)))
  /\ (forall r1 rest,
        responses w0 = r1 :: rest ->
        status_code r1 <> 403 -> status_code r1 <> 200 ->
        password_grant email password w =
        (Raise (BadAPIResponse (resp_url r1 +:+ ", " +:+ resp_text r1)),
         with_log (log w0 ++ [post]) (with_responses rest w0)))
  /\ (log_grows quiet w w0 /\
      exists mid tail,
        log (snd (password_grant email password w)) = log w0 ++ mid ++ tail /\
        (mid = [post] \/ mid = [post; Sleep 10; post]) /\ Forall quiet tail)
  /\ (forall force,
        authenticated w = false ->
        force = true \/
        py_truthy (default JNull (config w !! (email +:+ "_token"))) = false ->
        login email password force w = password_grant email password w)
  /\ (forall r rest w1,
        authenticated w1 = false ->
        py_truthy (default JNull (config w1 !! (email +:+ "_token"))) = true ->
        responses w1 = r :: rest ->
        status_code r <> 200 ->
        w = with_responses rest
              (with_log
                 (log w1 ++
                  [account_get
                     (default JNull (config w1 !! (email +:+ "_token")))])
                 (with_token
                    (default JNull (config w1 !! (email +:+ "_token"))) w1)) ->
        login email password false w1 = password_grant email password w)
  /\ (forall raw w', log_grows (fun e => ~ is_sleep e) w' (snd (resolve raw w')))
  /\ (forall email' password' force w',
        exists l lt',
          log (snd (login email' password' force w')) = log w' ++ l /\
          let get :=
            account_get (default JNull (config w' !! (email' +:+ "_token"))) in
          let post' := token_post lt' email' password' in
          In (traffic l)
             [[]; [get]; [get; post']; [get; post'; Sleep 10; post'];
              [post']; [post'; Sleep 10; post']])
  /\ (forall raw,
        status_blind (resolve raw) /\
        forall w', log_grows (fun e => is_call e \/ is_get e) w'
                     (snd (resolve raw w')) /\
                   reads_account_only w' (snd (resolve raw w')))
  /\ (status_blind __account_data /\
      forall w', log (snd (__account_data w')) = log w' \/
                 log (snd (__account_data w')) =
                 log w' ++ [account_get (token w')])
  /\ (forall key force,
        status_blind (_get_prop key force) /\
        forall w', account_read w' (snd (_get_prop key force w')))
  /\ (status_blind unread_notifications_count /\
      forall w', log (snd (unread_notifications_count w')) =
                 log w' ++ [counters_get (token w')])
  /\ (forall image_data tags visibility w',
        log (snd (post_image image_data tags visibility w')) =
        log w' ++ [content_post (token w') image_data tags visibility])
  /\ (forall image_url tags visibility w',
        exists tail,
          log (snd (post_image_url image_url tags visibility w')) =
          log w' ++ HttpGet image_url [] :: tail /\
          (tail = [] \/
           exists image_data,
             tail = [content_post (token w') image_data tags visibility]))
  /\ (forall channel file_data w',
        log (snd (sendbird_upload channel file_data w')) =
        log w' ++ [upload_post (sendbird_session_key w') channel file_data])
  /\ (forall limit next prev show_empty show_read_recipt show_member
             public_mode super_mode distinct_mode member_state_filter order w',
        exists l tail,
          log (snd (_channels_paginated limit next prev show_empty
                      show_read_recipt show_member public_mode super_mode
                      distinct_mode member_state_filter order w')) =
          log w' ++ l ++ tail /\
          account_gets (token w') l /\
          (tail = [] \/
           exists e, tail = [e] /\ is_channels_get (Z.min limit 100) e)).
Proof.
  intros Hlt post quiet.
  assert (Hpg : password_grant email password w =
    bind (token_request [("Authorization", "Basic " +:+ py_str lt)]
            [("grant_type", "password"); ("username", email);
             ("password", password)])
         (accept_token email) w0).
  { unfold password_grant. by rewrite (bind_ok _ _ _ _ _ Hlt). }
  repeat apply conj.
  - intros r1 r2 rest Hr E1 E2. rewrite Hpg.
    rewrite (bind_ok _ _ _ _ _ (token_request_retry_eq _ _ _ _ _ _ Hr E1)).
    by apply accept_token_rejects.
  - intros r1 rest Hr E1 E2. rewrite Hpg.
    rewrite (bind_ok _ _ _ _ _ (token_request_once_eq _ _ _ _ _ Hr E1)).
    by apply accept_token_rejects.
  - assert (Hst : preserves (steady quiet) __login_token).
    { apply login_token_steady. intros cfg. split; simpl; auto. }
    specialize (Hst w). rewrite Hlt in Hst. apply Hst.
  - rewrite Hpg. clear Hpg Hlt.
    destruct (token_request_log
                [("Authorization", "Basic " +:+ py_str lt)]
                [("grant_type", "password"); ("username", email);
                 ("password", password)] w0) as (mid & Hmid & Hshape).
    exists mid. unfold bind.
    destruct (token_request _ _ w0) as [[response | e] w1]; cbn [snd] in *.
    + assert (Hst : preserves (steady quiet) (accept_token email response)).
      { apply accept_token_steady. intros cfg. split; simpl; auto. }
      destruct (Hst w1) as [_ (tail & Htl & Hq)].
      exists tail. rewrite Htl, Hmid. split; [by rewrite <- app_assoc | auto].
    + exists []. rewrite app_nil_r. auto.
  - intros force Hauth Hwhy. by apply login_reaches_grant.
  - intros r rest w1 Ha Hc Hr Hs ->.
    by apply (login_refused_reaches_grant email password r rest w1).
  - intros raw w'. apply resolve_log_grows; simpl; auto.
  - intros email' password' force w'. apply login_traffic.
  - intros raw. split; [apply ignores_status_blind, resolve_blind |].
    intros w'. split; [apply resolve_log_grows; simpl; auto |].
    apply resolve_traffic.
  - apply ignores_status_blind, account_data_blind.
  - intros w'. apply account_data_log.
  - intros key force. split; [apply ignores_status_blind, get_prop_blind |].
    intros w'. apply get_prop_log.
  - apply ignores_status_blind, unread_notifications_count_blind.
  - apply unread_notifications_count_log.
  - apply post_image_log.
  - apply post_image_url_log.
  - apply sendbird_upload_log.
  - apply channels_paginated_log.
Qed.

End Retry.

(** ** The theorems at concrete frames and clients *)

(** C3 at a message from [bob] to the client [robot]: the default prefix
    is empty, so the first word is looked up as a command and, not being
    one, goes to [Defaults.default]; [on_message] is then called. *)
Lemma mesg_dispatch_witness :
  resolve (frame "MESG" (Fixture.mesg_payload "bob")) Fixture.mesg_client =
  (Ok tt,
   with_log
     [CommandCalled None
        (mkMessage (JInt 5) (JStr "chan") (Fixture.mesg_payload "bob") None)
        ["there"];
      Called Fixture.got_message
        [AMessage (mkMessage (JInt 5) (JStr "chan") (Fixture.mesg_payload "bob")
                     (Some JNull))]]
     Fixture.mesg_client).
Proof.
  destruct (mesg_dispatch (frame "MESG" (Fixture.mesg_payload "bob"))
              (Fixture.mesg_payload "bob") (JObj [("name", JStr "bob")])
              (JStr "bob") (JStr "robot") (JInt 5) (JStr "chan")
              Fixture.mesg_client Fixture.mesg_client
              ltac:(vm_compute; reflexivity) ltac:(vm_compute; reflexivity) ltac:(vm_compute; reflexivity) ltac:(vm_compute; reflexivity) ltac:(vm_compute; reflexivity) ltac:(vm_compute; reflexivity) ltac:(vm_compute; reflexivity))
    as [_ Hother].
  rewrite (Hother ltac:(vm_compute; reflexivity) JNull
             (with_log
                [CommandCalled None
                   (mkMessage (JInt 5) (JStr "chan") (Fixture.mesg_payload "bob")
                      None) ["there"]] Fixture.mesg_client) ltac:(vm_compute; reflexivity)).
  vm_compute. reflexivity.
Defined.

(** C7 at a client that has logged in before. *)
Example login_again_fails :
  login "a@b.c" "pw" false Fixture.logged_in =
  (Raise (NameError "AlreadyAuthenticated"), Fixture.logged_in).
Proof. reflexivity. Qed.

(** A message the client sent itself is dropped. *)
Example own_message_dropped :
  resolve (frame "MESG" (Fixture.mesg_payload "robot")) Fixture.mesg_client =
  (Ok tt, Fixture.mesg_client).
Proof. vm_compute. reflexivity. Qed.

Lemma syev_hooks_return : hooks_return Fixture.syev_events.
Proof.
  intros name h args. unfold Fixture.syev_events.
  repeat (rewrite lookup_insert; case_decide; [intros [= <-]; reflexivity |]).
  by rewrite lookup_empty.
Qed.

(** C4 at an update of category 10050: the default, then
    [on_channel_update]. *)
Lemma syev_dispatch_witness :
  resolve (frame "SYEV" (Fixture.syev_payload 10050 "u2")) Fixture.syev_client =
  (Ok tt,
   with_log
     [Called Fixture.default_hook
        [ATuple [AJson (Fixture.syev_payload 10050 "u2")]];
      Called Fixture.updated_hook [AChannel (mkChannel (JStr "chan"))]]
     Fixture.syev_client).
Proof.
  destruct (syev_dispatch (frame "SYEV" (Fixture.syev_payload 10050 "u2"))
              (Fixture.syev_payload 10050 "u2") (JStr "chan") (JInt 10050)
              Fixture.syev_client ltac:(vm_compute; reflexivity) ltac:(vm_compute; reflexivity) ltac:(vm_compute; reflexivity) ltac:(vm_compute; reflexivity) ltac:(vm_compute; reflexivity))
    as (_ & _ & _ & Hother).
  rewrite (Hother ltac:(vm_compute; reflexivity) ltac:(vm_compute; reflexivity) ltac:(vm_compute; reflexivity) syev_hooks_return).
  vm_compute. reflexivity.
Defined.

(** C5 at an invite for the client's own user: [on_invite], not
    [on_invite_broadcast]. *)
Lemma invite_dispatch_witness :
  resolve (frame "SYEV" (Fixture.syev_payload 10020 "u1")) Fixture.syev_client =
  (Ok tt,
   with_log
     [Called Fixture.invited_hook
        [AInvite (mkChannelInvite (Fixture.syev_payload 10020 "u1"))];
      Called Fixture.updated_hook [AChannel (mkChannel (JStr "chan"))]]
     Fixture.syev_client).
Proof.
  rewrite (invite_dispatch (frame "SYEV" (Fixture.syev_payload 10020 "u1"))
             (Fixture.syev_payload 10020 "u1") (JStr "chan") (JInt 10020)
             (mkUser (JStr "u1")) true Fixture.invited_hook
             Fixture.broadcast_hook Fixture.syev_client Fixture.syev_client
             ltac:(vm_compute; reflexivity) ltac:(vm_compute; reflexivity) ltac:(vm_compute; reflexivity) ltac:(vm_compute; reflexivity) ltac:(vm_compute; reflexivity) ltac:(vm_compute; reflexivity) ltac:(vm_compute; reflexivity) ltac:(vm_compute; reflexivity)
             ltac:(vm_compute; reflexivity) ltac:(vm_compute; reflexivity)).
  vm_compute. reflexivity.
Defined.

(** An invite for somebody else goes to [on_invite_broadcast]. *)
Example invite_broadcast :
  resolve (frame "SYEV" (Fixture.syev_payload 10020 "u2")) Fixture.syev_client =
  (Ok tt,
   with_log
     [Called Fixture.broadcast_hook
        [AInvite (mkChannelInvite (Fixture.syev_payload 10020 "u2"))];
      Called Fixture.updated_hook [AChannel (mkChannel (JStr "chan"))]]
     Fixture.syev_client).
Proof. vm_compute. reflexivity. Qed.

(** C6, counterexample.  A client that is not connected satisfies the
    invariant; after the frame [LOGI{"key": null}] it is connected and
    its session key is [None]. *)
Lemma logi_null_key_breaks_invariant :
  session_invariant (Fixture.fresh None [])
  /\ ~ session_invariant
        (snd (resolve (frame "LOGI" (JObj [("key", JNull)]))
                (Fixture.fresh None []))).
Proof.
  split.
  - intros Hc. discriminate Hc.
  - intros Hinv. by apply Hinv.
Qed.

(** C6 at the frame [LOGI{"key": "k1"}]. *)
Lemma session_key_when_connected_witness :
  session_invariant
    (snd (resolve (frame "LOGI" (JObj [("key", JStr "k1")]))
            (Fixture.fresh None []))).
Proof.
  destruct (session_key_when_connected
              (frame "LOGI" (JObj [("key", JStr "k1")])) (Fixture.fresh None []))
    as (_ & _ & Hkept).
  destruct (Hkept ltac:(intros Hc; discriminate Hc)) as [Hresolve _].
  apply Hresolve. intros data _ Hload. injection Hload as <-. discriminate.
Defined.

(** C8 at a server that answers 403 and then 500. *)
Lemma password_grant_retries_once_witness :
  password_grant "a@b.c" "pw" Fixture.retry_client =
  (Raise (BadAPIResponse "/oauth2/token, error"),
   with_log
     [HttpPost (api +:+ "/oauth2/token") [("Authorization", "Basic dG9rZW4=")]
        [("grant_type", "password"); ("username", "a@b.c"); ("password", "pw")];
      Sleep 10;
      HttpPost (api +:+ "/oauth2/token") [("Authorization", "Basic dG9rZW4=")]
        [("grant_type", "password"); ("username", "a@b.c"); ("password", "pw")]]
     (with_responses [] Fixture.retry_client)).
Proof.
  destruct (password_grant_retries_once "a@b.c" "pw" (JStr "dG9rZW4=")
              Fixture.retry_client Fixture.retry_client ltac:(vm_compute; reflexivity))
    as [Hretry _].
  apply (Hretry Fixture.forbidden Fixture.failed [] ltac:(vm_compute; reflexivity) ltac:(vm_compute; reflexivity)).
  discriminate.
Defined.

(** The token request is the one that does depend on the status code: with
    the codes blanked the first reply is taken as it is. *)
Example token_request_reads_status :
  ~ status_blind (token_request [] []).
Proof.
  intros Hblind.
  destruct (Hblind Fixture.retry_client (blur Fixture.retry_client) eq_refl)
    as [Hresult _].
  vm_compute in Hresult. discriminate Hresult.
Qed.

(** ** Further properties of the handler *)

Section HandlerMore.
Context `{Externals}.

Lemma hook_result_ok ev name args :
  hooks_return ev -> hook_result ev name args = Ok tt.
Proof.
  intros Hret. unfold hook_result, default_result.
  destruct (ev !! name) eqn:E1; [eauto |].
  destruct (ev !! "on_default") eqn:E2; eauto.
Qed.

(** X1.  A frame whose opcode is none of the four in the table is ignored:
    [resolve] returns and nothing at all has changed. *)
Theorem unknown_opcode_ignored (raw : string) (data : json) (w : World) :
  json_loads (str_drop 4 raw) = Some data ->
  str_take 4 raw <> "PING" -> str_take 4 raw <> "MESG" ->
  str_take 4 raw <> "LOGI" -> str_take 4 raw <> "SYEV" ->
  resolve raw w = (Ok tt, w).
Proof.
  intros Hload N1 N2 N3 N4. unfold resolve. rewrite Hload.
  unfold matches_get, matches. cbn [find fst snd].
  apply not_eq_sym, String.eqb_neq in N1, N2, N3, N4.
  by rewrite N1, N2, N3, N4.
Qed.

(** X2.  An event nobody registered for goes to the hook under [on_default],
    which gets the arguments packed into one tuple; with no such hook
    either, the event is dropped without a trace. *)
Theorem unregistered_event_falls_back (key : string) (args : list arg)
  (w : World) :
  events w !! key = None ->
  (forall d, events w !! "on_default" = Some d ->
     bind (get_ev key) (fun f => f args) w =
     (hook_runs d [ATuple args],
      with_log (log w ++ [Called d [ATuple args]]) w))
  /\ (events w !! "on_default" = None ->
      bind (get_ev key) (fun f => f args) w = (Ok tt, w)).
Proof.
  intros Hkey. split.
  - intros d Hd. rewrite invoke_eq.
    unfold hook_result, hook_calls, default_result, default_calls.
    by rewrite Hkey, Hd.
  - intros Hd. rewrite invoke_eq.
    unfold hook_result, hook_calls, default_result, default_calls.
    rewrite Hkey, Hd. by rewrite with_log_same.
Qed.

Lemma float_eq_int_functional f a b :
  float_eq_int f a = true -> float_eq_int f b = true -> a = b.
Proof.
  destruct f as [s | s | | s m e]; simpl; try discriminate.
  - intros Ha Hb. apply Z.eqb_eq in Ha, Hb. congruence.
  - destruct (0 <=? e) eqn:He; intros Ha Hb; apply Z.eqb_eq in Ha, Hb.
    + congruence.
    + apply Z.leb_gt in He.
      assert (Hpos : 0 < 2 ^ (- e)) by (apply Z.pow_pos_nonneg; lia).
      rewrite Ha in Hb. apply Z.mul_cancel_r in Hb; lia.
Qed.

(** A [cat] equals at most one integer. *)
Lemma py_eq_int_functional cat a b :
  py_eq cat (JInt a) = true -> py_eq cat (JInt b) = true -> a = b.
Proof.
  destruct cat; simpl; try discriminate.
  - intros Ha Hb. apply Z.eqb_eq in Ha, Hb. congruence.
  - intros Ha Hb. apply Z.eqb_eq in Ha, Hb. congruence.
  - apply float_eq_int_functional.
Qed.

Lemma py_eq_int_other cat a b :
  py_eq cat (JInt a) = true -> a <> b -> py_eq cat (JInt b) = false.
Proof.
  intros Ha Hne. destruct (py_eq cat (JInt b)) eqn:Hb; [| reflexivity].
  by pose proof (py_eq_int_functional _ _ _ Ha Hb).
Qed.

Lemma route_join cat : py_eq cat (JInt 10000) = true -> route cat = _on_user_join.
Proof.
  intros Hc. unfold route.
  rewrite (py_eq_int_other _ _ 10020 Hc), (py_eq_int_other _ _ 10001 Hc) by lia.
  by rewrite Hc.
Qed.

Lemma route_exit cat : py_eq cat (JInt 10001) = true -> route cat = _on_user_exit.
Proof.
  intros Hc. unfold route.
  rewrite (py_eq_int_other _ _ 10020 Hc) by lia. by rewrite Hc.
Qed.

Lemma member_event_eq (name : string) (handler : json -> M unit)
  data url d uid w :
  (forall w0, handler data w0 =
     (url <- lift (subscript data "channel_url") ;;
      d <- lift (subscript data "data") ;;
      uid <- lift (subscript d "user_id") ;;
      f <- get_ev name ;;
      f [AUser (mkUser uid); AChannel (mkChannel url)]) w0) ->
  subscript data "channel_url" = Ok url ->
  subscript data "data" = Ok d ->
  subscript d "user_id" = Ok uid ->
  handler data w =
  (hook_result (events w) name [AUser (mkUser uid); AChannel (mkChannel url)],
   with_log
     (log w ++
      hook_calls (events w) name [AUser (mkUser uid); AChannel (mkChannel url)])
     w).
Proof.
  intros Hh Hu Hd Hi. rewrite Hh.
  rewrite (bind_lift _ _ _ _ Hu), (bind_lift _ _ _ _ Hd), (bind_lift _ _ _ _ Hi).
  apply invoke_eq.
Qed.

(** X4.  A SYEV frame with [cat] 10000 hands the user of [data.user_id] and
    the channel of [channel_url] to [on_user_join], one with [cat] 10001
    hands them to [on_user_exit]; [on_channel_update] follows with the
    channel.  Hooks are taken to return. *)
Theorem member_event_dispatch (raw : string) (data url cat d uid : json)
  (w : World) :
  str_take 4 raw = "SYEV" ->
  json_loads (str_drop 4 raw) = Some data ->
  subscript data "channel_url" = Ok url ->
  subscript data "cat" = Ok cat ->
  subscript data "data" = Ok d ->
  subscript d "user_id" = Ok uid ->
  hooks_return (events w) ->
  let who := [AUser (mkUser uid); AChannel (mkChannel url)] in
  let after := hook_calls (events w) "on_channel_update" [AChannel (mkChannel url)] in
  (py_eq cat (JInt 10000) = true ->
   resolve raw w =
   (Ok tt, with_log (log w ++ hook_calls (events w) "on_user_join" who ++ after) w))
  /\ (py_eq cat (JInt 10001) = true ->
      resolve raw w =
      (Ok tt,
       with_log (log w ++ hook_calls (events w) "on_user_exit" who ++ after) w)).
Proof.
  intros Hop Hload Hu Hc Hd Hi Hret who after. subst who after.
  rewrite (resolve_syev _ _ _ Hop Hload). split; intros Hcat.
  - rewrite (on_channel_update_eq _ _ _ _ _ Hu Hc (py_eq_int_hashable _ _ Hcat)).
    rewrite (route_join _ Hcat).
    erewrite bind_ok; cycle 1.
    { rewrite (member_event_eq "on_user_join" _on_user_join _ _ _ _ _
                 ltac:(reflexivity) Hu Hd Hi).
      by rewrite hook_result_ok. }
    rewrite invoke_eq. cbn [events with_log].
    by rewrite hook_result_ok, with_log_twice.
  - rewrite (on_channel_update_eq _ _ _ _ _ Hu Hc (py_eq_int_hashable _ _ Hcat)).
    rewrite (route_exit _ Hcat).
    erewrite bind_ok; cycle 1.
    { rewrite (member_event_eq "on_user_exit" _on_user_exit _ _ _ _ _
                 ltac:(reflexivity) Hu Hd Hi).
      by rewrite hook_result_ok. }
    rewrite invoke_eq. cbn [events with_log].
    by rewrite hook_result_ok, with_log_twice.
Qed.

(** X5.  A SYEV payload without [channel_url], or with it but without [cat],
    raises [KeyError] before anything is routed: no hook is called, not
    even [on_channel_update], and the state is as it was. *)
Theorem syev_missing_field (raw : string) (items : list (string * json))
  (w : World) :
  str_take 4 raw = "SYEV" ->
  json_loads (str_drop 4 raw) = Some (JObj items) ->
  (dict_get items "channel_url" = None ->
   resolve raw w = (Raise (KeyError "channel_url"), w))
  /\ (dict_get items "channel_url" <> None -> dict_get items "cat" = None ->
      resolve raw w = (Raise (KeyError "cat"), w)).
Proof.
  intros Hop Hload. rewrite (resolve_syev _ _ _ Hop Hload).
  unfold _on_channel_update, bind, lift; simpl. split.
  - by intros ->.
  - intros Hu Hc. destruct (dict_get items "channel_url"); [| done].
    by rewrite Hc.
Qed.

(** X6.  A join or exit event whose payload lacks [data], or whose [data]
    lacks [user_id], raises out of the sub-handler: no hook is called
    and [on_channel_update] is skipped too. *)
Theorem member_event_without_user (raw : string) (data url cat : json)
  (e : exn) (w : World) :
  str_take 4 raw = "SYEV" ->
  json_loads (str_drop 4 raw) = Some data ->
  subscript data "channel_url" = Ok url ->
  subscript data "cat" = Ok cat ->
  py_eq cat (JInt 10000) = true \/ py_eq cat (JInt 10001) = true ->
  subscript data "data" = Raise e \/
  (exists d, subscript data "data" = Ok d /\ subscript d "user_id" = Raise e) ->
  resolve raw w = (Raise e, w).
Proof.
  intros Hop Hload Hu Hc Hcat Hbad.
  rewrite (resolve_syev _ _ _ Hop Hload).
  assert (Hh : hashable cat = true)
    by (destruct Hcat as [Hcat | Hcat]; exact (py_eq_int_hashable _ _ Hcat)).
  rewrite (on_channel_update_eq _ _ _ _ _ Hu Hc Hh).
  assert (Hsub : route cat data w = (Raise e, w)).
  { destruct Hcat as [Hcat | Hcat];
      [rewrite (route_join _ Hcat); unfold _on_user_join
      | rewrite (route_exit _ Hcat); unfold _on_user_exit];
      rewrite (bind_lift _ _ _ _ Hu); unfold bind, lift;
      destruct Hbad as [-> | (d & -> & ->)]; reflexivity. }
  by rewrite (bind_raise _ _ _ _ _ Hsub).
Qed.

(** X3.  Registration and dispatch fit together.  After [Handler.add] the
    event of the chosen name calls the function itself, after
    [Client.event] it calls the [Event] around it, which runs the same
    function; a later registration under the same name replaces the
    earlier one, and the other names keep their hooks. *)
Theorem registered_hook_is_dispatched (name : option string)
  (method other : Method) (args : list arg) (w : World) :
  let key := pick_name name method in
  let added := snd (Handler_add name method w) in
  let wrapped := snd (Client_event name method w) in
  bind (get_ev key) (fun f => f args) added =
    (hook_runs (HFunction method) args,
     with_log (log w ++ [Called (HFunction method) args]) added)
  /\ bind (get_ev key) (fun f => f args) wrapped =
    (hook_runs (HFunction method) args,
     with_log (log w ++ [Called (HEvent (Event_init method key)) args]) wrapped)
  /\ (pick_name name other = key ->
      events (snd (Handler_add name other added)) !! key =
      Some (HFunction other))
  /\ (forall k, k <> key -> events added !! k = events w !! k).
Proof.
  intros key added wrapped. subst key added wrapped. repeat split.
  - rewrite invoke_eq. unfold hook_result, hook_calls. cbn.
    by rewrite lookup_insert_eq.
  - rewrite invoke_eq. unfold hook_result, hook_calls. cbn.
    by rewrite lookup_insert_eq.
  - intros Hsame. cbn. rewrite Hsame. by rewrite lookup_insert_eq.
  - intros k Hk. cbn. by rewrite lookup_insert_ne.
Qed.

(** X7.  The LOGI handler has stored the session key and set [connected]
    before it calls [on_connect]: when the hook raises, the exception
    leaves [resolve] and the client stays connected with the new key. *)
Theorem connect_hook_failure_keeps_session (raw : string) (data k : json)
  (h : Hook) (e : exn) (w : World) :
  str_take 4 raw = "LOGI" ->
  json_loads (str_drop 4 raw) = Some data ->
  subscript data "key" = Ok k ->
  events w !! "on_connect" = Some h ->
  hook_runs h [AJson data] = Raise e ->
  fst (resolve raw w) = Raise e
  /\ sendbird_session_key (snd (resolve raw w)) = k
  /\ socket_connected (snd (resolve raw w)) = true.
Proof.
  intros Hop Hload Hk Hh Hrun. unfold resolve. rewrite Hload, Hop.
  change (matches_get "LOGI") with _on_connect.
  rewrite (on_connect_eq _ _ _ _ Hk). unfold hook_result. rewrite Hh.
  by repeat split.
Qed.

(** X8.  Whatever the frame, dispatching it sends nothing on the socket, makes
    no POST, does not sleep and does not write the token cache: all it
    does outside the client is call hooks and commands and fetch the
    account data with GET. *)
Theorem dispatch_effects (raw : string) (w : World) :
  log_grows
    (fun e => match e with
              | Called _ _ | CommandCalled _ _ _ | HttpGet _ _ => True
              | _ => False
              end) w (snd (resolve raw w)).
Proof. apply resolve_log_grows; intros; exact I. Qed.

End HandlerMore.

Lemma unknown_opcode_ignored_witness :
  resolve (frame "PONG" (JObj [("id", JStr "x")])) Fixture.ping_client =
  (Ok tt, Fixture.ping_client).
Proof.
  apply (unknown_opcode_ignored (frame "PONG" (JObj [("id", JStr "x")]))
           (JObj [("id", JStr "x")]) Fixture.ping_client);
    [vm_compute; reflexivity | vm_compute; discriminate ..].
Defined.

Lemma unregistered_event_falls_back_witness :
  bind (get_ev "on_invite") (fun f => f [AJson JNull]) Cases.default_client =
  (Ok tt,
   with_log [Called Fixture.default_hook [ATuple [AJson JNull]]]
     Cases.default_client).
Proof.
  destruct (unregistered_event_falls_back "on_invite" [AJson JNull]
              Cases.default_client ltac:(vm_compute; reflexivity))
    as [Hdefault _].
  rewrite (Hdefault Fixture.default_hook ltac:(vm_compute; reflexivity)).
  reflexivity.
Defined.

Lemma member_hooks_return : hooks_return Cases.member_events.
Proof.
  intros name h args. unfold Cases.member_events.
  repeat (rewrite lookup_insert; case_decide; [intros [= <-]; reflexivity |]).
  by rewrite lookup_empty.
Qed.

Lemma member_event_dispatch_witness :
  resolve (frame "SYEV" (Cases.member_payload 10000)) Cases.member_client =
  (Ok tt,
   with_log
     [Called Cases.joined_hook
        [AUser (mkUser (JStr "u7")); AChannel (mkChannel (JStr "chan"))];
      Called Fixture.updated_hook [AChannel (mkChannel (JStr "chan"))]]
     Cases.member_client).
Proof.
  destruct (member_event_dispatch
              (frame "SYEV" (Cases.member_payload 10000))
              (Cases.member_payload 10000) (JStr "chan") (JInt 10000)
              (JObj [("user_id", JStr "u7")]) (JStr "u7") Cases.member_client
              ltac:(vm_compute; reflexivity) ltac:(vm_compute; reflexivity)
              ltac:(vm_compute; reflexivity) ltac:(vm_compute; reflexivity)
              ltac:(vm_compute; reflexivity) ltac:(vm_compute; reflexivity)
              member_hooks_return) as [Hjoin _].
  rewrite (Hjoin ltac:(vm_compute; reflexivity)).
  vm_compute. reflexivity.
Defined.

Lemma syev_missing_field_witness :
  resolve (frame "SYEV" (JObj [("cat", JInt 10000)])) Cases.member_client =
  (Raise (KeyError "channel_url"), Cases.member_client).
Proof.
  destruct (syev_missing_field (frame "SYEV" (JObj [("cat", JInt 10000)]))
              [("cat", JInt 10000)] Cases.member_client
              ltac:(vm_compute; reflexivity) ltac:(vm_compute; reflexivity))
    as [Hurl _].
  apply Hurl. reflexivity.
Defined.

Lemma member_event_without_user_witness :
  resolve
    (frame "SYEV" (JObj [("cat", JInt 10001); ("channel_url", JStr "chan")]))
    Cases.member_client =
  (Raise (KeyError "data"), Cases.member_client).
Proof.
  apply (member_event_without_user
           (frame "SYEV" (JObj [("cat", JInt 10001); ("channel_url", JStr "chan")]))
           (JObj [("cat", JInt 10001); ("channel_url", JStr "chan")])
           (JStr "chan") (JInt 10001) (KeyError "data") Cases.member_client);
    try (vm_compute; reflexivity).
  - right. reflexivity.
  - left. reflexivity.
Defined.

Lemma registered_hook_is_dispatched_witness :
  events
    (snd (Handler_add (Some "on_ping") (Fixture.quiet "second")
            (snd (Handler_add (Some "on_ping") (Fixture.quiet "first")
                    (Fixture.fresh None []))))) !! "on_ping" =
  Some (HFunction (Fixture.quiet "second")).
Proof.
  destruct (registered_hook_is_dispatched (Some "on_ping")
              (Fixture.quiet "first") (Fixture.quiet "second") []
              (Fixture.fresh None [])) as (_ & _ & Hlater & _).
  apply Hlater. reflexivity.
Defined.

Lemma connect_hook_failure_keeps_session_witness :
  let after :=
    resolve (frame "LOGI" (JObj [("key", JStr "k1")])) Cases.connect_client in
  fst after = Raise (AppError "boom")
  /\ sendbird_session_key (snd after) = JStr "k1"
  /\ socket_connected (snd after) = true.
Proof.
  apply (connect_hook_failure_keeps_session
           (frame "LOGI" (JObj [("key", JStr "k1")]))
           (JObj [("key", JStr "k1")]) (JStr "k1") (HFunction Cases.failing)
           (AppError "boom") Cases.connect_client);
    vm_compute; reflexivity.
Defined.

(** ** Further properties of the client *)

Section AccountData.
Context `{Externals}.

Lemma account_data_cached d w :
  update_flag w = false -> account_data_payload w = Some d -> d <> JNull ->
  __account_data w = (Ok d, w).
Proof.
  intros Hf Hp Hd. unfold __account_data, bind, gets; simpl.
  rewrite Hf, Hp. destruct d; try done; unfold ret; simpl; by rewrite Hp.
Qed.

Lemma account_data_fetch r rest j d w :
  update_flag w = true \/ account_data_payload w = None ->
  responses w = r :: rest ->
  resp_json r = Some j ->
  subscript j "data" = Ok d ->
  __account_data w = (Ok d, refreshed d rest w).
Proof.
  intros Hneed Hr Hj Hd. unfold __account_data.
  do 2 (erewrite bind_ok by reflexivity).
  assert (Hc : update_flag w
               || match account_data_payload w with
                  | None | Some JNull => true
                  | Some _ => false
                  end = true).
  { destruct Hneed as [-> | ->]; [reflexivity | apply orb_true_r]. }
  rewrite Hc.
  match goal with
  | |- bind ?m _ _ = _ => assert (Hin : m w = (Ok tt, refreshed d rest w))
  end.
  { erewrite bind_ok by reflexivity.
    rewrite (bind_ok _ _ _ _ _ (headers_eq _)).
    erewrite bind_ok by (apply requests_get_eq; exact Hr).
    unfold response_json. rewrite Hj.
    erewrite bind_ok by reflexivity.
    by rewrite (bind_lift _ _ _ _ Hd). }
  by rewrite (bind_ok _ _ _ _ _ Hin).
Qed.

Lemma get_prop_cached_eq (key : string) (items : list (string * json))
  (v : json) (w : World) :
  update_flag w = false ->
  account_data_payload w = Some (JObj items) ->
  dict_get items key = Some v ->
  py_truthy v = true ->
  _get_prop key false w = (Ok v, w).
Proof.
  intros Hf Hp Hk Hv. unfold _get_prop.
  assert (Hget : dict_method_get (JObj items) key = Ok v)
    by (simpl; by rewrite Hk).
  rewrite (bind_ok _ _ _ _ _ (account_data_cached _ _ Hf Hp ltac:(done))).
  rewrite (bind_lift _ _ _ _ Hget), Hv. cbn [negb orb].
  erewrite bind_ok by reflexivity.
  rewrite (bind_ok _ _ _ _ _ (account_data_cached _ _ Hf Hp ltac:(done))).
  unfold lift. by rewrite Hget.
Qed.

(** X15.  A property whose value is in the cached account data, and is
    truthy, is read without any request and without any change of
    state. *)
Theorem get_prop_cached (key : string) (items : list (string * json))
  (v : json) (w : World) :
  update_flag w = false ->
  account_data_payload w = Some (JObj items) ->
  dict_get items key = Some v ->
  py_truthy v = true ->
  _get_prop key false w = (Ok v, w).
Proof. apply get_prop_cached_eq. Qed.

(** X16.  When the cached account data has no truthy value for the key, or
    when [force] is set, the account is fetched again, once, and the
    answer is read from the new data whether it has the key or not. *)
Theorem get_prop_refetches (key : string) (force : bool)
  (items : list (string * json)) (r : Response) (rest : list Response)
  (j d : json) (w : World) :
  update_flag w = false ->
  account_data_payload w = Some (JObj items) ->
  py_truthy (default JNull (dict_get items key)) = false \/ force = true ->
  responses w = r :: rest ->
  resp_json r = Some j ->
  subscript j "data" = Ok d ->
  _get_prop key force w = (dict_method_get d key, refreshed d rest w).
Proof.
  intros Hf Hp Hwhy Hr Hj Hd. unfold _get_prop.
  assert (Hget : dict_method_get (JObj items) key =
                 Ok (default JNull (dict_get items key))) by reflexivity.
  rewrite (bind_ok _ _ _ _ _ (account_data_cached _ _ Hf Hp ltac:(done))).
  rewrite (bind_lift _ _ _ _ Hget).
  assert (Hc : negb (py_truthy (default JNull (dict_get items key))) || force
               = true).
  { destruct Hwhy as [-> | ->]; [reflexivity | apply orb_true_r]. }
  rewrite Hc. erewrite bind_ok by reflexivity.
  erewrite bind_ok; cycle 1.
  { apply (account_data_fetch r rest j d); [by left | done ..]. }
  reflexivity.
Qed.

(** X17.  The update flag is taken down before the request is made.  When the
    refresh then fails, for want of a reply or of [data] in the reply,
    the error is raised once; the next read is served from the old
    data, without a request. *)
Theorem failed_refresh_serves_stale (key : string)
  (items : list (string * json)) (v : json) (w : World) :
  update_flag w = true ->
  account_data_payload w = Some (JObj items) ->
  dict_get items key = Some v ->
  py_truthy v = true ->
  let asked :=
    with_log (log w ++ [HttpGet (api +:+ "/account") (headers_of (token w))])
      (with_update_flag false w) in
  (responses w = [] ->
   _get_prop key false w = (Raise ConnectionError, asked)
   /\ _get_prop key false asked = (Ok v, asked))
  /\ (forall r rest j e,
        responses w = r :: rest -> resp_json r = Some j ->
        subscript j "data" = Raise e ->
        _get_prop key false w = (Raise e, with_responses rest asked)
        /\ _get_prop key false (with_responses rest asked) =
           (Ok v, with_responses rest asked)).
Proof.
  intros Hf Hp Hk Hv asked. split.
  - intros Hr. split.
    + subst asked. unfold _get_prop. apply bind_raise.
      unfold __account_data. do 2 (erewrite bind_ok by reflexivity).
      rewrite Hf. cbn [orb]. apply bind_raise.
      erewrite bind_ok by reflexivity.
      rewrite (bind_ok _ _ _ _ _ (headers_eq _)).
      apply bind_raise.
      by rewrite (requests_get_empty _ _ (with_update_flag false w) Hr).
    + apply (get_prop_cached_eq key items v asked); [reflexivity | exact Hp | done ..].
  - intros r rest j e Hr Hj He. split.
    + subst asked. unfold _get_prop. apply bind_raise.
      unfold __account_data. do 2 (erewrite bind_ok by reflexivity).
      rewrite Hf. cbn [orb]. apply bind_raise.
      erewrite bind_ok by reflexivity.
      rewrite (bind_ok _ _ _ _ _ (headers_eq _)).
      erewrite bind_ok by (apply requests_get_eq; exact Hr).
      unfold response_json. rewrite Hj.
      erewrite bind_ok by reflexivity.
      unfold bind, lift. by rewrite He.
    + apply (get_prop_cached_eq key items v (with_responses rest asked));
        [reflexivity | exact Hp | done ..].
Qed.

(** X18.  [fresh] makes the next read of a property fetch the account again,
    once: with the value in the new data, the read after that is served
    from it without a request. *)
Theorem fresh_forces_one_refetch (key : string) (r : Response)
  (rest : list Response) (j d : json) (items : list (string * json))
  (v : json) (w : World) :
  responses w = r :: rest ->
  resp_json r = Some j ->
  subscript j "data" = Ok (JObj items) ->
  dict_get items key = Some v ->
  py_truthy v = true ->
  bind Client_fresh (fun _ => _get_prop key false) w =
    (Ok v, refreshed (JObj items) rest w)
  /\ _get_prop key false (refreshed (JObj items) rest w) =
     (Ok v, refreshed (JObj items) rest w).
Proof.
  intros Hr Hj Hd Hk Hv.
  split;
    [| apply (get_prop_cached_eq key items v (refreshed (JObj items) rest w));
       [reflexivity | reflexivity | done ..]].
  unfold Client_fresh. erewrite bind_ok by reflexivity.
  unfold _get_prop.
  erewrite bind_ok; cycle 1.
  { apply (account_data_fetch r rest j (JObj items)); [by left | done ..]. }
  assert (Hget : dict_method_get (JObj items) key = Ok v)
    by (simpl; by rewrite Hk).
  rewrite (bind_lift _ _ _ _ Hget), Hv. cbn [negb orb].
  erewrite bind_ok by reflexivity.
  erewrite bind_ok; cycle 1.
  { by apply (account_data_cached (JObj items)). }
  unfold lift. by rewrite Hget.
Qed.

End AccountData.

(** Two states with the same fields are the same state. *)
Lemma world_ext (a b : World) :
  events a = events b -> prefix a = prefix b -> commands a = commands b ->
  authenticated a = authenticated b -> token a = token b ->
  client_id a = client_id b -> client_user a = client_user b ->
  sendbird_session_key a = sendbird_session_key b ->
  sendbird_req_id a = sendbird_req_id b -> update_flag a = update_flag b ->
  account_data_payload a = account_data_payload b -> config a = config b ->
  socket_connected a = socket_connected b -> clock_ms a = clock_ms b ->
  responses a = responses b -> urandom_hex a = urandom_hex b ->
  log a = log b -> a = b.
Proof. destruct a, b; simpl; intros; by subst. Qed.

Section LoginMore.
Context `{Externals}.

Lemma login_token_cached lt w :
  config w !! "login_token" = Some lt -> py_truthy lt = true ->
  __login_token w = (Ok lt, w).
Proof.
  intros Hc Ht. unfold __login_token. erewrite bind_ok by reflexivity.
  rewrite Hc. change (default JNull (Some lt)) with lt. by rewrite Ht.
Qed.

(** X20.  The Basic token is made once.  With none in the cache, one is made
    from the random string, put in the cache and the cache written; as
    long as the token made is not the empty string, asking again gives
    the same token and writes nothing. *)
Theorem login_token_generated_once (w : World) :
  py_truthy (default JNull (config w !! "login_token")) = false ->
  py_truthy (generated_login_token (urandom_hex w)) = true ->
  let tok := generated_login_token (urandom_hex w) in
  let cfg := <["login_token" := tok]> (config w) in
  let made := with_log (log w ++ [ConfigWritten cfg]) (with_config cfg w) in
  __login_token w = (Ok tok, made) /\ __login_token made = (Ok tok, made).
Proof.
  intros Hnone Hgood tok cfg made. split.
  - unfold __login_token. erewrite bind_ok by reflexivity. by rewrite Hnone.
  - apply login_token_cached; [| exact Hgood].
    subst made cfg. cbn. by rewrite lookup_insert_eq.
Qed.

Lemma accept_token_stores email response body tok w :
  status_code response = 200 ->
  resp_json response = Some body ->
  subscript body "access_token" = Ok tok ->
  accept_token email response w =
  (Ok tt,
   with_log
     (log w ++ [ConfigWritten (<[email +:+ "_token" := tok]> (config w))])
     (with_config (<[email +:+ "_token" := tok]> (config w))
        (with_authenticated true (with_token tok w)))).
Proof.
  intros Hs Hj Ht. apply Z.eqb_eq in Hs. unfold accept_token. rewrite Hs.
  cbn [negb]. unfold response_json. rewrite Hj.
  erewrite bind_ok by reflexivity. by rewrite (bind_lift _ _ _ _ Ht).
Qed.

(** X21.  A password grant that is answered with 200 and an [access_token]:
    the client is authenticated, holds the token, has it in the cache
    under the email, has written the cache, and from then on sends the
    token as its Bearer header. *)
Theorem login_stores_token (email password : string) (force : bool)
  (lt body tok : json) (r : Response) (rest : list Response) (w w0 : World) :
  authenticated w = false ->
  force = true \/
  py_truthy (default JNull (config w !! (email +:+ "_token"))) = false ->
  __login_token w = (Ok lt, w0) ->
  responses w0 = r :: rest ->
  status_code r = 200 ->
  resp_json r = Some body ->
  subscript body "access_token" = Ok tok ->
  let cfg := <[email +:+ "_token" := tok]> (config w0) in
  let post :=
    HttpPost (api +:+ "/oauth2/token")
      [("Authorization", "Basic " +:+ py_str lt)]
      [("grant_type", "password"); ("username", email); ("password", password)] in
  let after :=
    with_log (log w0 ++ [post; ConfigWritten cfg])
      (with_config cfg
         (with_authenticated true (with_token tok (with_responses rest w0)))) in
  login email password force w = (Ok tt, after)
  /\ headers after = (Ok (headers_of tok), after).
Proof.
  intros Ha Hwhy Hlt Hr Hs Hj Ht cfg post after. split; [| reflexivity].
  rewrite (login_reaches_grant _ _ _ _ Ha Hwhy). unfold password_grant.
  rewrite (bind_ok _ _ _ _ _ Hlt).
  assert (Hne : status_code r <> 403) by lia.
  rewrite (bind_ok _ _ _ _ _ (token_request_once_eq _ _ _ _ _ Hr Hne)).
  rewrite (accept_token_stores _ _ _ _ _ Hs Hj Ht).
  subst after cfg post. f_equal. apply world_ext; try reflexivity.
  change (log (with_log ?l _)) with l.
  change (log (with_responses _ (with_log ?l _))) with l.
  by rewrite <- app_assoc.
Qed.

(** X22.  [login] with a token for the email in the cache, without [force]:
    the token is taken and tried on the account; on a reply of 200 the
    client is authenticated at the cost of that one GET, and no password
    grant is made. *)
Theorem login_with_cached_token (email password : string) (cached : json)
  (r : Response) (rest : list Response) (w : World) :
  authenticated w = false ->
  config w !! (email +:+ "_token") = Some cached ->
  py_truthy cached = true ->
  responses w = r :: rest ->
  status_code r = 200 ->
  login email password false w =
  (Ok tt,
   with_authenticated true
     (with_responses rest
        (with_log (log w ++ [HttpGet (api +:+ "/account") (headers_of cached)])
           (with_token cached w)))).
Proof.
  intros Ha Hc Ht Hr Hs. apply Z.eqb_eq in Hs.
  unfold login. erewrite bind_ok by reflexivity. rewrite Ha.
  erewrite bind_ok by reflexivity. rewrite Hc.
  change (default JNull (Some cached)) with cached. rewrite Ht. cbn [negb andb].
  erewrite bind_ok by reflexivity.
  rewrite (bind_ok _ _ _ _ _ (headers_eq _)).
  erewrite bind_ok by (apply requests_get_eq; exact Hr).
  by rewrite Hs.
Qed.

(** X23.  The cached token is put in place before it is tried.  When the
    account refuses it and the password grant that follows fails too,
    [login] raises [BadAPIResponse] and the client, not authenticated,
    is left holding the refused token. *)
Theorem login_keeps_refused_token (email password : string)
  (cached lt : json) (r1 r2 : Response) (rest : list Response) (w : World) :
  authenticated w = false ->
  config w !! (email +:+ "_token") = Some cached ->
  py_truthy cached = true ->
  config w !! "login_token" = Some lt ->
  py_truthy lt = true ->
  responses w = r1 :: r2 :: rest ->
  status_code r1 <> 200 ->
  status_code r2 <> 403 -> status_code r2 <> 200 ->
  let after :=
    with_responses rest
      (with_log
         (log w ++
          [HttpGet (api +:+ "/account") (headers_of cached);
           HttpPost (api +:+ "/oauth2/token")
             [("Authorization", "Basic " +:+ py_str lt)]
             [("grant_type", "password"); ("username", email);
              ("password", password)]])
         (with_token cached w)) in
  login email password false w =
    (Raise (BadAPIResponse (resp_url r2 +:+ ", " +:+ resp_text r2)), after)
  /\ token after = cached /\ authenticated after = false.
Proof.
  intros Ha Hc Ht Hl Hlt Hr Hs1 Hs2 Hs3 after.
  split; [| split; [reflexivity | exact Ha]].
  apply Z.eqb_neq in Hs1.
  unfold login. erewrite bind_ok by reflexivity. rewrite Ha.
  erewrite bind_ok by reflexivity. rewrite Hc.
  change (default JNull (Some cached)) with cached. rewrite Ht. cbn [negb andb].
  erewrite bind_ok by reflexivity.
  rewrite (bind_ok _ _ _ _ _ (headers_eq _)).
  erewrite bind_ok by (apply requests_get_eq; exact Hr).
  rewrite Hs1. unfold password_grant.
  erewrite bind_ok by (apply (login_token_cached lt); [exact Hl | exact Hlt]).
  erewrite bind_ok
    by (apply (token_request_once_eq _ _ r2 rest); [reflexivity | exact Hs2]).
  rewrite (accept_token_rejects _ _ _ Hs3).
  subst after. f_equal. apply world_ext; try reflexivity.
  change (log (with_responses _ (with_log ?l _))) with l.
  change (log (with_responses _ (with_log ?l _))) with l.
  by rewrite <- app_assoc.
Qed.

End LoginMore.

Section CommandsMore.
Context `{Externals}.

Lemma call_command_eq name message args w :
  call_command name message args w =
  (command_result (commands w !! name) message args,
   with_log (log w ++ [CommandCalled (commands w !! name) message args]) w).
Proof. reflexivity. Qed.

Lemma resolve_command_loop_skip before rest first message args w :
  Forall (fun q => startswith first q = false) before ->
  resolve_command_loop (before ++ rest) first message args w =
  resolve_command_loop rest first message args w.
Proof.
  induction 1 as [| q before Hq _ IH]; simpl; [reflexivity |].
  by rewrite Hq.
Qed.

Lemma startswith_empty s : startswith s "" = true.
Proof. by destruct s. Qed.

(** What [startswith] found can be cut off and put back. *)
Lemma startswith_drop s p :
  startswith s p = true -> p +:+ str_drop (String.length p) s = s.
Proof.
  revert s. induction p as [| a p IH]; intros s; simpl; [reflexivity |].
  destruct s as [| b s]; [discriminate |].
  intros Hs. apply andb_prop in Hs as [Hab Hrest].
  apply Ascii.eqb_eq in Hab as ->.
  transitivity (String b (p +:+ str_drop (String.length p) s));
    [reflexivity | f_equal; by apply IH].
Qed.

(** X12.  A message whose first word starts with none of the prefixes is no
    command: nothing is looked up, nothing is called, and what comes
    back is [None]. *)
Theorem resolve_command_no_prefix (message : Message) (content : string)
  (w : World) :
  Message_content message = Ok content ->
  Forall (fun q => startswith (hd "" (split_on " " content)) q = false)
         (prefix w) ->
  resolve_command message w = (Ok JNull, w).
Proof.
  intros Hc Hno. unfold resolve_command.
  rewrite (bind_lift _ _ _ _ Hc). erewrite bind_ok by reflexivity.
  rewrite <- (app_nil_r (prefix w)).
  by rewrite (resolve_command_loop_skip _ _ _ _ _ _ Hno).
Qed.

Lemma resolve_command_prefix_eq (message : Message) (content p : string)
  (before after : list string) (w : World) :
  Message_content message = Ok content ->
  prefix w = before ++ p :: after ->
  Forall (fun q => startswith (hd "" (split_on " " content)) q = false) before ->
  startswith (hd "" (split_on " " content)) p = true ->
  resolve_command message w =
  call_command (str_drop (String.length p) (hd "" (split_on " " content)))
    message (tl (split_on " " content)) w.
Proof.
  intros Hc Hp Hno Hyes. unfold resolve_command.
  rewrite (bind_lift _ _ _ _ Hc). erewrite bind_ok by reflexivity.
  rewrite Hp, (resolve_command_loop_skip _ _ _ _ _ _ Hno). simpl.
  by rewrite Hyes.
Qed.

(** X13.  The first prefix, in the order the prefixes come, that the first
    word starts with decides: the rest of that word is the command
    name, the other words are the arguments, and exactly one call is
    made, to the command of that name or to [Defaults.default] when
    there is none.  Later prefixes are never tried. *)
Theorem resolve_command_first_prefix (message : Message) (content p : string)
  (before after : list string) (w : World) :
  Message_content message = Ok content ->
  prefix w = before ++ p :: after ->
  let first := hd "" (split_on " " content) in
  let name := str_drop (String.length p) first in
  let args := tl (split_on " " content) in
  Forall (fun q => startswith first q = false) before ->
  startswith first p = true ->
  resolve_command message w =
    (command_result (commands w !! name) message args,
     with_log (log w ++ [CommandCalled (commands w !! name) message args]) w)
  /\ p +:+ name = first.
Proof.
  intros Hc Hp first name args Hno Hyes.
  split; [| by apply startswith_drop].
  rewrite (resolve_command_prefix_eq _ _ _ _ _ _ Hc Hp Hno Hyes).
  apply call_command_eq.
Qed.

(** X14.  A client keeps the prefix it is built with by default, the empty
    string, as long as none is given: every message is then taken for a
    command, named by its whole first word. *)
Theorem default_prefix_takes_every_message (message : Message)
  (content : string) (w : World) :
  Message_content message = Ok content ->
  prefix w = [""] ->
  let name := hd "" (split_on " " content) in
  let args := tl (split_on " " content) in
  resolve_command message w =
  (command_result (commands w !! name) message args,
   with_log (log w ++ [CommandCalled (commands w !! name) message args]) w).
Proof.
  intros Hc Hp name args.
  rewrite (resolve_command_prefix_eq message content "" [] [] w Hc Hp
             ltac:(constructor) (startswith_empty _)).
  apply call_command_eq.
Qed.

End CommandsMore.

Section SessionMore.
Context `{Externals}.

(** X24.  [channels] is refused with [ChatNotActive] exactly while the session
    key is falsy.  After a LOGI frame with key [k], both [channels] and
    the session header of [sendbird_headers] depend on [k] alone: a key
    that is null or empty leaves the client connected, yet without
    channels and without the header. *)
Theorem channels_after_handshake (raw : string) (data k : json) (w : World) :
  str_take 4 raw = "LOGI" ->
  json_loads (str_drop 4 raw) = Some data ->
  subscript data "key" = Ok k ->
  let after := snd (resolve raw w) in
  socket_connected after = true
  /\ fst (channels after) =
     (if py_truthy k then Ok tt
      else Raise (ChatNotActive
                    "Chat must be started at least once to get a session key"))
  /\ fst (sendbird_headers after) =
     Ok (("User-Agent", JStr "jand/3.096") ::
         (if py_truthy k then [("Session-Key", k)] else [])).
Proof.
  intros Hop Hload Hk after. subst after. unfold resolve. rewrite Hload, Hop.
  change (matches_get "LOGI") with _on_connect.
  rewrite (on_connect_eq _ _ _ _ Hk). cbn [snd].
  split; [reflexivity | split].
  - unfold channels, bind, gets. cbn. by destruct (py_truthy k).
  - reflexivity.
Qed.

(** X25.  One caller reading [next_req_id] again and again gets the numbers
    after the counter, one by one and without repeats, and leaves the
    counter at the last of them. *)
Theorem next_req_ids_sequential (n : nat) (w : World) :
  fst (next_req_ids n w) =
    Ok (map (fun i => sendbird_req_id w + Z.of_nat i) (seq 1 n))
  /\ sendbird_req_id (snd (next_req_ids n w)) = sendbird_req_id w + Z.of_nat n
  /\ forall ids, fst (next_req_ids n w) = Ok ids -> NoDup ids.
Proof.
  assert (Hrun : forall n w,
    fst (next_req_ids n w) =
      Ok (map (fun i => sendbird_req_id w + Z.of_nat i) (seq 1 n))
    /\ sendbird_req_id (snd (next_req_ids n w)) = sendbird_req_id w + Z.of_nat n).
  { clear n w. induction n as [| n IH]; intros w.
    - split; [reflexivity | simpl; lia].
    - cbn [next_req_ids].
      rewrite (bind_ok next_req_id (sendbird_req_id w + 1) _ w
                 (with_req_id (sendbird_req_id w + 1) w) eq_refl).
      destruct (IH (with_req_id (sendbird_req_id w + 1) w)) as [Hids Hlast].
      destruct (next_req_ids n (with_req_id (sendbird_req_id w + 1) w))
        as [[ids | e] w1] eqn:Hn; [| discriminate].
      cbn [fst snd] in Hids, Hlast. injection Hids as ->.
      rewrite (bind_ok _ _ _ _ _ Hn). unfold ret. cbn [fst snd]. split.
      + f_equal. cbn [seq map]. f_equal; try lia.
        rewrite <- (seq_shift n 1), map_map. apply map_ext. intros i.
        change (sendbird_req_id (with_req_id (sendbird_req_id w + 1) w))
          with (sendbird_req_id w + 1). lia.
      + rewrite Hlast.
        change (sendbird_req_id (with_req_id (sendbird_req_id w + 1) w))
          with (sendbird_req_id w + 1). lia. }
  destruct (Hrun n w) as [Hids Hlast]. split; [exact Hids | split; [exact Hlast |]].
  intros ids Hok. rewrite Hids in Hok. injection Hok as <-.
  change (NoDup ((fun i => sendbird_req_id w + Z.of_nat i) <$> seq 1 n)).
  apply NoDup_fmap_2; [| apply NoDup_seq].
  intros i j Hij. lia.
Qed.

End SessionMore.

(** ** The further properties at concrete clients *)

Lemma get_prop_cached_witness :
  _get_prop "nick" false (Fixture.fresh (Some (JObj Cases.account_items)) []) =
  (Ok (JStr "robot"), Fixture.fresh (Some (JObj Cases.account_items)) []).
Proof.
  apply (get_prop_cached "nick" Cases.account_items (JStr "robot")
           (Fixture.fresh (Some (JObj Cases.account_items)) []));
    reflexivity.
Defined.

Lemma get_prop_refetches_witness :
  _get_prop "bio" false
    (Fixture.fresh (Some (JObj Cases.account_items)) [Cases.account_reply]) =
  (Ok (JStr "beep"),
   refreshed (JObj Cases.newer_items) []
     (Fixture.fresh (Some (JObj Cases.account_items)) [Cases.account_reply])).
Proof.
  apply (get_prop_refetches "bio" false Cases.account_items Cases.account_reply
           [] (JObj [("data", JObj Cases.newer_items)]) (JObj Cases.newer_items)
           (Fixture.fresh (Some (JObj Cases.account_items)) [Cases.account_reply]));
    try reflexivity.
  left. reflexivity.
Defined.

Lemma failed_refresh_serves_stale_witness :
  let w := with_update_flag true
             (Fixture.fresh (Some (JObj Cases.account_items)) []) in
  let asked :=
    with_log [HttpGet (api +:+ "/account") (headers_of JNull)]
      (with_update_flag false w) in
  _get_prop "nick" false w = (Raise ConnectionError, asked)
  /\ _get_prop "nick" false asked = (Ok (JStr "robot"), asked).
Proof.
  destruct (failed_refresh_serves_stale "nick" Cases.account_items (JStr "robot")
              (with_update_flag true
                 (Fixture.fresh (Some (JObj Cases.account_items)) []))
              eq_refl eq_refl eq_refl eq_refl) as [Hnone _].
  exact (Hnone eq_refl).
Defined.

Lemma fresh_forces_one_refetch_witness :
  bind Client_fresh (fun _ => _get_prop "nick" false)
    (Fixture.fresh (Some (JObj Cases.account_items)) [Cases.account_reply]) =
  (Ok (JStr "robot2"),
   refreshed (JObj Cases.newer_items) []
     (Fixture.fresh (Some (JObj Cases.account_items)) [Cases.account_reply])).
Proof.
  destruct (fresh_forces_one_refetch "nick" Cases.account_reply []
              (JObj [("data", JObj Cases.newer_items)]) JNull Cases.newer_items
              (JStr "robot2")
              (Fixture.fresh (Some (JObj Cases.account_items))
                 [Cases.account_reply])
              eq_refl eq_refl eq_refl eq_refl eq_refl) as [Hfirst _].
  exact Hfirst.
Defined.

Lemma login_token_generated_once_witness :
  exists tok made,
    __login_token (Fixture.fresh None []) = (Ok tok, made)
    /\ __login_token made = (Ok tok, made).
Proof.
  eexists _, _.
  apply (login_token_generated_once (Fixture.fresh None []));
    vm_compute; reflexivity.
Defined.

Lemma login_stores_token_witness :
  fst (login "a@b.c" "pw" false (Cases.grant_client [Cases.granted])) = Ok tt
  /\ token (snd (login "a@b.c" "pw" false (Cases.grant_client [Cases.granted])))
     = JStr "t0".
Proof.
  destruct (login_stores_token "a@b.c" "pw" false (JStr "dG9rZW4=")
              (JObj [("access_token", JStr "t0")]) (JStr "t0") Cases.granted []
              (Cases.grant_client [Cases.granted])
              (Cases.grant_client [Cases.granted])
              ltac:(reflexivity) ltac:(right; vm_compute; reflexivity)
              ltac:(vm_compute; reflexivity) ltac:(reflexivity)
              ltac:(reflexivity) ltac:(reflexivity) ltac:(reflexivity))
    as [Hlogin _].
  rewrite Hlogin. split; reflexivity.
Defined.

Lemma login_with_cached_token_witness :
  fst (login "a@b.c" "pw" false (Cases.returning_client [Cases.account_reply]))
    = Ok tt
  /\ log (snd (login "a@b.c" "pw" false
                 (Cases.returning_client [Cases.account_reply]))) =
     [HttpGet (api +:+ "/account") (headers_of (JStr "old"))].
Proof.
  rewrite (login_with_cached_token "a@b.c" "pw" (JStr "old") Cases.account_reply
             [] (Cases.returning_client [Cases.account_reply])
             ltac:(reflexivity) ltac:(vm_compute; reflexivity)
             ltac:(reflexivity) ltac:(reflexivity) ltac:(reflexivity)).
  split; reflexivity.
Defined.

Lemma login_keeps_refused_token_witness :
  let after :=
    login "a@b.c" "pw" false
      (Cases.returning_client [Cases.error_reply; Fixture.failed]) in
  fst after = Raise (BadAPIResponse "/oauth2/token, error")
  /\ token (snd after) = JStr "old" /\ authenticated (snd after) = false.
Proof.
  destruct (login_keeps_refused_token "a@b.c" "pw" (JStr "old")
              (JStr "dG9rZW4=") Cases.error_reply Fixture.failed []
              (Cases.returning_client [Cases.error_reply; Fixture.failed])
              ltac:(reflexivity) ltac:(vm_compute; reflexivity)
              ltac:(reflexivity) ltac:(vm_compute; reflexivity)
              ltac:(reflexivity) ltac:(reflexivity)
              ltac:(vm_compute; discriminate) ltac:(vm_compute; discriminate)
              ltac:(vm_compute; discriminate)) as (Hlogin & Htok & Hauth).
  cbv zeta. rewrite Hlogin. repeat split.
Defined.

Lemma resolve_command_no_prefix_witness :
  resolve_command (Cases.said "hello there")
    (Cases.prefixed ["!"; "?"] (Fixture.fresh None [])) =
  (Ok JNull, Cases.prefixed ["!"; "?"] (Fixture.fresh None [])).
Proof.
  apply (resolve_command_no_prefix (Cases.said "hello there") "hello there"
           (Cases.prefixed ["!"; "?"] (Fixture.fresh None [])));
    [reflexivity | repeat constructor].
Defined.

Lemma resolve_command_first_prefix_witness :
  resolve_command (Cases.said "?help me")
    (Cases.prefixed ["!"; "?"] (Fixture.fresh None [])) =
  (Ok JNull,
   with_log [CommandCalled (Some DefaultsHelp) (Cases.said "?help me") ["me"]]
     (Cases.prefixed ["!"; "?"] (Fixture.fresh None []))).
Proof.
  destruct (resolve_command_first_prefix (H := Fixture.python)
              (Cases.said "?help me") "?help me" "?"
              ["!"] [] (Cases.prefixed ["!"; "?"] (Fixture.fresh None []))
              ltac:(reflexivity) ltac:(reflexivity)
              ltac:(repeat constructor) ltac:(reflexivity)) as [Hrun _].
  rewrite Hrun. vm_compute. reflexivity.
Defined.

Lemma default_prefix_takes_every_message_witness :
  resolve_command (Cases.said "hello there") (Fixture.fresh None []) =
  (Ok JNull,
   with_log [CommandCalled None (Cases.said "hello there") ["there"]]
     (Fixture.fresh None [])).
Proof.
  rewrite (default_prefix_takes_every_message (H := Fixture.python)
             (Cases.said "hello there")
             "hello there" (Fixture.fresh None [])
             ltac:(reflexivity) ltac:(reflexivity)).
  vm_compute. reflexivity.
Defined.

Lemma channels_after_handshake_witness :
  fst (channels
         (snd (resolve (frame "LOGI" (JObj [("key", JStr "")]))
                 (Fixture.fresh None [])))) =
  Raise (ChatNotActive "Chat must be started at least once to get a session key").
Proof.
  destruct (channels_after_handshake (frame "LOGI" (JObj [("key", JStr "")]))
              (JObj [("key", JStr "")]) (JStr "") (Fixture.fresh None [])
              ltac:(vm_compute; reflexivity) ltac:(vm_compute; reflexivity)
              ltac:(reflexivity)) as (_ & Hchannels & _).
  exact Hchannels.
Defined.

(** X26 with two callers: the second acquires once the first has
    released, and writes before the first reads the counter. *)
Lemma lock_protects_counter_witness :
  let c := ([Bytecode.Returned 43; Bytecode.AtRelease],
            Bytecode.mkShared true 43) in
  Bytecode.holders c <= 1 /\ Bytecode.req_id (snd c) = 41 + Bytecode.writes c.
Proof.
  apply (lock_protects_counter [0; 0; 0; 0; 1; 1; 1; 0]%nat 2 41).
  reflexivity.
Defined.

Section MessagesMore.
Context `{Externals}.

(** X10.  [msg_id] and [channel_url] are read only once the sender is known to
    be someone else: a message of the client's own is dropped even when
    its payload has neither, while one of somebody else that lacks
    either raises before any command or hook is called. *)
Theorem mesg_fields_read_after_sender (raw : string)
  (data sender name own : json) (e : exn) (w w0 : World) :
  str_take 4 raw = "MESG" ->
  json_loads (str_drop 4 raw) = Some data ->
  subscript data "user" = Ok sender ->
  subscript sender "name" = Ok name ->
  nick w = (Ok own, w0) ->
  subscript data "msg_id" = Raise e \/
  (exists i, subscript data "msg_id" = Ok i /\
             subscript data "channel_url" = Raise e) ->
  resolve raw w = (if py_eq name own then Ok tt else Raise e, w0).
Proof.
  intros Hop Hload Hs Hn Hnick Hbad.
  unfold resolve. rewrite Hload, Hop.
  change (matches_get "MESG") with _on_message. unfold _on_message.
  rewrite (bind_lift _ _ _ _ Hs), (bind_lift _ _ _ _ Hn), (bind_ok _ _ _ _ _ Hnick).
  destruct (py_eq name own); [reflexivity |].
  unfold bind, lift. by destruct Hbad as [-> | (i & -> & ->)].
Qed.

(** X11.  A command that raises takes [on_message] with it: the exception
    leaves [resolve] and the hook is not called for that message. *)
Theorem command_failure_skips_on_message (raw : string)
  (data sender name own msg_id url : json) (e : exn) (w w0 w1 : World) :
  str_take 4 raw = "MESG" ->
  json_loads (str_drop 4 raw) = Some data ->
  subscript data "user" = Ok sender ->
  subscript sender "name" = Ok name ->
  subscript data "msg_id" = Ok msg_id ->
  subscript data "channel_url" = Ok url ->
  nick w = (Ok own, w0) ->
  py_eq name own = false ->
  resolve_command (mkMessage msg_id url data None) w0 = (Raise e, w1) ->
  resolve raw w = (Raise e, w1).
Proof.
  intros Hop Hload Hs Hn Hm Hu Hnick Heq Hcmd.
  unfold resolve. rewrite Hload, Hop.
  change (matches_get "MESG") with _on_message. unfold _on_message.
  rewrite (bind_lift _ _ _ _ Hs), (bind_lift _ _ _ _ Hn), (bind_ok _ _ _ _ _ Hnick).
  rewrite Heq.
  rewrite (bind_lift _ _ _ _ Hm), (bind_lift _ _ _ _ Hu).
  by apply bind_raise.
Qed.

(** X19.  The client's user is built once: whenever [user] returns, the user
    it returned is kept, and reading [user] again gives it back without
    a request or any other change. *)
Theorem user_is_built_once (u : User) (w w1 : World) :
  user w = (Ok u, w1) -> user w1 = (Ok u, w1).
Proof.
  unfold user at 1. unfold bind at 1, gets.
  destruct (client_user w) as [usr |] eqn:Hcu.
  - intros [= <- <-]. unfold user, bind, gets. by rewrite Hcu.
  - unfold bind at 1. destruct (id w) as [[i | e] w'] eqn:Hid; [| discriminate].
    intros [= <- <-]. reflexivity.
Qed.

End MessagesMore.

Lemma mesg_fields_read_after_sender_witness :
  resolve (frame "MESG" (JObj [("user", JObj [("name", JStr "robot")])]))
    Fixture.mesg_client = (Ok tt, Fixture.mesg_client)
  /\ resolve (frame "MESG" (JObj [("user", JObj [("name", JStr "bob")])]))
       Fixture.mesg_client = (Raise (KeyError "msg_id"), Fixture.mesg_client).
Proof.
  split.
  - apply (mesg_fields_read_after_sender
             (frame "MESG" (JObj [("user", JObj [("name", JStr "robot")])]))
             (JObj [("user", JObj [("name", JStr "robot")])])
             (JObj [("name", JStr "robot")]) (JStr "robot") (JStr "robot")
             (KeyError "msg_id") Fixture.mesg_client Fixture.mesg_client);
      try (vm_compute; reflexivity).
    left. reflexivity.
  - apply (mesg_fields_read_after_sender
             (frame "MESG" (JObj [("user", JObj [("name", JStr "bob")])]))
             (JObj [("user", JObj [("name", JStr "bob")])])
             (JObj [("name", JStr "bob")]) (JStr "bob") (JStr "robot")
             (KeyError "msg_id") Fixture.mesg_client Fixture.mesg_client);
      try (vm_compute; reflexivity).
    left. reflexivity.
Defined.

Lemma command_failure_skips_on_message_witness :
  resolve (frame "MESG" (JObj [("user", JObj [("name", JStr "bob")]);
                               ("msg_id", JInt 5); ("channel_url", JStr "chan")]))
    Fixture.mesg_client =
  (Raise (KeyError "message"), Fixture.mesg_client).
Proof.
  apply (command_failure_skips_on_message
           (frame "MESG" (JObj [("user", JObj [("name", JStr "bob")]);
                                ("msg_id", JInt 5); ("channel_url", JStr "chan")]))
           (JObj [("user", JObj [("name", JStr "bob")]);
                  ("msg_id", JInt 5); ("channel_url", JStr "chan")])
           (JObj [("name", JStr "bob")]) (JStr "bob") (JStr "robot")
           (JInt 5) (JStr "chan") (KeyError "message")
           Fixture.mesg_client Fixture.mesg_client Fixture.mesg_client);
    vm_compute; reflexivity.
Defined.

Lemma user_is_built_once_witness :
  let built :=
    with_client_user (Some (mkUser (JStr "u1")))
      (with_client_id (JStr "u1") (Fixture.fresh (Some Fixture.account) [])) in
  user built = (Ok (mkUser (JStr "u1")), built).
Proof.
  apply (user_is_built_once (mkUser (JStr "u1"))
           (Fixture.fresh (Some Fixture.account) [])).
  vm_compute. reflexivity.
Defined.
